(** * PoWA web: the sampling, delta and rate queries

    A shallow embedding of the SQL built by [powa/sql/views.py] and of the
    metric groups of [powa/database.py] and [powa/server.py].

    A relation is a [list] of rows, a SQL value that may be NULL is an
    [option], and a statement that PostgreSQL can abort (division by zero, a
    range whose bounds are reversed, an [integer] out of range) returns in
    the [res] monad.  Timestamps
    are microseconds since the epoch ([Z]), intervals are microseconds ([Z]),
    counters are exact integers; [double precision] columns are represented
    by exact numbers, so rounding is not part of the model. *)

From Stdlib Require Import ZArith QArith Qminmax Lia.
From stdpp Require Import base option list sorting gmap strings.

Open Scope Z_scope.

(** ** PostgreSQL operators used by the queries *)

Module Pg.

Inductive error :=
| division_by_zero
| range_bounds_reversed
| integer_out_of_range.

Inductive res (A : Type) :=
| Ok (a : A)
| Err (e : error).
Arguments Ok {A} a.
Arguments Err {A} e.

#[export] Instance res_ret : MRet res := λ A a, Ok a.
#[export] Instance res_bind : MBind res := λ A B f m,
  match m with
  | Ok a => f a
  | Err e => Err e
  end.

(** [a + b] on [integer]: raises when the sum is out of the range of
    [integer]. *)
Definition int4pl (a b : Z) : res Z :=
  if (-2147483648 <=? a + b) && (a + b <=? 2147483647) then Ok (a + b)
  else Err integer_out_of_range.

(** [int8larger(a, b)]: the larger of two [bigint]s. *)
Definition int8larger (a b : Z) : Z := if b <? a then a else b.

(** [a / b] on [bigint]: truncates toward zero, raises on [b = 0]. *)
Definition int8div (a b : Z) : res Z :=
  if b =? 0 then Err division_by_zero else Ok (a ÷ b).

(** [a % b] on [bigint]: sign of the dividend, raises on [b = 0]. *)
Definition int8mod (a b : Z) : res Z :=
  if b =? 0 then Err division_by_zero else Ok (Z.rem a b).

(** [a - b]: strict, NULL when an operand is NULL. *)
Definition minus (a b : option Z) : option Z :=
  x ← a; y ← b; Some (x - y).

(** [GREATEST(a, b)]: NULL arguments are ignored; the result is NULL only
    when every argument is. *)
Definition greatest_by {A} (leb : A → A → bool) (a b : option A) : option A :=
  match a, b with
  | Some x, Some y => Some (if leb x y then y else x)
  | Some x, None => Some x
  | None, y => y
  end.

Definition greatest : option Z → option Z → option Z := greatest_by Z.leb.

Definition greatestq : option Q → option Q → option Q := greatest_by Qle_bool.

(** [sum(x)] over a group: NULL inputs are skipped, NULL when nothing is
    left. *)
Fixpoint sum (xs : list (option Z)) : option Z :=
  match xs with
  | [] => None
  | x :: t =>
      match x, sum t with
      | Some a, Some b => Some (a + b)
      | Some a, None => Some a
      | None, s => s
      end
  end.

(** [max(x)] and [min(x)] over a group, with the same NULL rule. *)
Fixpoint max (xs : list (option Z)) : option Z :=
  match xs with
  | [] => None
  | x :: t => greatest x (max t)
  end.

Definition least (a b : option Z) : option Z :=
  match a, b with
  | Some x, Some y => Some (if x <=? y then x else y)
  | Some x, None => Some x
  | None, y => y
  end.

Fixpoint min (xs : list (option Z)) : option Z :=
  match xs with
  | [] => None
  | x :: t => least x (min t)
  end.

(** [OVER (PARTITION BY .. ORDER BY ..)] on one partition already in
    window order: every row with the row that follows it, if any. *)
Fixpoint over {A} (partition : list A) : list (A * option A) :=
  match partition with
  | [] => []
  | x :: t => (x, head t) :: over t
  end.

(** [lead(x)]: [x] evaluated on the following row, NULL on the last row of
    the partition. *)
Definition lead {A B} (x : A → option B) (w : A * option A) : option B :=
  w.2 ≫= x.

(** A range of [timestamptz] with finite bounds. *)
Record tstzrange := mkrange {
  lower : Z;
  upper : Z;
  lower_inc : bool;
  upper_inc : bool
}.

Definition isempty (r : tstzrange) : bool :=
  (upper r <? lower r)
  || ((lower r =? upper r) && negb (lower_inc r && upper_inc r)).

(** [tstzrange(a, b, '[]')]: raises when [b < a]. *)
Definition tstzrange_closed (a b : Z) : res tstzrange :=
  if b <? a then Err range_bounds_reversed else Ok (mkrange a b true true).

(** [r @> t] *)
Definition contains (r : tstzrange) (t : Z) : bool :=
  (if lower_inc r then lower r <=? t else lower r <? t)
  && (if upper_inc r then t <=? upper r else t <? upper r).

(** [r1 && r2] *)
Definition overlaps (r1 r2 : tstzrange) : bool :=
  negb (isempty r1) && negb (isempty r2)
  && ((lower r1 <? upper r2)
      || ((lower r1 =? upper r2) && lower_inc r1 && upper_inc r2))
  && ((lower r2 <? upper r1)
      || ((lower r2 =? upper r1) && lower_inc r2 && upper_inc r1)).

(** [WHERE p] when [p] can raise: rows are tested in order and the first
    error aborts the statement. *)
Fixpoint where_ {A} (p : A → res bool) (rows : list A) : res (list A) :=
  match rows with
  | [] => Ok []
  | r :: t =>
      b ← p r;
      kept ← where_ p t;
      Ok (if b : bool then r :: kept else kept)
  end.

(** [ORDER BY key] as a stable insertion sort. *)
Fixpoint insert_by {A} (key : A → Z) (x : A) (l : list A) : list A :=
  match l with
  | [] => [x]
  | y :: t => if key y <? key x then y :: insert_by key x t else x :: l
  end.

Fixpoint order_by {A} (key : A → Z) (l : list A) : list A :=
  match l with
  | [] => []
  | x :: t => insert_by key x (order_by key t)
  end.

(** [GROUP BY key]: one entry per distinct key, with the rows of the
    group in their order in [rows]. *)
Fixpoint group_by {K A} `{EqDecision K} (key : A → K) (rows : list A)
    : list (K * list A) :=
  match rows with
  | [] => []
  | x :: t =>
      let gs := group_by key t in
      if decide (key x ∈ gs.*1) then
        (λ kg, if decide (kg.1 = key x) then (kg.1, x :: kg.2) else kg)
        <$> gs
      else (key x, [x]) :: gs
  end.

End Pg.
Import Pg.

(** ** The repository tables read by the queries *)

(** One element of a [records] array, or a [record] of a current table:
    [ts] and the cumulative counters by column name. *)
Record Snapshot := mkSnapshot {
  ts : Z;
  counters : gmap string Z
}.

#[export] Instance Snapshot_eq_dec : EqDecision Snapshot.
Proof. solve_decision. Defined.

(** [column(var)] on a record row; an unknown counter reads as NULL. *)
Definition column (var : string) (r : Snapshot) : option Z :=
  if String.eqb var "ts" then Some (ts r) else counters r !! var.

Record powa_databases_row := {
  d_srvid : Z;
  d_oid : Z;
  d_datname : string
}.

Record powa_statements_row := {
  ps_srvid : Z;
  ps_dbid : Z;
  ps_queryid : Z
}.

Record powa_statements_history_db_row := {
  dbh_srvid : Z;
  dbh_dbid : Z;
  dbh_coalesce_range : tstzrange;
  dbh_records : list Snapshot
}.

Record powa_statements_history_current_db_row := {
  dbc_srvid : Z;
  dbc_dbid : Z;
  dbc_record : Snapshot
}.

Record powa_statements_history_row := {
  psh_srvid : Z;
  psh_dbid : Z;
  psh_userid : Z;
  psh_queryid : Z;
  psh_coalesce_range : tstzrange;
  psh_records : list Snapshot
}.

Record powa_statements_history_current_row := {
  psc_srvid : Z;
  psc_dbid : Z;
  psc_userid : Z;
  psc_queryid : Z;
  psc_record : Snapshot
}.

Record Store := {
  powa_databases : list powa_databases_row;
  powa_statements : list powa_statements_row;
  powa_statements_history : list powa_statements_history_row;
  powa_statements_history_current : list powa_statements_history_current_row;
  powa_statements_history_db : list powa_statements_history_db_row;
  powa_statements_history_current_db :
    list powa_statements_history_current_db_row
}.

(** ** powa/sql/views.py *)

Module Views.

(** *** The sampling sub-select shared by [BASE_QUERY_SAMPLE_DB] and
    [BASE_QUERY_SAMPLE] *)

(** [row_number() OVER (PARTITION BY .. ORDER BY ts) AS number,
     count( * ) OVER (PARTITION BY ..) AS total, *] on one partition. *)
Definition numbered (rows : list Snapshot) : list (Z * Z * Snapshot) :=
  let total := Z.of_nat (length rows) in
  imap (λ i r, (Z.of_nat (S i), total, r)) (order_by ts rows).

(** The stride [int8larger((total)/(:samples+1),1)]. [:samples] is an
    [integer], as is the constant added to it, and [total] is a [bigint]. *)
Definition stride (samples total : Z) : res Z :=
  k ← int4pl samples 1;
  q ← int8div total k;
  Ok (int8larger q 1).

(** [WHERE number % ( int8larger((total)/(:samples+1),1) ) = 0] *)
Definition sample_cond (samples : Z) (row : Z * Z * Snapshot) : res bool :=
  let '(number, total, _) := row in
  s ← stride samples total;
  r ← int8mod number s;
  Ok (r =? 0).

(** The sub-select [sh] filtered by the sampling condition, for the rows
    [statements_history] of one partition. [:samples+1] reads no column: it
    is evaluated once, when the statement is planned, and its overflow
    aborts the statement whatever the rows are; the division is evaluated
    row by row. *)
Definition sample (samples : Z) (statements_history : list Snapshot)
    : res (list (Z * Z * Snapshot)) :=
  _ ← int4pl samples 1;
  where_ (sample_cond samples) (numbered statements_history).

(** *** Tier stitching *)

(** The [statements_history] sub-select of [BASE_QUERY_SAMPLE_DB], for the
    row [d] of [powa_databases] the LATERAL sub-select is joined to:
    the unnested records of the coalesced ranges overlapping the window,
    restricted to the window, UNION ALL the current records of the
    window. *)
Definition statements_history_db (st : Store) (server : Z)
    (w : tstzrange) (d : powa_databases_row) : list (Z * Snapshot) :=
  let unnested :=
    psh ← List.filter
             (λ psh, overlaps (dbh_coalesce_range psh) w
                     && (dbh_dbid psh =? d_oid d)
                     && (dbh_srvid psh =? d_srvid d)
                     && (dbh_srvid psh =? server))
             (powa_statements_history_db st);
    records ← dbh_records psh;
    [(dbh_dbid psh, records)] in
  List.filter (λ u, contains w (ts u.2)) unnested
  ++ ((λ c, (dbc_dbid c, dbc_record c)) <$>
      List.filter
        (λ c, contains w (ts (dbc_record c))
              && (dbc_dbid c =? d_oid d)
              && (dbc_srvid c =? server))
        (powa_statements_history_current_db st)).

(** A row of the LATERAL sub-select [h] of
    [powa_base_statdata_detailed_db]. *)
Record detailed_row := {
  h_dbid : Z;
  h_userid : Z;
  h_queryid : Z;
  h_record : Snapshot
}.

#[export] Instance detailed_row_eq_dec : EqDecision detailed_row.
Proof. solve_decision. Defined.

(** [queryid IN (SELECT powa_statements.queryid FROM powa_statements
     WHERE powa_statements.dbid = powa_databases.oid)] *)
Definition queryid_in_statements (st : Store) (d : powa_databases_row)
    (queryid : Z) : bool :=
  existsb (λ ps, (ps_dbid ps =? d_oid d) && (ps_queryid ps =? queryid))
          (powa_statements st).

(** The LATERAL sub-select [h] of [powa_base_statdata_detailed_db] for the
    row [d] of [powa_databases]. *)
Definition powa_base_statdata_detailed_db_h (st : Store) (server : Z)
    (w : tstzrange) (d : powa_databases_row) : list detailed_row :=
  let unnested :=
    psh ← List.filter
             (λ psh, overlaps (psh_coalesce_range psh) w
                     && (psh_dbid psh =? d_oid d)
                     && queryid_in_statements st d (psh_queryid psh)
                     && (psh_srvid psh =? server))
             (powa_statements_history st);
    records ← psh_records psh;
    [Build_detailed_row (psh_dbid psh) (psh_userid psh) (psh_queryid psh)
                        records] in
  List.filter (λ u, contains w (ts (h_record u))) unnested
  ++ ((λ psc, Build_detailed_row (psc_dbid psc) (psc_userid psc)
                                 (psc_queryid psc) (psc_record psc)) <$>
      List.filter
        (λ psc, contains w (ts (psc_record psc))
                && (psc_dbid psc =? d_oid d)
                && queryid_in_statements st d (psc_queryid psc)
                && (psc_srvid psc =? server))
        (powa_statements_history_current st)).

(** [powa_base_statdata_detailed_db]: [powa_databases, LATERAL (..) h]. *)
Definition powa_base_statdata_detailed_db (st : Store) (server from to : Z)
    : res (list (powa_databases_row * detailed_row)) :=
  w ← tstzrange_closed from to;
  Ok (d ← powa_databases st;
      h ← powa_base_statdata_detailed_db_h st server w d;
      [(d, h)]).

(** The stitching as the specification words it, for the scope of [d]: the
    stored snapshots whose [ts] lies in the window, from every coalesced
    range and from the current tail, one row per stored copy. *)
Definition stored_in_window (st : Store) (server : Z)
    (w : tstzrange) (d : powa_databases_row) : list detailed_row :=
  List.filter (λ u, contains w (ts (h_record u)))
    (psh ← List.filter
              (λ psh, (psh_dbid psh =? d_oid d)
                      && queryid_in_statements st d (psh_queryid psh)
                      && (psh_srvid psh =? server))
              (powa_statements_history st);
     records ← psh_records psh;
     [Build_detailed_row (psh_dbid psh) (psh_userid psh) (psh_queryid psh)
                         records])
  ++ ((λ psc, Build_detailed_row (psc_dbid psc) (psc_userid psc)
                                 (psc_queryid psc) (psc_record psc)) <$>
      List.filter
        (λ psc, contains w (ts (psc_record psc))
                && (psc_dbid psc =? d_oid d)
                && queryid_in_statements st d (psc_queryid psc)
                && (psc_srvid psc =? server))
        (powa_statements_history_current st)).

(** The invariant of the coalesced tables: the records of a row lie inside
    its [coalesce_range]. *)
Definition records_in_range (st : Store) : Prop :=
  Forall
    (λ psh, Forall (λ r, contains (psh_coalesce_range psh) (ts r) = true)
                   (psh_records psh))
    (powa_statements_history st).

(** The sub-select [ranges] of [powa_base_statdata_db] restricted to the
    key [(srvid, dbid)] of [d] (the LEFT JOIN condition): the coalesced
    ranges that overlap the window. *)
Definition ranges (st : Store) (server : Z) (w : tstzrange)
    (d : powa_databases_row) : list tstzrange :=
  dbh_coalesce_range <$>
    List.filter
      (λ dbh, overlaps (dbh_coalesce_range dbh) w
              && (dbh_srvid dbh =? server)
              && (dbh_dbid dbh =? d_oid d)
              && (dbh_srvid dbh =? d_srvid d))
      (powa_statements_history_db st).

(** [min(lower(coalesce_range)) AS min_ts] and
    [max(upper(coalesce_range)) AS max_ts]; NULL when the LEFT JOIN finds
    no range. *)
Definition min_ts (rs : list tstzrange) : option Z :=
  Pg.min ((λ r, Some (lower r)) <$> rs).

Definition max_ts (rs : list tstzrange) : option Z :=
  Pg.max ((λ r, Some (upper r)) <$> rs).

(** [coalesce_range @> bound] for a bound that may be NULL. *)
Definition contains_bound (r : tstzrange) (bound : option Z) : bool :=
  match bound with
  | Some t => contains r t
  | None => false
  end.

(** The sub-selects [unnested1] and [unnested2] of
    [powa_base_statdata_db]: the records of the ranges that contain
    [bound], restricted to the window. [ranges.dbid] is [d.oid] when the
    LEFT JOIN matched, and the sub-select is empty otherwise because
    [bound] is NULL. *)
Definition unnested_at (st : Store) (server : Z) (w : tstzrange)
    (d : powa_databases_row) (bound : option Z) : list Snapshot :=
  List.filter (λ records, contains w (ts records))
    (dbh ← List.filter
              (λ dbh, contains_bound (dbh_coalesce_range dbh) bound
                      && (dbh_dbid dbh =? d_oid d)
                      && (dbh_srvid dbh =? server))
              (powa_statements_history_db st);
     dbh_records dbh).

(** The LATERAL sub-select [h] of [powa_base_statdata_db] for the row [d]
    of [powa_databases]. *)
Definition powa_base_statdata_db_h (st : Store) (server : Z)
    (w : tstzrange) (d : powa_databases_row) : list Snapshot :=
  let rs := ranges st server w d in
  unnested_at st server w d (min_ts rs)
  ++ unnested_at st server w d (max_ts rs)
  ++ (dbc_record <$>
      List.filter
        (λ dbc, contains w (ts (dbc_record dbc))
                && (dbc_dbid dbc =? d_oid d)
                && (dbc_srvid dbc =? d_srvid d)
                && (dbc_srvid dbc =? server))
        (powa_statements_history_current_db st)).

(** [powa_base_statdata_db]: [d.srvid], [d.oid] and the columns of [h]. *)
Definition powa_base_statdata_db (st : Store) (server from to : Z)
    : res (list (Z * Z * Snapshot)) :=
  w ← tstzrange_closed from to;
  Ok (d ← powa_databases st;
      h ← powa_base_statdata_db_h st server w d;
      [(d_srvid d, d_oid d, h)]).

(** *** The delta step *)

(** A row of a select grouped by [base_columns + [ts]], inside one
    partition of [base_columns]: the value of [ts] and the rows of the
    group. *)
Abbreviation grouped := (Z * list Snapshot)%type.

(** [column(var)] on a grouped row: the grouping column [ts]. *)
Definition group_column (var : string) (g : grouped) : option Z :=
  if String.eqb var "ts" then Some g.1 else None.

(** [sum(column(var))] on a grouped row. *)
Definition sum_column (var : string) (g : grouped) : option Z :=
  Pg.sum (column var <$> g.2).

(** [Biggest.__call__]:
    [greatest(lead(column(var)) over (..) - column(var), minval)]. *)
Definition Biggest (var : string) (minval : Z)
    (w : grouped * option grouped) : option Z :=
  greatest (minus (lead (group_column var) w) (group_column var w.1))
           (Some minval).

(** [Biggestsum.__call__]:
    [greatest(lead(sum(column(var))) over (..) - sum(column(var)),
     minval)]. *)
Definition Biggestsum (var : string) (minval : Z)
    (w : grouped * option grouped) : option Z :=
  greatest (minus (lead (sum_column var) w) (sum_column var w.1))
           (Some minval).

Record sample_row := {
  s_ts : Z;
  s_mesure_interval : option Z;
  s_cols : list (string * option Z)
}.

(** The counters differenced by [powa_getstatdata_sample], with their
    labels. *)
Definition stat_columns : list (string * string) :=
  [("calls", "calls"); ("total_time", "runtime"); ("rows", "rows");
   ("shared_blks_read", "shared_blks_read");
   ("shared_blks_hit", "shared_blks_hit");
   ("shared_blks_dirtied", "shared_blks_dirtied");
   ("shared_blks_written", "shared_blks_written");
   ("local_blks_read", "local_blks_read");
   ("local_blks_hit", "local_blks_hit");
   ("local_blks_dirtied", "local_blks_dirtied");
   ("local_blks_written", "local_blks_written");
   ("temp_blks_read", "temp_blks_read");
   ("temp_blks_written", "temp_blks_written");
   ("blk_read_time", "blk_read_time");
   ("blk_write_time", "blk_write_time")]%string.

(** The window of [powa_getstatdata_sample] on the rows of one partition
    of [base_query]: grouped by [ts], ordered by [ts]. *)
Definition windows (base_query : list Snapshot)
    : list (grouped * option grouped) :=
  over (order_by fst (group_by ts base_query)).

(** [powa_getstatdata_sample] on the rows of [base_query] of one partition
    of [base_columns]; the interval ['0 s'] is [0]. *)
Definition powa_getstatdata_sample (base_query : list Snapshot)
    : list sample_row :=
  (λ w, {| s_ts := w.1.1;
           s_mesure_interval := Biggest "ts" 0 w;
           s_cols := (λ vl, (vl.2, Biggestsum vl.1 0 w)) <$> stat_columns |})
  <$> windows base_query.

(** The row that the delta step computes from a single row [a] at its
    timestamp and the single row [b] at the next timestamp of the window,
    if any. *)
Definition delta_row (a : Snapshot) (b : option Snapshot) : sample_row :=
  {| s_ts := ts a;
     s_mesure_interval := greatest (minus (ts <$> b) (Some (ts a))) (Some 0);
     s_cols :=
       (λ vl, (vl.2, greatest (minus (b ≫= column vl.1) (column vl.1 a))
                              (Some 0)))
       <$> stat_columns |}.

(** The delta as the specification words it: the point at [t] differenced
    against the point that follows it in the unsampled partition. *)
Definition delta_to_raw_successor (var : string)
    (unsampled : list Snapshot) (t : Z) : option (option Z) :=
  (λ w, Biggestsum var 0 w) <$> List.find (λ w, w.1.1 =? t) (windows unsampled).

(** [BASE_QUERY_SAMPLE_DB], the rows joined to the row [d] of
    [powa_databases]; the outer [WHERE srvid = :server] reads [d.srvid]. *)
Definition BASE_QUERY_SAMPLE_DB (st : Store) (server from to samples : Z)
    (d : powa_databases_row) : res (list (Z * Z * Snapshot)) :=
  w ← tstzrange_closed from to;
  base ← sample samples ((λ r, r.2) <$> statements_history_db st server w d);
  Ok (List.filter (λ _, d_srvid d =? server) base).

(** [powa_getstatdata_sample("db", server)] for the partition of [d]. *)
Definition powa_getstatdata_sample_db (st : Store)
    (server from to samples : Z) (d : powa_databases_row)
    : res (list sample_row) :=
  by_db ← BASE_QUERY_SAMPLE_DB st server from to samples d;
  Ok (powa_getstatdata_sample ((λ r, r.2) <$> by_db)).

(** *** Aggregation with the max-minus-min filter *)

(** [HAVING max(column(var)) - min(column(var)) > 0] on the rows of a
    group; a NULL condition rejects the group. *)
Definition having_increase (var : string) (g : list Snapshot) : bool :=
  match minus (Pg.max (column var <$> g)) (Pg.min (column var <$> g)) with
  | Some x => 0 <? x
  | None => false
  end.

(** A row of [powa_base_waitdata_detailed_db]. *)
Record wait_row := {
  w_srvid : Z;
  w_datname : string;
  w_dbid : Z;
  w_queryid : Z;
  w_event_type : string;
  w_event : string;
  w_record : Snapshot
}.

Section diffs.

(** [diff] is imported from [powa/sql/utils.py], outside the modules
    embedded here; the queries are parametric in it. *)
Variable diff : string → list Snapshot → option Z.

Definition get_diffs_forstatdata (g : list Snapshot)
    : list (string * option Z) :=
  [("calls", diff "calls" g);
   ("runtime", diff "total_time" g);
   ("shared_blks_read", diff "shared_blks_read" g);
   ("shared_blks_hit", diff "shared_blks_hit" g);
   ("shared_blks_dirtied", diff "shared_blks_dirtied" g);
   ("shared_blks_written", diff "shared_blks_written" g);
   ("temp_blks_read", diff "temp_blks_read" g);
   ("temp_blks_written", diff "temp_blks_written" g);
   ("blk_read_time", diff "blk_read_time" g);
   ("blk_write_time", diff "blk_write_time" g)]%string.

(** The grouping key [(srvid, queryid, dbid, userid, datname)]. *)
Definition statdata_key (r : powa_databases_row * detailed_row)
    : Z * Z * Z * Z * string :=
  (d_srvid r.1, h_queryid r.2, h_dbid r.2, h_userid r.2, d_datname r.1).

(** [powa_getstatdata_detailed_db(srvid)] on the rows [base_query] of
    [powa_base_statdata_detailed_db()]. *)
Definition powa_getstatdata_detailed_db
    (base_query : list (powa_databases_row * detailed_row)) (srvid : Z)
    : list (Z * Z * Z * Z * string * list (string * option Z)) :=
  (λ kg, (kg.1, get_diffs_forstatdata ((λ r, h_record r.2) <$> kg.2)))
  <$> List.filter
        (λ kg, having_increase "calls" ((λ r, h_record r.2) <$> kg.2))
        (group_by statdata_key
           (List.filter (λ r, d_srvid r.1 =? srvid) base_query)).

(** The grouping key
    [(srvid, queryid, dbid, datname, event_type, event)]. *)
Definition waitdata_key (r : wait_row)
    : Z * Z * Z * string * string * string :=
  (w_srvid r, w_queryid r, w_dbid r, w_datname r, w_event_type r,
   w_event r).

(** [powa_getwaitdata_detailed_db(srvid)] on the rows [base_query] of
    [powa_base_waitdata_detailed_db()]; [srvid] is not used. *)
Definition powa_getwaitdata_detailed_db (base_query : list wait_row)
    (srvid : Z) : list (Z * Z * Z * string * string * string * option Z) :=
  (λ kg, (kg.1, diff "count" (w_record <$> kg.2)))
  <$> List.filter
        (λ kg, having_increase "count" (w_record <$> kg.2))
        (group_by waitdata_key base_query).

End diffs.

End Views.
Import Views.

(** ** powa/database.py and powa/server.py *)

Module Dashboards.

Inductive exn :=
| HTTPError (status_code : Z) (log_message : string)
| KeyError (key : string)
| IndexError.

Inductive py (A : Type) :=
| Return (a : A)
| Raise (e : exn).
Arguments Return {A} a.
Arguments Raise {A} e.

#[export] Instance py_ret : MRet py := λ A a, Return a.
#[export] Instance py_bind : MBind py := λ A B f m,
  match m with
  | Return a => f a
  | Raise e => Raise e
  end.

Record MetricDef := {
  label : string;
  type : option string;
  desc : option string
}.

#[export] Instance MetricDef_eq_dec : EqDecision MetricDef.
Proof. solve_decision. Defined.

(** [base.pop(key)] *)
Definition pop (key : string) (base : gmap string MetricDef)
    : py (gmap string MetricDef) :=
  match base !! key with
  | Some _ => Return (delete key base)
  | None => Raise (KeyError key)
  end.

(** [for key in keys: base.pop(key)] *)
Fixpoint pop_each (keys : list string) (base : gmap string MetricDef)
    : py (gmap string MetricDef) :=
  match keys with
  | [] => Return base
  | key :: rest => base' ← pop key base; pop_each rest base'
  end.

(** [_get_metrics] of [DatabaseOverviewMetricGroup] and of
    [GlobalDatabasesMetricGroup] (the two bodies are the same), on the
    metrics [cls_metrics] of the class. *)
Definition _get_metrics (cls_metrics : gmap string MetricDef)
    (has_extension : string → string → bool) (params_server : string)
    : py (gmap string MetricDef) :=
  let base := cls_metrics in
  if negb (has_extension params_server "pg_stat_kcache") then
    pop_each ["total_sys_hit"; "total_disk_read"; "minflts"; "majflts";
              "nvcsws"; "nivcsws"]%string base
  else
    pop "total_blks_read" base.

Module DatabaseOverviewMetricGroup.

(** [cls.metrics]: the [MetricDef] attributes of the class, by name (the
    dictionary itself is built by [MetricGroupDef] in [powa/dashboards.py],
    outside the modules embedded here). *)
Definition metrics : gmap string MetricDef :=
  list_to_map
    [("avg_runtime",
      Build_MetricDef "Avg runtime" (Some "duration")
        (Some "Average query duration"));
     ("calls",
      Build_MetricDef "Queries per sec" (Some "number")
        (Some "Number of time the query has been executed, per second"));
     ("load",
      Build_MetricDef "Runtime per sec" (Some "duration")
        (Some "Total duration of queries executed, per second"));
     ("total_blks_hit",
      Build_MetricDef "Total shared buffers hit" (Some "sizerate")
        (Some "Amount of data found in shared buffers"));
     ("total_blks_read",
      Build_MetricDef "Total shared buffers miss" (Some "sizerate")
        (Some "Amount of data found in OS cache or read from disk"));
     ("total_sys_hit",
      Build_MetricDef "Total system cache hit" (Some "sizerate")
        (Some "Amount of data found in OS cache"));
     ("total_disk_read",
      Build_MetricDef "Total disk read" (Some "sizerate")
        (Some "Amount of data read from disk"));
     ("minflts",
      Build_MetricDef "Soft page faults" (Some "number")
        (Some "Memory pages not found in the processor's MMU"));
     ("majflts",
      Build_MetricDef "Hard page faults" (Some "number")
        (Some "Memory pages not found in memory and loaded from storage"));
     ("nvcsws",
      Build_MetricDef "Voluntary context switches" (Some "number")
        (Some "Number of voluntary context switches"));
     ("nivcsws",
      Build_MetricDef "Involuntary context switches" (Some "number")
        (Some "Number of involuntary context switches"))]%string.

Definition _get_metrics := Dashboards._get_metrics metrics.

End DatabaseOverviewMetricGroup.

Module GlobalDatabasesMetricGroup.

Definition metrics : gmap string MetricDef :=
  list_to_map
    [("avg_runtime",
      Build_MetricDef "Avg runtime" (Some "duration")
        (Some "Average query duration"));
     ("calls",
      Build_MetricDef "Queries per sec" (Some "number")
        (Some "Number of time the query has been executed"));
     ("load",
      Build_MetricDef "Runtime per sec" (Some "duration")
        (Some "Total duration of queries executed"));
     ("total_blks_hit",
      Build_MetricDef "Total hit" (Some "sizerate")
        (Some "Amount of data found in shared buffers"));
     ("total_blks_read",
      Build_MetricDef "Total read" (Some "sizerate")
        (Some "Amount of data found in OS cache or read from disk"));
     ("total_sys_hit",
      Build_MetricDef "Total system cache hit" (Some "sizerate")
        (Some "Amount of data found in OS cache"));
     ("total_disk_read",
      Build_MetricDef "Total disk read" (Some "sizerate")
        (Some "Amount of data read from disk"));
     ("minflts",
      Build_MetricDef "Soft page faults" (Some "number")
        (Some "Memory pages not found in the processor's MMU"));
     ("majflts",
      Build_MetricDef "Hard page faults" (Some "number")
        (Some "Memory pages not found in memory and loaded from storage"));
     ("nvcsws",
      Build_MetricDef "Voluntary context switches" (Some "number")
        (Some "Number of voluntary context switches"));
     ("nivcsws",
      Build_MetricDef "Involuntary context switches" (Some "number")
        (Some "Number of involuntary context switches"))]%string.

Definition _get_metrics := Dashboards._get_metrics metrics.

End GlobalDatabasesMetricGroup.

(** [prepare] of [DatabaseWaitOverviewMetricGroup] and of
    [GlobalWaitsMetricGroup] (the two bodies are the same). *)
Definition prepare (has_extension : string → string → bool)
    (path_args : list string) : py unit :=
  server ← match path_args !! 0%nat with
           | Some s => Return s
           | None => Raise IndexError
           end;
  if negb (has_extension server "pg_wait_sampling") then
    Raise (HTTPError 501 "pg_wait_sampling is not installed")
  else
    Return ().

(** A request on a handler: Tornado runs [prepare] and, when it returns,
    the method that produces the data; an exception of [prepare] ends the
    request. *)
Definition execute {A} (prepare : py unit) (get : unit → py A) : py A :=
  _ ← prepare; get ().

(** *** The rate columns of the [query] properties *)

Module Utils.

(** Modelled from the spec: [greatest] of [powa/sql/utils.py], a module
    outside the ones embedded here. The spec's
    [max(elapsed_seconds, floor)] is SQL [GREATEST], as [func.greatest]
    in [powa/sql/views.py]. *)
Definition greatest : option Z → option Z → option Z := Pg.greatest.

Definition greatestq : option Q → option Q → option Q := Pg.greatestq.

End Utils.

(** [extract("epoch", interval)]: seconds, for an interval in
    microseconds. *)
Definition extract_epoch (interval : option Z) : option Q :=
  (λ i, i # 1000000)%Q <$> interval.

Definition numeric (x : option Z) : option Q := inject_Z <$> x.

(** [a / b] on numbers: strict, raises on a zero divisor. *)
Definition div (a b : option Q) : res (option Q) :=
  match a, b with
  | Some x, Some y =>
      if Qeq_bool y 0 then Err division_by_zero else Ok (Some (x / y)%Q)
  | _, _ => Ok None
  end.

(** [c.<label>] on a row of the sample sub-query. *)
Definition c (label : string) (r : sample_row) : option Z :=
  mjoin (snd <$> List.find (λ lv, String.eqb lv.1 label) (s_cols r)).

(** The rows of the sample sub-query grouped by
    [c.srvid, c.ts, bs, c.mesure_interval]: the grouping value
    [mesure_interval] and the rows [g] of the group. *)
Section rates.

Variables (mesure_interval : option Z) (g : list sample_row).

(** [sum(c.calls) / greatest(extract("epoch", c.mesure_interval), 1)] *)
Definition calls : res (option Q) :=
  div (numeric (Pg.sum (c "calls" <$> g)))
      (Utils.greatestq (extract_epoch mesure_interval) (Some 1%Q)).

(** [sum(c.runtime) / greatest(sum(c.calls), 1.)] *)
Definition avg_runtime : res (option Q) :=
  div (numeric (Pg.sum (c "runtime" <$> g)))
      (Utils.greatestq (numeric (Pg.sum (c "calls" <$> g))) (Some 1%Q)).

(** [sum(c.runtime) / greatest(extract("epoch", c.mesure_interval), 1)] *)
Definition load : res (option Q) :=
  div (numeric (Pg.sum (c "runtime" <$> g)))
      (Utils.greatestq (extract_epoch mesure_interval) (Some 1%Q)).

(** [sum_per_sec(col)] and [wps(col)] of [GlobalWaitsMetricGroup]:
    [sum(col) / extract("epoch", greatest(c.mesure_interval,
    '1 second'))], for the values [col] of a column on the group. *)
Definition sum_per_sec (col : list (option Z)) : res (option Q) :=
  div (numeric (Pg.sum col))
      (extract_epoch (Utils.greatest mesure_interval (Some 1000000))).

(** [wps(col)] of [DatabaseWaitOverviewMetricGroup]:
    [col / extract("epoch", greatest(c.mesure_interval, '1 second'))]. *)
Definition wps (col : option Z) : res (option Q) :=
  div (numeric col)
      (extract_epoch (Utils.greatest mesure_interval (Some 1000000))).

(** [sum(kc.reads) / greatest(extract("epoch", c.mesure_interval), 1.)] *)
Definition total_disk_read (kc_reads : list (option Z)) : res (option Q) :=
  div (numeric (Pg.sum kc_reads))
      (Utils.greatestq (extract_epoch mesure_interval) (Some 1%Q)).

End rates.

End Dashboards.
Import Dashboards.


(** ** powa/sql/views.py: the by-database aggregates *)

Module ViewsDb.

(** A row of [powa_base_waitdata_db]. *)
Record wait_db_row := {
  wd_srvid : Z;
  wd_dbid : Z;
  wd_event_type : string;
  wd_event : string;
  wd_record : Snapshot
}.

Section diffs.

(** [diff] is imported from [powa/sql/utils.py], outside the modules
    embedded here; the queries are parametric in it. *)
Variable diff : string → list Snapshot → option Z.

(** [powa_getstatdata_db(srvid)] on the rows [base_query] of
    [powa_base_statdata_db()], each [(srvid, dbid, record)]. *)
Definition powa_getstatdata_db (base_query : list (Z * Z * Snapshot))
    (srvid : Z) : list (Z * Z * list (string * option Z)) :=
  (λ kg, (kg.1, get_diffs_forstatdata diff ((λ r, r.2) <$> kg.2)))
  <$> List.filter
        (λ kg, having_increase "calls" ((λ r, r.2) <$> kg.2))
        (group_by (λ r : Z * Z * Snapshot, r.1)
           (List.filter (λ r, r.1.1 =? srvid) base_query)).

(** The grouping key [(srvid, dbid, event_type, event)]. *)
Definition waitdata_db_key (r : wait_db_row) : Z * Z * string * string :=
  (wd_srvid r, wd_dbid r, wd_event_type r, wd_event r).

(** [powa_getwaitdata_db(srvid)] on the rows [base_query] of
    [powa_base_waitdata_db()]; [srvid] is not used. *)
Definition powa_getwaitdata_db (base_query : list wait_db_row) (srvid : Z)
    : list (Z * Z * string * string * option Z) :=
  (λ kg, (kg.1, diff "count" (wd_record <$> kg.2)))
  <$> List.filter
        (λ kg, having_increase "count" (wd_record <$> kg.2))
        (group_by waitdata_db_key base_query).

End diffs.

End ViewsDb.
Import ViewsDb.

(** ** powa/sql/views.py: predicate statistics *)

Module ViewsQualstats.





End ViewsQualstats.
Import ViewsQualstats.

(** ** powa/database.py and powa/server.py: the wait-event metric groups and
    the filter of the overview queries *)

Module MetricGroups.

(** A metric group as a request sees it: its [name], and the [prepare] that
    the body of its class defines, when it defines one. *)
Record MetricGroupDef := {
  mg_name : string;
  mg_prepare : option ((string → string → bool) → list string → py unit)
}.

(** powa/database.py *)
Definition DatabaseWaitOverviewMetricGroup : MetricGroupDef :=
  {| mg_name := "database_waits_overview"; mg_prepare := Some prepare |}.

Definition ByQueryWaitSamplingMetricGroup : MetricGroupDef :=
  {| mg_name := "all_queries_waits"; mg_prepare := None |}.

(** powa/server.py *)
Definition ByDatabaseWaitSamplingMetricGroup : MetricGroupDef :=
  {| mg_name := "wait_sampling_by_database"; mg_prepare := None |}.

Definition GlobalWaitsMetricGroup : MetricGroupDef :=
  {| mg_name := "all_databases_waits"; mg_prepare := Some prepare |}.

(** The wait-event metric groups among the [datasources] of
    [DatabaseOverview] and of [ServerOverview]. *)
Definition wait_datasources : list MetricGroupDef :=
  [ByQueryWaitSamplingMetricGroup; DatabaseWaitOverviewMetricGroup;
   ByDatabaseWaitSamplingMetricGroup; GlobalWaitsMetricGroup].

Section request.

(** The [prepare] that a class without one of its own inherits, through
    [MetricGroupDef] in [powa/dashboards.py], outside the modules embedded
    here. *)
Variable inherited_prepare : (string → string → bool) → list string → py unit.

(** Attribute lookup: the method of the class, else the inherited one. *)
Definition resolve_prepare (g : MetricGroupDef)
    : (string → string → bool) → list string → py unit :=
  default inherited_prepare (mg_prepare g).

(** A data request on the metric group [g]. *)
Definition request {A} (g : MetricGroupDef)
    (has_extension : string → string → bool) (path_args : list string)
    (get : unit → py A) : py A :=
  execute (resolve_prepare g has_extension path_args) get.

End request.

(** [c.calls is not None] in the [query] of [DatabaseOverviewMetricGroup]
    and of [GlobalDatabasesMetricGroup]: Python's identity test on the column
    object [c.calls], evaluated when the query is built. *)
Definition calls_is_not_None : bool := true.

(** [.where(c.calls is not None)] on the rows of the sample sub-query. *)
Definition where_calls_is_not_None (rows : list sample_row)
    : list sample_row :=
  List.filter (λ _, calls_is_not_None) rows.

End MetricGroups.
Import MetricGroups.

(** ** powa/sql/views.py: configuration changes *)

Module ViewsConfig.

Record pg_track_settings_history_row := {
  sh_srvid : Z;
  sh_ts : Z;
  sh_name : string;
  sh_setting_pretty : option string;
  sh_is_dropped : bool
}.

Record pg_track_db_role_settings_history_row := {
  rh_srvid : Z;
  rh_ts : Z;
  rh_name : string;
  rh_setdatabase : Z;
  rh_setrole : Z;
  rh_setting : option string;
  rh_is_dropped : bool
}.

Record pg_reboot_row := {
  rb_srvid : Z;
  rb_ts : Z
}.

(** The object built by [json_build_object], by kind. *)
Inductive change_data :=
| global_data (name : string) (prev_val new_val : option string)
    (prev_is_dropped is_dropped : bool)
| rds_data (name : string) (prev_val new_val : option string)
    (prev_is_dropped is_dropped : bool) (datname : option string)
    (setrole : Z).

(** A row of the result; [ts] stands for its epoch. *)
Record change := {
  ch_ts : Z;
  ch_kind : string;
  ch_data : option change_data
}.

(** [lag(..) OVER (PARTITION BY .. ORDER BY ..)] on one partition already in
    window order: every row with the row before it, if any. *)
Fixpoint lagged {A} (prev : option A) (partition : list A)
    : list (option A * A) :=
  match partition with
  | [] => []
  | x :: t => (prev, x) :: lagged (Some x) t
  end.

(** The windows [PARTITION BY key ORDER BY ts] of a relation. *)
Definition lag_windows {K A} `{EqDecision K} (key : A → K) (ts : A → Z)
    (rows : list A) : list (option A * A) :=
  kg ← group_by key rows;
  lagged None (order_by ts kg.2).

(** The first sub-select, [global]. *)
Definition global_changes (history : list pg_track_settings_history_row)
    (server from to : Z) : list change :=
  let src :=
    lag_windows sh_name sh_ts
      (List.filter (λ h, (sh_srvid h =? server) && (sh_ts h <=? to)) history) in
  (λ w : option pg_track_settings_history_row * pg_track_settings_history_row,
     {| ch_ts := sh_ts w.2;
        ch_kind := "global";
        ch_data :=
          Some (global_data (sh_name w.2)
                  (w.1 ≫= sh_setting_pretty)
                  (sh_setting_pretty w.2)
                  (default true (sh_is_dropped <$> w.1))
                  (sh_is_dropped w.2)) |})
  <$> List.filter (λ w, (from <=? sh_ts w.2) && (sh_ts w.2 <=? to)) src.

(** [h LEFT JOIN powa_databases d ON d.srvid = h.srvid
     AND d.oid = h.setdatabase]: [h] with the name of each matching
    database, or with NULL when there is none. *)
Definition left_join_databases (databases : list powa_databases_row)
    (h : pg_track_db_role_settings_history_row)
    : list (pg_track_db_role_settings_history_row * option string) :=
  match List.filter
          (λ d, (d_srvid d =? rh_srvid h) && (d_oid d =? rh_setdatabase h))
          databases with
  | [] => [(h, None)]
  | ds => (λ d, (h, Some (d_datname d))) <$> ds
  end.

(** The second sub-select, [rds]; [restrict_database] adds
    [AND (d.datname = :database OR h.setdatabase = 0)]. *)
Definition rds_changes (restrict_database : bool)
    (databases : list powa_databases_row)
    (history : list pg_track_db_role_settings_history_row)
    (server from to : Z) (database : string) : list change :=
  let src :=
    lag_windows
      (λ hd : pg_track_db_role_settings_history_row * option string,
         (rh_name hd.1, rh_setdatabase hd.1, rh_setrole hd.1))
      (λ hd, rh_ts hd.1)
      (List.filter
         (λ hd, (rh_srvid hd.1 =? server)
                && (negb restrict_database
                    || bool_decide (hd.2 = Some database)
                    || (rh_setdatabase hd.1 =? 0))
                && (rh_ts hd.1 <=? to))
         (history ≫= left_join_databases databases)) in
  (λ w : option (pg_track_db_role_settings_history_row * option string)
         * (pg_track_db_role_settings_history_row * option string),
     {| ch_ts := rh_ts w.2.1;
        ch_kind := "rds";
        ch_data :=
          Some (rds_data (rh_name w.2.1)
                  (w.1 ≫= λ p, rh_setting p.1)
                  (rh_setting w.2.1)
                  (default true ((λ p, rh_is_dropped p.1) <$> w.1))
                  (rh_is_dropped w.2.1)
                  w.2.2
                  (rh_setrole w.2.1)) |})
  <$> List.filter (λ w, (from <=? rh_ts w.2.1) && (rh_ts w.2.1 <=? to)) src.

(** The third sub-select, on [pg_reboot]. *)
Definition reboots (pg_reboot : list pg_reboot_row) (server from to : Z)
    : list change :=
  (λ r, {| ch_ts := rb_ts r; ch_kind := "reboot"; ch_data := None |})
  <$> List.filter
        (λ r, (rb_srvid r =? server) && (from <=? rb_ts r) && (rb_ts r <=? to))
        pg_reboot.

(** The query of [get_config_changes(restrict_database)] with its
    parameters bound. *)
Definition get_config_changes (restrict_database : bool)
    (settings : list pg_track_settings_history_row)
    (role_settings : list pg_track_db_role_settings_history_row)
    (pg_reboot : list pg_reboot_row)
    (databases : list powa_databases_row)
    (server from to : Z) (database : string) : list change :=
  order_by ch_ts
    (global_changes settings server from to
     ++ rds_changes restrict_database databases role_settings
          server from to database
     ++ reboots pg_reboot server from to).

End ViewsConfig.
Import ViewsConfig.

(** ** powa/sql/views.py: pg_stat_kcache samples *)

Module ViewsKcache.

Record powa_kcache_metrics_db_row := {
  kmd_srvid : Z;
  kmd_dbid : Z;
  kmd_coalesce_range : tstzrange;
  kmd_metrics : list Snapshot
}.

Record powa_kcache_metrics_current_db_row := {
  kmcd_srvid : Z;
  kmcd_dbid : Z;
  kmcd_metrics : Snapshot
}.

(** The counters summed and differenced by the kcache queries. *)
Definition kcache_columns : list string :=
  ["reads"; "writes"; "user_time"; "system_time"; "minflts"; "majflts";
   "nvcsws"; "nivcsws"]%string.

(** The sub-select [km] of [BASE_QUERY_KCACHE_SAMPLE_DB] for the row [d] of
    [powa_databases]. *)
Definition km (history : list powa_kcache_metrics_db_row)
    (current : list powa_kcache_metrics_current_db_row)
    (w : tstzrange) (d : powa_databases_row) : list Snapshot :=
  List.filter (λ his, contains w (ts his))
    (kmd ← List.filter
              (λ kmd, (kmd_srvid kmd =? d_srvid d)
                      && (kmd_dbid kmd =? d_oid d)
                      && overlaps (kmd_coalesce_range kmd) w)
              history;
     kmd_metrics kmd)
  ++ (kmcd_metrics <$>
      List.filter
        (λ kmcd, (kmcd_srvid kmcd =? d_srvid d)
                 && (kmcd_dbid kmcd =? d_oid d)
                 && contains w (ts (kmcd_metrics kmcd)))
        current).

(** The row [SELECT km.ts, sum(km.reads) AS reads, .. GROUP BY km.ts] of a
    group; a NULL sum leaves its counter unset. *)
Definition kmbq_row (g : grouped) : Snapshot :=
  mkSnapshot g.1
    (list_to_map
       (omap (λ col, pair col <$> sum_column col g) kcache_columns)).

(** The sub-select [kmbq]. *)
Definition kmbq (km : list Snapshot) : list Snapshot :=
  kmbq_row <$> group_by ts km.

(** [BASE_QUERY_KCACHE_SAMPLE_DB], the rows joined to the row [d] of
    [powa_databases]. *)
Definition BASE_QUERY_KCACHE_SAMPLE_DB
    (history : list powa_kcache_metrics_db_row)
    (current : list powa_kcache_metrics_current_db_row)
    (from to samples : Z) (d : powa_databases_row)
    : res (list (Z * Z * Snapshot)) :=
  w ← tstzrange_closed from to;
  sample samples (kmbq (km history current w d)).

Record kcache_sample_row := {
  k_ts : Z;
  k_cols : list (string * option Z)
}.

(** [kcache_getstatdata_sample] on the rows of [base_query] of one partition
    of [base_columns]. *)
Definition kcache_getstatdata_sample (base_query : list Snapshot)
    : list kcache_sample_row :=
  (λ w, {| k_ts := w.1.1;
           k_cols := (λ col, (col, Biggestsum col 0 w)) <$> kcache_columns |})
  <$> windows base_query.

(** [from_clause.join(kcache_query, kcache_query.c.ts == c.ts)] in the
    [query] of [DatabaseOverviewMetricGroup] and of
    [GlobalDatabasesMetricGroup]. *)
Definition join_kcache (c : list sample_row) (kcache_query : list kcache_sample_row)
    : list (sample_row * kcache_sample_row) :=
  r ← c;
  kc ← List.filter (λ kc, k_ts kc =? s_ts r) kcache_query;
  [(r, kc)].

End ViewsKcache.
Import ViewsKcache.

(** ** powa/sql/views.py: wait event samples *)

Module ViewsWait.



End ViewsWait.
Import ViewsWait.

(** ** powa/database.py and powa/server.py: wait graphs and dashboards *)

Module Overview.

(** A plotted metric: the metric group and the name of its attribute. *)
Definition metric : Type := string * string.

Record Graph := {
  g_title : string;
  g_url : option string;
  g_metrics : list metric;
  g_color_scheme : option (list string)
}.

(** [graph.metrics.insert(0, m)] *)
Definition insert_metric (m : metric) (g : Graph) : Graph :=
  {| g_title := g_title g;
     g_url := g_url g;
     g_metrics := m :: g_metrics g;
     g_color_scheme := g_color_scheme g |}.

(** [graph.color_scheme = colors] *)
Definition set_color_scheme (colors : list string) (g : Graph) : Graph :=
  {| g_title := g_title g;
     g_url := g_url g;
     g_metrics := g_metrics g;
     g_color_scheme := Some colors |}.

(** The widgets the two dashboards are made of; a tab of a [TabContainer]
    is a [Dashboard] of graphs, kept as its title and its rows. *)
Inductive Widget :=
| graph (g : Graph)
| grid (title : string) (metric_group : string)
| wizard (title : string)
| tab_container (title : string) (tabs : list (string * list (list Graph))).

Record Dashboard := {
  d_title : string;
  d_widgets : list (list Widget)
}.

(** The columns selected after [to_epoch(c.ts)] by the [query] of
    [DatabaseWaitOverviewMetricGroup], by [label]. *)
Definition database_wait_columns (pg_version_num : Z) : list string :=
  if pg_version_num <? 100000 then
    ["count_lwlocknamed"; "count_lwlocktranche"; "count_lock";
     "count_bufferpin"]%string
  else
    ["count_lwlock"; "count_lock"; "count_bufferpin"; "count_activity";
     "count_client"; "count_extension"; "count_ipc"; "count_timeout";
     "count_io"]%string.

(** The same for [GlobalWaitsMetricGroup]:
    [pg_version_num is None or pg_version_num < 100000]. *)
Definition global_wait_columns (pg_version_num : option Z) : list string :=
  if match pg_version_num with
     | None => true
     | Some v => v <? 100000
     end
  then
    ["count_lwlocknamed"; "count_lwlocktranche"; "count_lock";
     "count_bufferpin"]%string
  else
    ["count_lwlock"; "count_lock"; "count_bufferpin"; "count_activity";
     "count_client"; "count_extension"; "count_ipc"; "count_timeout";
     "count_io"]%string.





Section dashboards.

Variable has_extension : string → string → bool.

(** [path_args[0]] *)
Variable server : string.

(** The metrics of the wait graph of [DatabaseOverview.dashboard]. *)
Definition database_wait_metrics (pg_version_num : Z) : list metric :=
  pair "DatabaseWaitOverviewMetricGroup"
  <$> (if pg_version_num <? 100000 then
         ["count_lwlocknamed"; "count_lwlocktranche"; "count_lock";
          "count_bufferpin"]
       else
         ["count_lwlock"; "count_lock"; "count_bufferpin"; "count_activity";
          "count_client"; "count_extension"; "count_ipc"; "count_timeout";
          "count_io"]).

(** [DatabaseOverview.dashboard] when [_dashboard] is not set yet. The
    block graph is modified after it is placed in [graphs], and
    [graphs_dash] after it is handed to the [TabContainer]; both are held by
    reference, so the dashboard shows their final state. *)
Definition database_dashboard (pg_version_num : Z) : Dashboard :=
  let kcache := has_extension server "pg_stat_kcache" in
  let wait_sampling := has_extension server "pg_wait_sampling" in
  let block_graph :=
    {| g_title := "Blocks (On database %(database)s)";
       g_url := None;
       g_metrics := [("DatabaseOverviewMetricGroup", "total_blks_hit")];
       g_color_scheme := None |} in
  let block_graph :=
    if kcache then
      set_color_scheme ["#cb513a"; "#65b9ac"; "#73c03a"]
        (insert_metric ("DatabaseOverviewMetricGroup", "total_disk_read")
           (insert_metric ("DatabaseOverviewMetricGroup", "total_sys_hit")
              block_graph))
    else
      set_color_scheme ["#cb513a"; "#73c03a"]
        (insert_metric ("DatabaseOverviewMetricGroup", "total_blks_read")
           block_graph) in
  let graphs :=
    [ {| g_title := "Calls (On database %(database)s)";
         g_url := None;
         g_metrics := [("DatabaseOverviewMetricGroup", "avg_runtime");
                       ("DatabaseOverviewMetricGroup", "load");
                       ("DatabaseOverviewMetricGroup", "calls")];
         g_color_scheme := None |};
      block_graph ] in
  let graphs_dash :=
    (if kcache || wait_sampling then [("General Overview", [graphs])] else [])
    ++ (if kcache then
          [("System resources",
            [[ {| g_title := "System resources (events per sec)";
                  g_url := Some "https://powa.readthedocs.io/en/latest/stats_extensions/pg_stat_kcache.html";
                  g_metrics := [("DatabaseOverviewMetricGroup", "majflts");
                                ("DatabaseOverviewMetricGroup", "minflts");
                                ("DatabaseOverviewMetricGroup", "nvcsws");
                                ("DatabaseOverviewMetricGroup", "nivcsws")];
                  g_color_scheme := None |} ]])]
        else [])
    ++ (if wait_sampling then
          [("Wait Events",
            [[ {| g_title := "Wait Events (per second)";
                  g_url := Some "https://powa.readthedocs.io/en/latest/stats_extensions/pg_wait_sampling.html";
                  g_metrics := database_wait_metrics pg_version_num;
                  g_color_scheme := None |} ]])]
        else []) in
  let graphs_row :=
    if kcache || wait_sampling then
      [tab_container "All databases" graphs_dash]
    else graph <$> graphs in
  {| d_title := "Database overview for %(database)s";
     d_widgets :=
       [graphs_row; [grid "Details for all queries" "ByQueryMetricGroup"]]
       ++ (if wait_sampling then
             [[grid "Wait events for all queries"
                    "ByQueryWaitSamplingMetricGroup"]]
           else [])
       ++ [[wizard "Index suggestions"]] |}.

(** The metrics of the wait graph of [ServerOverview.dashboard]. *)
Definition global_wait_metrics (pg_version_num : option Z) : list metric :=
  pair "GlobalWaitsMetricGroup"
  <$> (if match pg_version_num with
          | None => true
          | Some v => v <? 100000
          end
       then
         ["count_lwlocknamed"; "count_lwlocktranche"; "count_lock";
          "count_bufferpin"]
       else
         ["count_lwlock"; "count_lock"; "count_bufferpin"; "count_activity";
          "count_client"; "count_extension"; "count_ipc"; "count_timeout";
          "count_io"]).

(** [ServerOverview.dashboard] when [_dashboard] is not set yet, with the
    same sharing of the block graph and of [graphs_dash]. *)
Definition server_dashboard (pg_version_num : option Z) : Dashboard :=
  let kcache := has_extension server "pg_stat_kcache" in
  let wait_sampling := has_extension server "pg_wait_sampling" in
  let block_graph :=
    {| g_title := "Block access in Bps";
       g_url := None;
       g_metrics := [("GlobalDatabasesMetricGroup", "total_blks_hit")];
       g_color_scheme := None |} in
  let block_graph :=
    if kcache then
      set_color_scheme ["#cb513a"; "#65b9ac"; "#73c03a"]
        (insert_metric ("GlobalDatabasesMetricGroup", "total_disk_read")
           (insert_metric ("GlobalDatabasesMetricGroup", "total_sys_hit")
              block_graph))
    else
      set_color_scheme ["#cb513a"; "#73c03a"]
        (insert_metric ("GlobalDatabasesMetricGroup", "total_blks_read")
           block_graph) in
  let graphs :=
    [ {| g_title := "Query runtime per second (all databases)";
         g_url := None;
         g_metrics := [("GlobalDatabasesMetricGroup", "avg_runtime");
                       ("GlobalDatabasesMetricGroup", "load");
                       ("GlobalDatabasesMetricGroup", "calls")];
         g_color_scheme := None |};
      block_graph ] in
  let graphs_dash :=
    (if kcache || wait_sampling then [("General Overview", [graphs])] else [])
    ++ (if kcache then
          [("System resources",
            [[ {| g_title := "System resources (events per sec)";
                  g_url := Some "https://powa.readthedocs.io/en/latest/stats_extensions/pg_stat_kcache.html";
                  g_metrics := [("GlobalDatabasesMetricGroup", "majflts");
                                ("GlobalDatabasesMetricGroup", "minflts");
                                ("GlobalDatabasesMetricGroup", "nvcsws");
                                ("GlobalDatabasesMetricGroup", "nivcsws")];
                  g_color_scheme := None |} ]])]
        else [])
    ++ (if wait_sampling then
          [("Wait Events",
            [[ {| g_title := "Wait Events (per second)";
                  g_url := Some "https://powa.readthedocs.io/en/latest/stats_extensions/pg_wait_sampling.html";
                  g_metrics := global_wait_metrics pg_version_num;
                  g_color_scheme := None |} ]])]
        else []) in
  let graphs_row :=
    if kcache || wait_sampling then
      [tab_container "All databases" graphs_dash]
    else graph <$> graphs in
  {| d_title := "All databases";
     d_widgets :=
       [graphs_row; [grid "Details for all databases" "ByDatabaseMetricGroup"]]
       ++ (if wait_sampling then
             [[grid "Wait events for all databases"
                    "ByDatabaseWaitSamplingMetricGroup"]]
           else []) |}.

End dashboards.

(** The graphs of a dashboard, tabs included. *)
Definition widget_graphs (w : Widget) : list Graph :=
  match w with
  | graph g => [g]
  | tab_container _ tabs => tab ← tabs; row ← tab.2; row
  | _ => []
  end.

Definition dashboard_graphs (d : Dashboard) : list Graph :=
  row ← d_widgets d; w ← row; widget_graphs w.

End Overview.
Import Overview.

(** ** Sample data *)

(** A snapshot at [t] whose counter [calls] is [v]. *)
Definition snap (t v : Z) : Snapshot := mkSnapshot t {["calls" := v]}.

(** [n] snapshots at [ts = 1 .. n] with [calls = ts * ts]. *)
Definition ramp (n : nat) : list Snapshot :=
  (λ i, snap (Z.of_nat i) (Z.of_nat (i * i))) <$> seq 1 n.

(** Five snapshots with counters 10, 20, 40, 40, 70. *)
Definition five_points : list Snapshot :=
  [snap 0 10; snap 10 20; snap 20 40; snap 30 40; snap 40 70].

Definition db1 : powa_databases_row :=
  {| d_srvid := 1; d_oid := 1; d_datname := "db1" |}.

Definition store_db (history : list powa_statements_history_db_row) : Store :=
  {| powa_databases := [db1];
     powa_statements := [];
     powa_statements_history := [];
     powa_statements_history_current := [];
     powa_statements_history_db := history;
     powa_statements_history_current_db := [] |}.

(** Three coalesced ranges of database 1, one record in each. *)
Definition three_ranges : Store :=
  store_db
    [ {| dbh_srvid := 1; dbh_dbid := 1;
         dbh_coalesce_range := mkrange 0 10 true true;
         dbh_records := [snap 5 1] |};
      {| dbh_srvid := 1; dbh_dbid := 1;
         dbh_coalesce_range := mkrange 11 20 true true;
         dbh_records := [snap 15 2] |};
      {| dbh_srvid := 1; dbh_dbid := 1;
         dbh_coalesce_range := mkrange 21 30 true true;
         dbh_records := [snap 25 3] |} ].

(** A single coalesced range. *)
Definition one_range : Store :=
  store_db
    [ {| dbh_srvid := 1; dbh_dbid := 1;
         dbh_coalesce_range := mkrange 0 10 true true;
         dbh_records := [snap 5 1] |} ].

(** A query with one coalesced range and one current record. *)
Definition one_query : Store :=
  {| powa_databases := [db1];
     powa_statements := [ {| ps_srvid := 1; ps_dbid := 1; ps_queryid := 7 |} ];
     powa_statements_history :=
       [ {| psh_srvid := 1; psh_dbid := 1; psh_userid := 10; psh_queryid := 7;
            psh_coalesce_range := mkrange 0 10 true true;
            psh_records := [snap 5 1; snap 10 4] |} ];
     powa_statements_history_current :=
       [ {| psc_srvid := 1; psc_dbid := 1; psc_userid := 10; psc_queryid := 7;
            psc_record := snap 12 6 |} ];
     powa_statements_history_db := [];
     powa_statements_history_current_db := [] |}.

(** A candidate for [diff]: the increase over the group. *)
Definition max_minus_min (var : string) (g : list Snapshot) : option Z :=
  minus (Pg.max (column var <$> g)) (Pg.min (column var <$> g)).

(** Rows of [powa_base_statdata_detailed_db] for two queries of database 1:
    query 7 goes from 1 to 4 calls, query 8 stays at 3 calls. *)
Definition two_queries : list (powa_databases_row * detailed_row) :=
  [(db1, Build_detailed_row 1 10 7 (snap 0 1));
   (db1, Build_detailed_row 1 10 8 (snap 0 3));
   (db1, Build_detailed_row 1 10 7 (snap 10 4));
   (db1, Build_detailed_row 1 10 8 (snap 10 3))].

(** Rows of [powa_base_statdata_db] for two databases of server 1:
    database 1 goes from 1 to 4 calls, database 2 stays at 3 calls. *)
Definition two_databases : list (Z * Z * Snapshot) :=
  [(1, 1, snap 0 1); (1, 2, snap 0 3); (1, 1, snap 10 4); (1, 2, snap 10 3)].

(** A setting recorded at [ts = 5] and changed at [ts = 20]. *)
Definition work_mem_history : list pg_track_settings_history_row :=
  [Build_pg_track_settings_history_row 1 5 "work_mem" (Some "4MB") false;
   Build_pg_track_settings_history_row 1 20 "work_mem" (Some "8MB") false].

(** One coalesced range of kcache metrics of database 1, with two metrics
    at [ts = 5]. *)
Definition kcache_history : list powa_kcache_metrics_db_row :=
  [ {| kmd_srvid := 1; kmd_dbid := 1;
       kmd_coalesce_range := mkrange 0 10 true true;
       kmd_metrics := [mkSnapshot 5 {["reads" := 3]};
                       mkSnapshot 5 {["reads" := 4]};
                       mkSnapshot 9 {["reads" := 10]}] |} ].

(** * Properties *)

(** Closed decidable goals, by evaluation. *)
Ltac by_decide :=
  match goal with
  | |- ?P => apply (bool_decide_unpack P); vm_compute; exact I
  end.

(** ** Sampling *)

Lemma where_pure {A} (p : A → res bool) (f : A → bool) (rows : list A) :
  Forall (λ r, p r = Ok (f r)) rows →
  where_ p rows = Ok (List.filter f rows).
Proof.
  induction 1 as [|r rows Hr _ IH]; simpl; [reflexivity|].
  rewrite Hr, IH. simpl. destruct (f r); reflexivity.
Qed.

Lemma length_insert_by {A} (key : A → Z) x l :
  length (insert_by key x l) = S (length l).
Proof.
  induction l as [|y l IH]; simpl; [reflexivity|].
  destruct (key y <? key x); simpl; [rewrite IH|]; reflexivity.
Qed.

Lemma length_order_by {A} (key : A → Z) l :
  length (order_by key l) = length l.
Proof.
  induction l as [|x l IH]; simpl; [reflexivity|].
  rewrite length_insert_by, IH. reflexivity.
Qed.

(** One more row adds one kept row exactly when its number is a multiple of
    the stride. *)
Lemma div_succ (s k : Z) :
  0 < s → 0 ≤ k →
  (k + 1) / s = k / s + (if Z.rem (k + 1) s =? 0 then 1 else 0).
Proof.
  intros Hs Hk.
  rewrite Z.rem_mod_nonneg by lia.
  pose proof (Z.div_mod k s ltac:(lia)) as E.
  pose proof (Z.mod_pos_bound k s Hs) as B.
  destruct (Z.eq_dec (k mod s) (s - 1)) as [e|ne].
  - assert (H1 : (k + 1) mod s = 0).
    { symmetry. apply (Z.mod_unique _ _ (k / s + 1)); [lia|nia]. }
    rewrite H1. simpl.
    symmetry. apply (Z.div_unique _ _ _ 0); [lia|nia].
  - assert (H1 : (k + 1) mod s = k mod s + 1).
    { symmetry. apply (Z.mod_unique _ _ (k / s)); [lia|nia]. }
    rewrite H1.
    destruct (Z.eqb_spec (k mod s + 1) 0); [lia|].
    symmetry. apply (Z.div_unique _ _ _ (k mod s + 1)); [lia|nia].
Qed.

Lemma int4pl_Ok (a b : Z) :
  -2147483648 ≤ a + b ≤ 2147483647 → int4pl a b = Ok (a + b).
Proof.
  intros H. unfold int4pl.
  destruct (Z.leb_spec (-2147483648) (a + b)); [|lia].
  destruct (Z.leb_spec (a + b) 2147483647); [reflexivity|lia].
Qed.

Lemma int4pl_Err (a b : Z) :
  a + b < -2147483648 ∨ 2147483647 < a + b →
  int4pl a b = Err integer_out_of_range.
Proof.
  intros H. unfold int4pl.
  destruct (Z.leb_spec (-2147483648) (a + b));
    destruct (Z.leb_spec (a + b) 2147483647); try reflexivity; lia.
Qed.

Lemma int4pl_inv (a b k : Z) :
  int4pl a b = Ok k → k = a + b ∧ -2147483648 ≤ a + b ≤ 2147483647.
Proof.
  unfold int4pl.
  destruct (Z.leb_spec (-2147483648) (a + b));
    destruct (Z.leb_spec (a + b) 2147483647); simpl; try discriminate.
  intros [= <-]. lia.
Qed.

Lemma stride_pos samples total s :
  stride samples total = Ok s → 1 ≤ s.
Proof.
  unfold stride. destruct (int4pl samples 1) as [k|]; [|discriminate].
  cbn [mbind res_bind]. unfold int8div.
  destruct (k =? 0); simpl; [discriminate|].
  intros [= <-]. unfold int8larger.
  destruct (Z.ltb_spec 1 (total ÷ k)); lia.
Qed.

(** A stride is computed only when [:samples+1] is. *)
Lemma stride_plans samples total s :
  stride samples total = Ok s → int4pl samples 1 = Ok (samples + 1).
Proof.
  unfold stride. destruct (int4pl samples 1) as [k|] eqn:E; [|discriminate].
  intros _. apply int4pl_inv in E as [-> _]. reflexivity.
Qed.

Lemma stride_Ok samples total :
  -2147483648 ≤ samples + 1 ≤ 2147483647 →
  samples + 1 ≠ 0 →
  stride samples total = Ok (int8larger (total ÷ (samples + 1)) 1).
Proof.
  intros Hr H. unfold stride. rewrite (int4pl_Ok _ _ Hr).
  cbn [mbind res_bind]. unfold int8div.
  destruct (Z.eqb_spec (samples + 1) 0); [contradiction|reflexivity].
Qed.

(** The number of rows kept among [l], numbered from [k + 1], for a stride
    [s]. *)
Lemma count_kept {A} (T s : Z) (l : list A) (k : nat) :
  0 < s →
  Z.of_nat
    (length
       (List.filter (λ row : Z * Z * A, Z.rem row.1.1 s =? 0)
          (imap (λ i r, (Z.of_nat (S (k + i)), T, r)) l)))
  = Z.of_nat (k + length l) / s - Z.of_nat k / s.
Proof.
  intros Hs. revert k.
  induction l as [|x l IH]; intros k.
  - simpl. rewrite Nat.add_0_r. lia.
  - rewrite imap_cons.
    rewrite (imap_ext _ (λ i r, (Z.of_nat (S (S k + i)), T, r)))
      by (intros i y _; simpl; rewrite Nat.add_succ_r; reflexivity).
    cbn [List.filter fst].
    rewrite Nat.add_0_r.
    replace (k + length (x :: l))%nat with (S k + length l)%nat
      by (simpl; lia).
    specialize (IH (S k)).
    pose proof (div_succ s (Z.of_nat k) Hs ltac:(lia)) as D.
    replace (Z.of_nat (S k)) with (Z.of_nat k + 1) in * by lia.
    destruct (Z.rem (Z.of_nat k + 1) s =? 0); cbn [length]; lia.
Qed.

(** With a stride [s] the sampling condition never raises, and the sample is
    the rows whose number is a multiple of [s]. *)
Lemma sample_filter samples rows s :
  stride samples (Z.of_nat (length rows)) = Ok s →
  sample samples rows
  = Ok (List.filter (λ row : Z * Z * Snapshot, Z.rem row.1.1 s =? 0)
          (numbered rows)).
Proof.
  intros Hst. unfold sample. rewrite (stride_plans _ _ _ Hst).
  cbn [mbind res_bind]. apply where_pure.
  unfold numbered. apply Forall_forall. intros [[number total] r] Hin.
  apply elem_of_lookup_imap in Hin as (i & y & E & _).
  injection E as -> -> ->.
  unfold sample_cond. rewrite Hst. simpl.
  unfold int8mod.
  pose proof (stride_pos _ _ _ Hst).
  destruct (Z.eqb_spec s 0); [lia|reflexivity].
Qed.

Lemma sample_length samples rows s :
  stride samples (Z.of_nat (length rows)) = Ok s →
  ∃ out, sample samples rows = Ok out
         ∧ Z.of_nat (length out) = Z.of_nat (length rows) / s.
Proof.
  intros Hst. eexists. split; [apply (sample_filter _ _ _ Hst)|].
  unfold numbered.
  pose proof (stride_pos _ _ _ Hst).
  rewrite (count_kept _ s (order_by ts rows) 0) by lia.
  rewrite length_order_by. simpl. rewrite Z.div_0_l by lia. lia.
Qed.

(** C10, as stated, fails at the largest budget an [integer] holds:
    [:samples+1] overflows and the query raises, for a partition of 3 rows
    as for any other. *)
Lemma sample_budget_overflow :
  Z.of_nat (length (ramp 3)) ≤ 2147483647
  ∧ stride 2147483647 (Z.of_nat (length (ramp 3))) = Err integer_out_of_range
  ∧ sample 2147483647 (ramp 3) = Err integer_out_of_range.
Proof.
  split; [vm_compute; discriminate|]. split; reflexivity.
Qed.

(** C10, amended. When the partition has at most [samples] rows, and
    [samples + 1] is an [integer], the stride is 1 and the sample is the
    whole numbered partition: as many rows out as in. *)
Theorem sample_keeps_every_row (samples : Z) (rows : list Snapshot) :
  Z.of_nat (length rows) ≤ samples →
  samples < 2147483647 →
  stride samples (Z.of_nat (length rows)) = Ok 1
  ∧ sample samples rows = Ok (numbered rows)
  ∧ length (numbered rows) = length rows.
Proof.
  intros Hle Hmax.
  assert (Hst : stride samples (Z.of_nat (length rows)) = Ok 1).
  { rewrite stride_Ok by lia.
    rewrite Z.quot_small by lia. reflexivity. }
  split; [exact Hst|]. split.
  - rewrite (sample_filter _ _ _ Hst).
    f_equal. rewrite <- (filter_true (numbered rows)) at 2.
    apply filter_ext. intros [[n t] r]. simpl. rewrite Z.rem_1_r. reflexivity.
  - unfold numbered. rewrite length_imap. apply length_order_by.
Qed.

Lemma sample_keeps_every_row_witness :
  Z.of_nat (length (ramp 3)) ≤ 100
  ∧ 100 < 2147483647
  ∧ stride 100 (Z.of_nat (length (ramp 3))) = Ok 1
  ∧ sample 100 (ramp 3) = Ok (numbered (ramp 3))
  ∧ length (numbered (ramp 3)) = length (ramp 3).
Proof.
  split; [vm_compute; discriminate|]. split; [lia|].
  apply (sample_keeps_every_row 100 (ramp 3)); [vm_compute; discriminate|lia].
Defined.

(** C2, as stated, fails: with [samples = 100] a partition of 101 rows has
    stride [101 / 101 = 1] and keeps its 101 rows. *)
Lemma sample_exceeds_budget :
  ∃ out, sample 100 (ramp 101) = Ok out ∧ ¬ (Z.of_nat (length out) ≤ 100).
Proof.
  exists (numbered (ramp 101)). split; [vm_compute; reflexivity|].
  vm_compute. intros H; apply H; reflexivity.
Qed.

(** With a budget [samples >= 0], [total / stride] is at most
    [2 * samples + 1]. *)
Lemma kept_rows_bound (samples n : Z) :
  0 ≤ samples → 0 ≤ n →
  n / int8larger (n ÷ (samples + 1)) 1 ≤ 2 * samples + 1.
Proof.
  intros HK Hn.
  rewrite Z.quot_div_nonneg by lia.
  unfold int8larger.
  pose proof (Z.div_mod n (samples + 1) ltac:(lia)) as E.
  pose proof (Z.mod_pos_bound n (samples + 1) ltac:(lia)) as B.
  destruct (Z.ltb_spec 1 (n / (samples + 1))) as [Hq|Hq].
  - apply Z.lt_succ_r. apply Z.div_lt_upper_bound; [lia|nia].
  - rewrite Z.div_1_r.
    assert (0 ≤ n / (samples + 1)) by (apply Z.div_pos; lia).
    nia.
Qed.

(** Up to [2 * samples + 1] rows the stride is 1. *)
Lemma kept_rows_all (samples n : Z) :
  0 ≤ samples → 0 ≤ n → n ≤ 2 * samples + 1 →
  int8larger (n ÷ (samples + 1)) 1 = 1.
Proof.
  intros HK Hn Hle.
  rewrite Z.quot_div_nonneg by lia.
  unfold int8larger.
  destruct (Z.ltb_spec 1 (n / (samples + 1))) as [Hq|Hq]; [|reflexivity].
  assert (n / (samples + 1) < 2); [|lia].
  apply Z.div_lt_upper_bound; lia.
Qed.

(** Beyond the budget, more than [samples] rows are kept. *)
Lemma kept_rows_above (samples n : Z) :
  0 ≤ samples → samples < n →
  samples + 1 ≤ n / int8larger (n ÷ (samples + 1)) 1.
Proof.
  intros HK Hn.
  rewrite Z.quot_div_nonneg by lia.
  unfold int8larger.
  pose proof (Z.div_mod n (samples + 1) ltac:(lia)) as E.
  pose proof (Z.mod_pos_bound n (samples + 1) ltac:(lia)) as B.
  destruct (Z.ltb_spec 1 (n / (samples + 1))) as [Hq|Hq].
  - apply Z.div_le_lower_bound; [lia|nia].
  - rewrite Z.div_1_r. lia.
Qed.

(** C2, amended. For a budget [0 <= samples] with [samples + 1] an
    [integer], the sampling succeeds and keeps [total / stride] rows, with
    the stride [max(total / (samples + 1), 1)]: every row up to
    [2 * samples + 1] rows, never more than [2 * samples + 1], and at most
    [samples] exactly when the partition has at most [samples] rows. *)
Theorem sample_cardinality (samples : Z) (rows : list Snapshot) :
  0 ≤ samples →
  samples < 2147483647 →
  let total := Z.of_nat (length rows) in
  ∃ s out,
    stride samples total = Ok s
    ∧ s = Z.max (total / (samples + 1)) 1
    ∧ sample samples rows = Ok out
    ∧ Z.of_nat (length out) = total / s
    ∧ Z.of_nat (length out) ≤ 2 * samples + 1
    ∧ (total ≤ 2 * samples + 1 → Z.of_nat (length out) = total)
    ∧ (Z.of_nat (length out) ≤ samples ↔ total ≤ samples).
Proof.
  intros HK Hmax total.
  pose proof (stride_Ok samples total ltac:(lia) ltac:(lia)) as Hst.
  destruct (sample_length _ _ _ Hst) as (out & Hout & Hlen).
  fold total in Hlen.
  eexists. exists out.
  split; [exact Hst|]. split; [|split; [exact Hout|]].
  { rewrite Z.quot_div_nonneg by lia. unfold int8larger.
    destruct (Z.ltb_spec 1 (total / (samples + 1))); lia. }
  split; [exact Hlen|]. rewrite Hlen.
  split; [apply kept_rows_bound; lia|]. split.
  - intros Hle. rewrite kept_rows_all by lia. apply Z.div_1_r.
  - split.
    + intros Hle. destruct (Z.le_gt_cases total samples) as [H|H]; [exact H|].
      pose proof (kept_rows_above samples total HK ltac:(lia)). lia.
    + intros Hle. rewrite kept_rows_all by lia. rewrite Z.div_1_r. exact Hle.
Qed.

(** Scenario C of the spec: 1000 points and a budget of 100. *)
Lemma sample_cardinality_witness :
  0 ≤ 100 ∧ 100 < 2147483647
  ∧ ∃ s out,
      stride 100 (Z.of_nat (length (ramp 1000))) = Ok s
      ∧ s = Z.max (Z.of_nat (length (ramp 1000)) / (100 + 1)) 1
      ∧ sample 100 (ramp 1000) = Ok out
      ∧ Z.of_nat (length out) = Z.of_nat (length (ramp 1000)) / s
      ∧ Z.of_nat (length out) ≤ 2 * 100 + 1.
Proof.
  split; [lia|]. split; [lia|].
  destruct (sample_cardinality 100 (ramp 1000) ltac:(lia) ltac:(lia))
    as (s & out & H1 & H2 & H3 & H4 & H5 & _).
  exists s, out. repeat split; assumption.
Defined.

(** ** Ordering and grouping *)

Lemma insert_by_perm {A} (key : A → Z) x l : insert_by key x l ≡ₚ x :: l.
Proof.
  induction l as [|y l IH]; simpl; [reflexivity|].
  destruct (key y <? key x); [|reflexivity].
  rewrite IH. apply Permutation_swap.
Qed.

Lemma order_by_perm {A} (key : A → Z) l : order_by key l ≡ₚ l.
Proof.
  induction l as [|x l IH]; simpl; [reflexivity|].
  rewrite insert_by_perm, IH. reflexivity.
Qed.

Lemma insert_by_sorted {A} (key : A → Z) x l :
  StronglySorted (λ a b, key a ≤ key b) l →
  StronglySorted (λ a b, key a ≤ key b) (insert_by key x l).
Proof.
  induction 1 as [|y l Hl IH Hy]; simpl.
  - repeat constructor.
  - destruct (Z.ltb_spec (key y) (key x)) as [Hlt|Hge].
    + constructor; [exact IH|].
      rewrite insert_by_perm. constructor; [lia|exact Hy].
    + constructor; [constructor; assumption|].
      constructor; [exact Hge|].
      eapply Forall_impl; [exact Hy|]. intros z Hz. simpl in Hz. lia.
Qed.

Lemma order_by_sorted {A} (key : A → Z) l :
  StronglySorted (λ a b, key a ≤ key b) (order_by key l).
Proof.
  induction l as [|x l IH]; simpl; [constructor|].
  apply insert_by_sorted, IH.
Qed.

Lemma order_by_id {A} (key : A → Z) l :
  StronglySorted (λ a b, key a ≤ key b) l → order_by key l = l.
Proof.
  induction 1 as [|x l Hl IH Hx]; simpl; [reflexivity|].
  rewrite IH. destruct Hx as [|y l' Hy _]; simpl; [reflexivity|].
  destruct (Z.ltb_spec (key y) (key x)); [lia|reflexivity].
Qed.

Lemma sorted_distinct_strict {A} (key : A → Z) l :
  StronglySorted (λ a b, key a ≤ key b) l →
  NoDup (key <$> l) →
  StronglySorted (λ a b, key a < key b) l.
Proof.
  induction 1 as [|x l Hl IH Hx]; intros Hnd; [constructor|].
  rewrite fmap_cons in Hnd. apply NoDup_cons in Hnd as [Hnotin Hnd].
  constructor; [apply IH, Hnd|].
  apply Forall_forall. intros y Hy.
  rewrite Forall_forall in Hx. specialize (Hx y Hy). simpl in Hx.
  assert (key x ≠ key y).
  { intros E. apply Hnotin. apply list_elem_of_fmap. exists y. split; [exact E|exact Hy]. }
  lia.
Qed.

Lemma strict_sorted_NoDup {A} (key : A → Z) l :
  StronglySorted (λ a b, key a < key b) l → NoDup (key <$> l).
Proof.
  induction 1 as [|x l Hl IH Hx]; [constructor|].
  rewrite fmap_cons. apply NoDup_cons. split; [|exact IH].
  intros Hin. apply list_elem_of_fmap in Hin as (y & E & Hy).
  rewrite Forall_forall in Hx. specialize (Hx y Hy). simpl in Hx. lia.
Qed.

Lemma strict_sorted_weak {A} (key : A → Z) l :
  StronglySorted (λ a b, key a < key b) l →
  StronglySorted (λ a b, key a ≤ key b) l.
Proof.
  induction 1 as [|x l Hl IH Hx]; constructor; [exact IH|].
  eapply Forall_impl; [exact Hx|]. intros; simpl in *; lia.
Qed.

Lemma order_by_strict {A} (key : A → Z) l :
  NoDup (key <$> l) →
  StronglySorted (λ a b, key a < key b) (order_by key l).
Proof.
  intros Hnd. apply sorted_distinct_strict; [apply order_by_sorted|].
  rewrite order_by_perm. exact Hnd.
Qed.

Lemma sorted_sublist {A} (R : relation A) l1 l2 :
  l1 `sublist_of` l2 → StronglySorted R l2 → StronglySorted R l1.
Proof.
  induction 1 as [|x l1 l2 Hs IH|x l1 l2 Hs IH]; intros Hsorted.
  - constructor.
  - apply StronglySorted_inv in Hsorted as [H1 H2].
    constructor; [apply IH, H1|].
    apply Forall_forall. intros y Hy. rewrite Forall_forall in H2.
    apply H2. eapply elem_of_sublist; eassumption.
  - apply StronglySorted_inv in Hsorted as [H1 H2]. apply IH, H1.
Qed.

Lemma insert_by_fmap {A B} (f : A → B) (key : A → Z) (key' : B → Z) x l :
  (∀ y, key' (f y) = key y) →
  insert_by key' (f x) (f <$> l) = f <$> insert_by key x l.
Proof.
  intros Hk. induction l as [|y l IH]; [reflexivity|].
  rewrite fmap_cons. cbn [insert_by]. rewrite !Hk.
  destruct (key y <? key x); [rewrite fmap_cons, IH|]; reflexivity.
Qed.

Lemma order_by_fmap {A B} (f : A → B) (key : A → Z) (key' : B → Z) l :
  (∀ y, key' (f y) = key y) →
  order_by key' (f <$> l) = f <$> order_by key l.
Proof.
  intros Hk. induction l as [|x l IH]; [reflexivity|].
  rewrite fmap_cons. cbn [order_by]. rewrite IH. apply insert_by_fmap, Hk.
Qed.

(** Rows with pairwise distinct keys are grouped one by one. *)
Lemma group_by_distinct {K A} `{EqDecision K} (key : A → K) (l : list A) :
  NoDup (key <$> l) → group_by key l = (λ r, (key r, [r])) <$> l.
Proof.
  induction l as [|x l IH]; intros Hnd; simpl; [reflexivity|].
  rewrite fmap_cons in Hnd. apply NoDup_cons in Hnd as [Hnotin Hnd].
  rewrite (IH Hnd).
  destruct (decide _) as [Hin|_]; [|reflexivity].
  exfalso. apply Hnotin.
  rewrite <- list_fmap_compose in Hin. exact Hin.
Qed.

Lemma over_lookup {A} (l : list A) (i : nat) (a : A) :
  l !! i = Some a → over l !! i = Some (a, l !! S i).
Proof.
  revert i. induction l as [|x l IH]; intros i Hi; [discriminate|].
  destruct i as [|i]; simpl in *.
  - injection Hi as ->. destruct l; reflexivity.
  - apply IH, Hi.
Qed.

Lemma length_over {A} (l : list A) : length (over l) = length l.
Proof. induction l as [|x l IH]; simpl; [|rewrite IH]; reflexivity. Qed.

Lemma over_last {A} (l : list A) (a : A) :
  last l = Some a → last (over l) = Some (a, None).
Proof.
  induction l as [|x l IH]; [discriminate|].
  destruct l as [|y l]; simpl in *.
  - intros [= ->]. reflexivity.
  - exact IH.
Qed.

Lemma elem_of_filter {A} (f : A → bool) (l : list A) (x : A) :
  x ∈ List.filter f l ↔ x ∈ l ∧ f x = true.
Proof. rewrite !list_elem_of_In. apply filter_In. Qed.

Lemma filter_none {A} (f : A → bool) (l : list A) :
  Forall (λ x, f x = false) l → List.filter f l = [].
Proof.
  induction 1 as [|x l Hx _ IH]; simpl; [reflexivity|].
  rewrite Hx. exact IH.
Qed.

Section group_by_facts.

Context {K A : Type} `{EqDecision K} (key : A → K).

Lemma group_by_keys (l : list A) (y : A) :
  y ∈ l → key y ∈ (group_by key l).*1.
Proof.
  induction l as [|x l IH]; [intros Hy; inversion Hy|].
  intros Hy. cbn [group_by].
  assert (Hkeys : ∀ gs : list (K * list A),
    ((λ kg, if decide (kg.1 = key x) then (kg.1, x :: kg.2) else kg) <$> gs).*1
    = gs.*1).
  { intros gs. rewrite <- list_fmap_compose. apply list_fmap_ext.
    intros _ [k g] _. simpl. destruct (decide (k = key x)); reflexivity. }
  apply elem_of_cons in Hy as [->|Hy].
  - destruct (decide _) as [Hin|_].
    + rewrite Hkeys. exact Hin.
    + rewrite fmap_cons. apply elem_of_cons. left. reflexivity.
  - destruct (decide _) as [Hin|_].
    + rewrite Hkeys. apply IH, Hy.
    + rewrite fmap_cons. apply elem_of_cons. right. apply IH, Hy.
Qed.

(** A group holds exactly the rows of its key, and is not empty. *)
Lemma group_by_rows (l : list A) (k : K) (g : list A) :
  (k, g) ∈ group_by key l →
  g = List.filter (λ x, bool_decide (key x = k)) l ∧ g ≠ [].
Proof.
  revert k g. induction l as [|x l IH]; intros k g Hin.
  - inversion Hin.
  - cbn [group_by] in Hin. cbn [List.filter].
    destruct (decide (key x ∈ (group_by key l).*1)) as [Hx|Hx].
    + apply list_elem_of_fmap in Hin as ([k' g'] & E & Hin').
      apply IH in Hin' as [-> Hne]. cbn [fst snd] in E.
      destruct (decide (k' = key x)) as [->|Hk]; injection E as -> ->.
      * rewrite bool_decide_eq_true_2 by reflexivity. split; [reflexivity|].
        discriminate.
      * rewrite bool_decide_eq_false_2 by congruence. split; [reflexivity|].
        exact Hne.
    + apply elem_of_cons in Hin as [E|Hin].
      * injection E as -> ->.
        rewrite bool_decide_eq_true_2 by reflexivity. split; [|discriminate].
        f_equal. symmetry. apply filter_none, Forall_forall.
        intros y Hy. apply bool_decide_eq_false_2. intros E.
        apply Hx. rewrite <- E. apply group_by_keys, Hy.
      * assert (Hk : key x ≠ k).
        { intros <-. apply Hx. apply list_elem_of_fmap.
          exists (key x, g). split; [reflexivity|exact Hin]. }
        rewrite bool_decide_eq_false_2 by exact Hk.
        apply IH, Hin.
Qed.

(** Every key with a row has its group. *)
Lemma group_by_complete (l : list A) (y : A) :
  y ∈ l →
  (key y, List.filter (λ x, bool_decide (key x = key y)) l) ∈ group_by key l.
Proof.
  intros Hy. pose proof (group_by_keys l y Hy) as Hk.
  apply list_elem_of_fmap in Hk as ([k g] & E & Hin). cbn [fst] in E. subst k.
  destruct (group_by_rows l _ g Hin) as [<- _]. exact Hin.
Qed.

End group_by_facts.

Section group_by_keys_facts.

Context {K A : Type} `{EqDecision K} (key : A → K).

Lemma group_by_update_keys (x : A) (gs : list (K * list A)) :
  ((λ kg, if decide (kg.1 = key x) then (kg.1, x :: kg.2) else kg) <$> gs).*1
  = gs.*1.
Proof.
  rewrite <- list_fmap_compose. apply list_fmap_ext.
  intros _ [k g] _. simpl. destruct (decide (k = key x)); reflexivity.
Qed.

(** GROUP BY returns each key once. *)
Lemma group_by_NoDup (l : list A) : NoDup (group_by key l).*1.
Proof.
  induction l as [|x l IH]; cbn [group_by]; [constructor|].
  destruct (decide _) as [Hin|Hnotin].
  - rewrite group_by_update_keys. exact IH.
  - rewrite fmap_cons. apply NoDup_cons. split; assumption.
Qed.

Lemma group_by_keys_iff (l : list A) (k : K) :
  k ∈ (group_by key l).*1 ↔ k ∈ key <$> l.
Proof.
  split.
  - intros Hin. apply list_elem_of_fmap in Hin as ([k' g] & -> & Hin).
    destruct (group_by_rows key l k' g Hin) as [-> Hne]. cbn [fst].
    destruct (List.filter _ l) as [|y g'] eqn:E; [contradiction|].
    assert (Hy : y ∈ List.filter (λ x, bool_decide (key x = k')) l)
      by (rewrite E; apply elem_of_cons; left; reflexivity).
    apply elem_of_filter in Hy as [Hy Hk]. apply bool_decide_eq_true_1 in Hk.
    apply list_elem_of_fmap. exists y. split; [symmetry; exact Hk|exact Hy].
  - intros Hin. apply list_elem_of_fmap in Hin as (y & -> & Hy).
    apply group_by_keys, Hy.
Qed.

End group_by_keys_facts.

Lemma over_fst {A} (l : list A) : (λ w, w.1) <$> over l = l.
Proof.
  induction l as [|x l IH]; [reflexivity|].
  change (over (x :: l)) with ((x, head l) :: over l).
  rewrite fmap_cons, IH. reflexivity.
Qed.

Lemma over_lookup_inv {A} (l : list A) (i : nat) (w : A * option A) :
  over l !! i = Some w → l !! i = Some w.1 ∧ w.2 = l !! S i.
Proof.
  intros Hw.
  destruct (l !! i) as [a|] eqn:E.
  - rewrite (over_lookup l i a E) in Hw. injection Hw as <-.
    split; reflexivity.
  - apply lookup_ge_None in E. rewrite <- length_over in E.
    apply lookup_ge_None in E. congruence.
Qed.

Lemma sorted_adjacent {A} (R : relation A) (l : list A) (i : nat) (a b : A) :
  StronglySorted R l → l !! i = Some a → l !! S i = Some b → R a b.
Proof.
  intros Hs. revert i. induction Hs as [|x l Hl IH Hx]; intros i Ha Hb.
  - discriminate.
  - destruct i as [|i]; simpl in *.
    + injection Ha as <-. rewrite Forall_forall in Hx. apply Hx.
      eapply list_elem_of_lookup_2, Hb.
    + eapply IH; eassumption.
Qed.

(** In a sorted list an element at a smaller index is related to every
    element at a larger one. *)
Lemma sorted_lookup_lt {A} (R : relation A) (l : list A) (i j : nat)
    (a b : A) :
  StronglySorted R l → l !! i = Some a → l !! j = Some b → (i < j)%nat →
  R a b.
Proof.
  intros Hs. revert i j. induction Hs as [|x l Hl IH Hx]; intros i j Ha Hb Hij.
  - discriminate.
  - destruct j as [|j]; [lia|]. destruct i as [|i]; simpl in *.
    + injection Ha as <-. rewrite Forall_forall in Hx. apply Hx.
      eapply list_elem_of_lookup_2, Hb.
    + apply (IH i j); [assumption|assumption|lia].
Qed.

(** ** Aggregates *)

Lemma Pg_max_None (l : list (option Z)) :
  Pg.max l = None ↔ ∀ x, Some x ∉ l.
Proof.
  induction l as [|o l IH]; cbn [Pg.max].
  - split; [intros _ x H; inversion H|reflexivity].
  - destruct o as [v|]; cbn.
    + destruct (Pg.max l); split; try discriminate;
        intros H; exfalso; apply (H v); left.
    + rewrite IH. split.
      * intros H x Hx. apply elem_of_cons in Hx as [[=]|Hx]. exact (H x Hx).
      * intros H x Hx. apply (H x). right. exact Hx.
Qed.

Lemma Pg_max_Some (l : list (option Z)) (M : Z) :
  Pg.max l = Some M → Some M ∈ l ∧ ∀ x, Some x ∈ l → x ≤ M.
Proof.
  revert M. induction l as [|o l IH]; intros M; cbn [Pg.max]; [discriminate|].
  destruct o as [v|]; cbn.
  - destruct (Pg.max l) as [m|] eqn:E.
    + destruct (IH m eq_refl) as [Hm Hub]. intros [= <-]. split.
      * destruct (Z.leb_spec v m); [right; exact Hm|left].
      * intros x Hx. apply elem_of_cons in Hx as [[= ->]|Hx];
          [|apply Hub in Hx]; destruct (Z.leb_spec v m); lia.
    + intros [= <-]. split; [left|].
      intros x Hx. apply elem_of_cons in Hx as [[= ->]|Hx]; [lia|].
      exfalso. exact (proj1 (Pg_max_None l) E x Hx).
  - intros H. destruct (IH M H) as [HM Hub]. split; [right; exact HM|].
    intros x Hx. apply elem_of_cons in Hx as [[=]|Hx]. apply Hub, Hx.
Qed.

Lemma Pg_min_None (l : list (option Z)) :
  Pg.min l = None ↔ ∀ x, Some x ∉ l.
Proof.
  induction l as [|o l IH]; cbn [Pg.min].
  - split; [intros _ x H; inversion H|reflexivity].
  - destruct o as [v|]; cbn.
    + destruct (Pg.min l); split; try discriminate;
        intros H; exfalso; apply (H v); left.
    + rewrite IH. split.
      * intros H x Hx. apply elem_of_cons in Hx as [[=]|Hx]. exact (H x Hx).
      * intros H x Hx. apply (H x). right. exact Hx.
Qed.

Lemma Pg_min_Some (l : list (option Z)) (m : Z) :
  Pg.min l = Some m → Some m ∈ l ∧ ∀ x, Some x ∈ l → m ≤ x.
Proof.
  revert m. induction l as [|o l IH]; intros m; cbn [Pg.min]; [discriminate|].
  destruct o as [v|]; cbn.
  - destruct (Pg.min l) as [m'|] eqn:E.
    + destruct (IH m' eq_refl) as [Hm Hlb]. intros [= <-]. split.
      * destruct (Z.leb_spec v m'); [left|right; exact Hm].
      * intros x Hx. apply elem_of_cons in Hx as [[= ->]|Hx];
          [|apply Hlb in Hx]; destruct (Z.leb_spec v m'); lia.
    + intros [= <-]. split; [left|].
      intros x Hx. apply elem_of_cons in Hx as [[= ->]|Hx]; [lia|].
      exfalso. exact (proj1 (Pg_min_None l) E x Hx).
  - intros H. destruct (IH m H) as [HM Hlb]. split; [right; exact HM|].
    intros x Hx. apply elem_of_cons in Hx as [[=]|Hx]. apply Hlb, Hx.
Qed.

(** [min] is the least value of the group, [max] the greatest. *)
Lemma Pg_min_iff (l : list (option Z)) (m : Z) :
  Pg.min l = Some m ↔ Some m ∈ l ∧ ∀ x, Some x ∈ l → m ≤ x.
Proof.
  split; [apply Pg_min_Some|]. intros [Hm Hlb].
  destruct (Pg.min l) as [m'|] eqn:E.
  - apply Pg_min_Some in E as [Hm' Hlb']. f_equal.
    apply Z.le_antisymm; [apply Hlb', Hm|apply Hlb, Hm'].
  - exfalso. exact (proj1 (Pg_min_None l) E m Hm).
Qed.

Lemma Pg_max_iff (l : list (option Z)) (M : Z) :
  Pg.max l = Some M ↔ Some M ∈ l ∧ ∀ x, Some x ∈ l → x ≤ M.
Proof.
  split; [apply Pg_max_Some|]. intros [HM Hub].
  destruct (Pg.max l) as [M'|] eqn:E.
  - apply Pg_max_Some in E as [HM' Hub']. f_equal.
    apply Z.le_antisymm; [apply Hub, HM'|apply Hub', HM].
  - exfalso. exact (proj1 (Pg_max_None l) E M HM).
Qed.

(** ** The delta step *)

(** Without two rows at one timestamp, the windows are the rows in [ts]
    order, each with the next one. *)
Lemma windows_distinct (rows : list Snapshot) :
  NoDup (ts <$> rows) →
  windows rows = over ((λ r, (ts r, [r])) <$> order_by ts rows).
Proof.
  intros Hnd. unfold windows. rewrite (group_by_distinct ts rows Hnd).
  rewrite (order_by_fmap _ ts fst); reflexivity.
Qed.

Lemma greatest_floor (x : option Z) (minval : Z) :
  ∃ z, greatest x (Some minval) = Some z ∧ minval ≤ z.
Proof.
  destruct x as [x|]; simpl.
  - eexists; split; [reflexivity|]. destruct (Z.leb_spec x minval); lia.
  - exists minval. split; [reflexivity|lia].
Qed.

Lemma greatest_reset (a b minval : Z) :
  0 ≤ minval → b < a →
  greatest (minus (Some b) (Some a)) (Some minval) = Some minval.
Proof.
  intros Hm Hlt. simpl. destruct (Z.leb_spec (b - a) minval); [reflexivity|lia].
Qed.

(** C1. Every delta of the delta step is at least its floor, hence never
    negative for the floors [0] and ['0 s'] used by
    [powa_getstatdata_sample]; and where the counter drops from one point to
    the next, the delta is exactly the floor. *)
Theorem delta_never_negative (rows : list Snapshot) :
  Forall
    (λ r, (∃ i, s_mesure_interval r = Some i ∧ 0 ≤ i)
          ∧ Forall (λ lv, ∃ z, lv.2 = Some z ∧ 0 ≤ z) (s_cols r))
    (powa_getstatdata_sample rows)
  ∧ (∀ var minval w,
       (∃ z, Biggest var minval w = Some z ∧ minval ≤ z)
       ∧ (∃ z, Biggestsum var minval w = Some z ∧ minval ≤ z))
  ∧ (∀ var minval w a b,
       0 ≤ minval →
       sum_column var w.1 = Some a →
       lead (sum_column var) w = Some b →
       b < a →
       Biggestsum var minval w = Some minval)
  ∧ (∀ i w var label a b,
       windows rows !! i = Some w →
       (var, label) ∈ stat_columns →
       sum_column var w.1 = Some a →
       lead (sum_column var) w = Some b →
       b < a →
       ∃ r, powa_getstatdata_sample rows !! i = Some r
            ∧ (label, Some 0) ∈ s_cols r)
  ∧ (∀ var minval w a b,
       0 ≤ minval →
       group_column var w.1 = Some a →
       lead (group_column var) w = Some b →
       b < a →
       Biggest var minval w = Some minval).
Proof.
  split; [|split; [|split; [|split]]].
  - unfold powa_getstatdata_sample. rewrite Forall_fmap. apply Forall_forall.
    intros w _. cbn [s_mesure_interval s_cols compose].
    split; [apply greatest_floor|].
    rewrite Forall_fmap. apply Forall_forall. intros vl _.
    apply greatest_floor.
  - intros var minval w. split; apply greatest_floor.
  - intros var minval w a b Hm Ha Hb Hlt. unfold Biggestsum.
    rewrite Ha, Hb. apply greatest_reset; assumption.
  - intros i w var label a b Hw Hin Ha Hb Hlt.
    unfold powa_getstatdata_sample. rewrite list_lookup_fmap, Hw.
    eexists. split; [reflexivity|]. cbn [s_cols].
    apply list_elem_of_fmap. exists (var, label). split; [|exact Hin].
    cbn [fst snd]. f_equal. unfold Biggestsum.
    rewrite Ha, Hb. symmetry. apply greatest_reset; [lia|assumption].
  - intros var minval w a b Hm Ha Hb Hlt. unfold Biggest.
    rewrite Ha, Hb. apply greatest_reset; assumption.
Qed.

(** Scenario B of the spec: counters 100 then 20. *)
Lemma delta_never_negative_witness :
  (c "calls" <$> powa_getstatdata_sample [snap 0 100; snap 10 20])
  = [Some 0; Some 0]
  ∧ Biggestsum "calls" 0 ((0, [snap 0 100]), Some (10, [snap 10 20])) = Some 0.
Proof.
  split; [vm_compute; reflexivity|].
  apply (proj1 (proj2 (proj2 (delta_never_negative [snap 0 100; snap 10 20])))
           "calls"%string 0 ((0, [snap 0 100]), Some (10, [snap 10 20])) 100 20);
    [lia|reflexivity|reflexivity|lia].
Defined.

Lemma sum_singleton (x : option Z) : Pg.sum [x] = x.
Proof. destruct x; reflexivity. Qed.

Lemma sample_row_of_window (a : Snapshot) (b : option Snapshot) :
  (let w := ((ts a, [a]), (λ r, (ts r, [r])) <$> b) in
   {| s_ts := w.1.1;
      s_mesure_interval := Biggest "ts" 0 w;
      s_cols := (λ vl, (vl.2, Biggestsum vl.1 0 w)) <$> stat_columns |})
  = delta_row a b.
Proof.
  unfold delta_row. cbn zeta. f_equal.
  - destruct b; reflexivity.
  - apply list_fmap_ext. intros _ [var label] _. cbn [fst snd]. f_equal.
    unfold Biggestsum, lead, sum_column.
    destruct b as [b|];
      cbn [fmap option_fmap option_map mbind option_bind list_fmap fst snd];
      rewrite ?sum_singleton; reflexivity.
Qed.

(** Without two rows at one timestamp, the delta step maps the rows in [ts]
    order, each with its successor in that order. *)
Lemma getstatdata_sample_distinct (rows : list Snapshot) :
  NoDup (ts <$> rows) →
  powa_getstatdata_sample rows
  = (λ w, delta_row w.1 w.2) <$> over (order_by ts rows).
Proof.
  intros Hnd. unfold powa_getstatdata_sample.
  rewrite (windows_distinct rows Hnd).
  generalize (order_by ts rows) as l. intros l.
  induction l as [|a l IH]; [reflexivity|].
  rewrite fmap_cons. cbn [over]. rewrite !fmap_cons, IH. f_equal.
  destruct l as [|b l]; [apply (sample_row_of_window a None)|].
  apply (sample_row_of_window a (Some b)).
Qed.

Lemma sample_inv samples rows out :
  sample samples rows = Ok out →
  where_ (sample_cond samples) (numbered rows) = Ok out.
Proof.
  unfold sample. destruct (int4pl samples 1); [|discriminate].
  intros H. exact H.
Qed.

(** The rows kept by a WHERE clause are a sublist of its input. *)
Lemma where_sublist {A} (p : A → res bool) (rows out : list A) :
  where_ p rows = Ok out → out `sublist_of` rows.
Proof.
  revert out. induction rows as [|r rows IH]; simpl; intros out.
  - intros [= <-]. constructor.
  - destruct (p r) as [b|]; [|discriminate]. simpl.
    destruct (where_ p rows) as [kept|]; [|discriminate]. simpl.
    intros [= <-]. destruct b; constructor; apply IH; reflexivity.
Qed.

Lemma numbered_rows (rows : list Snapshot) :
  (λ r, r.2) <$> numbered rows = order_by ts rows.
Proof.
  unfold numbered. generalize (Z.of_nat (length rows)) as total.
  intros total. generalize (order_by ts rows) as l. intros l.
  rewrite fmap_imap. unfold compose. cbn [snd].
  induction l as [|x l IH] using rev_ind; [reflexivity|].
  rewrite imap_app. simpl. rewrite IH. reflexivity.
Qed.

(** The sample of a partition without two rows at one timestamp is in
    strictly increasing [ts] order. *)
Lemma sample_sorted samples rows by_db :
  NoDup (ts <$> rows) →
  sample samples rows = Ok by_db →
  StronglySorted (λ a b, ts a < ts b) ((λ r, r.2) <$> by_db).
Proof.
  intros Hnd Hs. apply sample_inv, where_sublist in Hs.
  apply (sorted_sublist _ _ ((λ r, r.2) <$> numbered rows)).
  - apply fmap_sublist, Hs.
  - rewrite numbered_rows. apply order_by_strict, Hnd.
Qed.

(** At the level of [BASE_QUERY_SAMPLE_DB]: for a valid window and a budget
    [samples >= 0], the rows joined to a database are at most
    [2 * samples + 1], and none for a database of another server. *)
Lemma BASE_QUERY_SAMPLE_DB_cardinality
    (st : Store) (server from to samples : Z) (d : powa_databases_row) :
  from ≤ to → 0 ≤ samples → samples < 2147483647 →
  ∃ by_db, BASE_QUERY_SAMPLE_DB st server from to samples d = Ok by_db
           ∧ Z.of_nat (length by_db) ≤ 2 * samples + 1
           ∧ (d_srvid d ≠ server → by_db = []).
Proof.
  intros Hle HK Hmax. unfold BASE_QUERY_SAMPLE_DB, tstzrange_closed.
  destruct (Z.ltb_spec to from); [lia|]. cbn [mbind res_bind].
  set (rows := (λ r, r.2) <$> statements_history_db st server _ d).
  pose proof (stride_Ok samples (Z.of_nat (length rows)) ltac:(lia) ltac:(lia))
    as Hst.
  destruct (sample_length _ _ _ Hst) as (out & Hout & Hlen).
  rewrite Hout. cbn [mbind res_bind]. eexists. split; [reflexivity|].
  pose proof (kept_rows_bound samples (Z.of_nat (length rows)) HK ltac:(lia)).
  destruct (Z.eqb_spec (d_srvid d) server) as [E|E].
  - rewrite filter_true. split; [lia|]. intros Hd. contradiction.
  - rewrite filter_false. simpl. split; [lia|]. reflexivity.
Qed.

(** C3, as stated, fails: with [samples = 100] and 202 rows the stride is 2;
    the first retained row is the one at [ts = 2] ([calls = 4]) and its delta
    is taken against the next retained row, at [ts = 4] ([calls = 16]), not
    against the row at [ts = 3] ([calls = 9]) that follows it in the
    unsampled partition. *)
Lemma sampled_delta_skips_raw_successor :
  ∃ by_db r,
    sample 100 (ramp 202) = Ok by_db
    ∧ powa_getstatdata_sample ((λ r, r.2) <$> by_db) !! 0%nat = Some r
    ∧ s_ts r = 2
    ∧ c "calls" r = Some 12
    ∧ delta_to_raw_successor "calls" (ramp 202) 2 = Some (Some 5)
    ∧ Some (c "calls" r) ≠ delta_to_raw_successor "calls" (ramp 202) (s_ts r).
Proof.
  eexists. eexists.
  split; [vm_compute; reflexivity|].
  split; [vm_compute; reflexivity|].
  split; [reflexivity|].
  split; [reflexivity|].
  split; [vm_compute; reflexivity|].
  vm_compute. discriminate.
Qed.

(** The label of a differenced counter reads the delta of that counter. *)
Lemma c_window_row (var label : string) (t : Z) (interval : option Z)
    (f : string → option Z) :
  (var, label) ∈ stat_columns →
  c label {| s_ts := t;
             s_mesure_interval := interval;
             s_cols := (λ vl, (vl.2, f vl.1)) <$> stat_columns |}
  = f var.
Proof.
  unfold stat_columns. intros Hin.
  repeat (apply elem_of_cons in Hin as [Hin|Hin];
          [injection Hin as -> ->; reflexivity|]).
  inversion Hin.
Qed.

(** The groups of the window of the delta step: one per timestamp, in
    strictly increasing order, each holding the rows of its timestamp. *)
Lemma window_groups (rows : list Snapshot) :
  let groups := order_by fst (group_by ts rows) in
  windows rows = over groups
  ∧ StronglySorted (λ a b : grouped, a.1 < b.1) groups
  ∧ (∀ g, g ∈ groups →
          g.2 = List.filter (λ r, bool_decide (ts r = g.1)) rows)
  ∧ (∀ a, a ∈ rows → ∃ j g, groups !! j = Some g ∧ g.1 = ts a).
Proof.
  intros groups. split; [reflexivity|]. split; [|split].
  - apply order_by_strict, group_by_NoDup.
  - intros [t g] Hg. unfold groups in Hg. rewrite order_by_perm in Hg.
    apply (group_by_rows ts rows t g Hg).
  - intros a Ha.
    assert (Hk : ts a ∈ groups.*1).
    { unfold groups. rewrite order_by_perm. apply group_by_keys_iff.
      apply list_elem_of_fmap. exists a. split; [reflexivity|exact Ha]. }
    apply list_elem_of_fmap in Hk as (g & E & Hg).
    apply list_elem_of_lookup_1 in Hg as (j & Hj).
    exists j, g. split; [exact Hj|symmetry; exact E].
Qed.

(** C3, amended. The delta of a retained row is taken against the retained
    rows at the next retained timestamp: the delta step runs on the sample,
    sums the counters of the retained rows that share a timestamp, and
    differences each timestamp against the next one that was retained.
    Without two rows at one timestamp, that is the next retained row. *)
Theorem sampled_delta_to_next_retained
    (samples : Z) (rows : list Snapshot) (by_db : list (Z * Z * Snapshot)) :
  sample samples rows = Ok by_db →
  let retained := (λ r, r.2) <$> by_db in
  let at_ts (t : Z) := List.filter (λ r, bool_decide (ts r = t)) retained in
  let series := powa_getstatdata_sample retained in
  (∀ a, a ∈ retained → a ∈ rows)
  ∧ (∀ t, t ∈ s_ts <$> series ↔ t ∈ ts <$> retained)
  ∧ (∀ i r,
       series !! i = Some r →
       match series !! S i with
       | Some next =>
           s_ts r < s_ts next
           ∧ (∀ a, a ∈ retained → ts a ≤ s_ts r ∨ s_ts next ≤ ts a)
           ∧ s_mesure_interval r = Some (s_ts next - s_ts r)
           ∧ (∀ var label,
                (var, label) ∈ stat_columns →
                c label r
                = greatest
                    (minus (Pg.sum (column var <$> at_ts (s_ts next)))
                           (Pg.sum (column var <$> at_ts (s_ts r))))
                    (Some 0))
       | None => ∀ a, a ∈ retained → ts a ≤ s_ts r
       end)
  ∧ (NoDup (ts <$> rows) →
     ∀ i a,
       by_db !! i = Some a →
       series !! i = Some (delta_row a.2 ((λ r, r.2) <$> by_db !! S i))).
Proof.
  intros Hs retained at_ts series.
  split; [|split; [|split]].
  - intros a Ha.
    pose proof (where_sublist _ _ _ (sample_inv _ _ _ Hs)) as Hsub.
    apply (fmap_sublist (λ r : Z * Z * Snapshot, r.2)) in Hsub.
    rewrite numbered_rows in Hsub.
    rewrite <- (order_by_perm ts rows).
    apply (sublist_submseteq _ _) in Hsub.
    eapply elem_of_submseteq; [exact Ha|exact Hsub].
  - intros t. unfold series, powa_getstatdata_sample, windows.
    rewrite <- list_fmap_compose.
    replace ((s_ts ∘ _) <$> over (order_by fst (group_by ts retained)))
      with (fst <$> order_by fst (group_by ts retained)).
    + rewrite order_by_perm. apply group_by_keys_iff.
    + rewrite <- (over_fst (order_by fst (group_by ts retained))) at 1.
      rewrite <- list_fmap_compose. reflexivity.
  - intros i r Hr.
    destruct (window_groups retained) as (Hw & Hsorted & Hrows & Hidx).
    set (groups := order_by fst (group_by ts retained)) in *.
    unfold series, powa_getstatdata_sample in *. rewrite Hw in *.
    rewrite list_lookup_fmap in Hr. rewrite list_lookup_fmap.
    destruct (over groups !! i) as [w|] eqn:Ew; [|discriminate].
    injection Hr as <-.
    apply over_lookup_inv in Ew as [Eg Enext].
    destruct w as [g nxt]. cbn [fst snd] in *. subst nxt.
    destruct (groups !! S i) as [g'|] eqn:Eg'.
    + rewrite (over_lookup _ _ _ Eg'). cbn [fmap option_fmap option_map].
      cbn [s_ts s_mesure_interval fst snd].
      pose proof (sorted_adjacent _ _ _ _ _ Hsorted Eg Eg') as Hlt.
      cbn beta in Hlt.
      split; [exact Hlt|]. split; [|split].
      * intros a Ha. destruct (Hidx a Ha) as (j & ga & Hj & <-).
        destruct (Nat.lt_trichotomy j i) as [Hji|[->|Hji]].
        -- left. pose proof (sorted_lookup_lt _ _ _ _ _ _ Hsorted Hj Eg Hji).
           cbn beta in *. lia.
        -- left. rewrite Eg in Hj. injection Hj as <-. lia.
        -- right. destruct (decide (j = S i)) as [->|Hne].
           ++ rewrite Eg' in Hj. injection Hj as <-. lia.
           ++ pose proof (sorted_lookup_lt _ _ _ _ _ _ Hsorted Eg' Hj
                            ltac:(lia)).
              cbn beta in *. lia.
      * unfold Biggest, lead, group_column.
        cbn [String.eqb Ascii.eqb Bool.eqb mbind option_bind fst snd minus
             greatest greatest_by].
        destruct (Z.leb_spec (g'.1 - g.1) 0); [lia|reflexivity].
      * intros var label Hin.
        etransitivity;
          [apply (c_window_row var label g.1 _
                    (λ v, Biggestsum v 0 (g, Some g')) Hin)|].
        unfold Biggestsum, lead, sum_column. cbn [mbind option_bind fst snd].
        rewrite (Hrows g) by (eapply list_elem_of_lookup_2, Eg).
        rewrite (Hrows g') by (eapply list_elem_of_lookup_2, Eg').
        reflexivity.
    + assert (Hnone : over groups !! S i = None).
      { apply lookup_ge_None. rewrite length_over.
        apply lookup_ge_None, Eg'. }
      rewrite Hnone. cbn [fmap option_fmap option_map s_ts fst].
      intros a Ha. destruct (Hidx a Ha) as (j & ga & Hj & <-).
      apply lookup_ge_None in Eg'.
      pose proof (lookup_lt_Some _ _ _ Hj) as Hjl.
      destruct (decide (j = i)) as [->|Hne].
      * rewrite Eg in Hj. injection Hj as <-. lia.
      * pose proof (sorted_lookup_lt _ _ _ _ _ _ Hsorted Hj Eg ltac:(lia)).
        cbn beta in *. lia.
  - intros Hnd i a Ha.
    pose proof (sample_sorted _ _ _ Hnd Hs) as Hsorted.
    unfold series, retained.
    rewrite getstatdata_sample_distinct
      by (apply strict_sorted_NoDup, Hsorted).
    rewrite order_by_id by (apply strict_sorted_weak, Hsorted).
    rewrite list_lookup_fmap.
    rewrite (over_lookup _ i a.2) by (rewrite list_lookup_fmap, Ha; reflexivity).
    cbn [fmap option_fmap option_map fst snd]. rewrite list_lookup_fmap.
    reflexivity.
Qed.

(** Two rows at [ts = 0] and one at [ts = 10], all retained: the delta at
    [ts = 0] is the sum at [ts = 10] minus the sum at [ts = 0]. *)
Lemma sampled_delta_to_next_retained_witness :
  sample 100 [snap 0 1; snap 0 2; snap 10 10]
  = Ok [(1, 3, snap 0 1); (2, 3, snap 0 2); (3, 3, snap 10 10)]
  ∧ ∀ r next,
      powa_getstatdata_sample [snap 0 1; snap 0 2; snap 10 10] !! 0%nat
      = Some r →
      powa_getstatdata_sample [snap 0 1; snap 0 2; snap 10 10] !! 1%nat
      = Some next →
      s_ts r = 0 ∧ s_ts next = 10
      ∧ s_mesure_interval r = Some (s_ts next - s_ts r)
      ∧ c "calls" r = Some 7.
Proof.
  assert (Hs : sample 100 [snap 0 1; snap 0 2; snap 10 10]
               = Ok [(1, 3, snap 0 1); (2, 3, snap 0 2); (3, 3, snap 10 10)])
    by (vm_compute; reflexivity).
  split; [exact Hs|].
  intros r next Hr Hnext.
  pose proof (proj1 (proj2 (proj2
    (sampled_delta_to_next_retained 100 _ _ Hs))) 0%nat r Hr) as H.
  cbn zeta in H.
  change (((λ r : Z * Z * Snapshot, r.2) <$>
           [(1, 3, snap 0 1); (2, 3, snap 0 2); (3, 3, snap 10 10)]))
    with [snap 0 1; snap 0 2; snap 10 10] in H.
  rewrite Hnext in H. destruct H as (_ & _ & Hi & Hc).
  assert (E0 : s_ts r = 0) by (vm_compute in Hr; injection Hr as <-; reflexivity).
  assert (E1 : s_ts next = 10)
    by (vm_compute in Hnext; injection Hnext as <-; reflexivity).
  split; [exact E0|]. split; [exact E1|]. split; [exact Hi|].
  rewrite (Hc "calls"%string "calls"%string) by by_decide.
  rewrite E0, E1. vm_compute. reflexivity.
Defined.

(** C4. The code keeps the point that has no successor. The five points of
    scenario A give five rows, not four: [lead] is NULL on the last point,
    [greatest] ignores the NULL, and the row comes out with a zero interval
    and zero deltas. Its [calls] is 0, not NULL, and the filter
    [.where(c.calls is not None)] of the callers keeps every row. *)
Theorem delta_series_keeps_last_point :
  NoDup (ts <$> five_points)
  ∧ length five_points = 5%nat
  ∧ length (powa_getstatdata_sample five_points) ≠ (5 - 1)%nat
  ∧ (λ r, (s_ts r, s_mesure_interval r, c "calls" r))
    <$> powa_getstatdata_sample five_points
    = [(0, Some 10, Some 10); (10, Some 10, Some 20); (20, Some 10, Some 0);
       (30, Some 10, Some 30); (40, Some 0, Some 0)]
  ∧ where_calls_is_not_None (powa_getstatdata_sample five_points)
    = powa_getstatdata_sample five_points
  ∧ length (where_calls_is_not_None (powa_getstatdata_sample five_points))
    = 5%nat.
Proof.
  split; [by_decide|].
  split; [reflexivity|].
  split; [vm_compute; discriminate|].
  split; [vm_compute; reflexivity|].
  split; [apply filter_true|].
  vm_compute. reflexivity.
Qed.

(** The same on every partition without two rows at one timestamp: the delta
    step returns one row per input row; a row that has a successor in [ts]
    order is differenced against it, and the last row comes out with every
    delta at its floor. *)
Lemma delta_series_cardinality (rows : list Snapshot) :
  NoDup (ts <$> rows) →
  length (powa_getstatdata_sample rows) = length rows
  ∧ (∀ i a b,
       order_by ts rows !! i = Some a →
       order_by ts rows !! S i = Some b →
       powa_getstatdata_sample rows !! i = Some (delta_row a (Some b)))
  ∧ (∀ a,
       last (order_by ts rows) = Some a →
       last (powa_getstatdata_sample rows) = Some (delta_row a None)
       ∧ s_mesure_interval (delta_row a None) = Some 0
       ∧ Forall (λ lv, lv.2 = Some 0) (s_cols (delta_row a None))).
Proof.
  intros Hnd. rewrite (getstatdata_sample_distinct rows Hnd).
  split; [|split].
  - rewrite length_fmap, length_over. apply length_order_by.
  - intros i a b Ha Hb. rewrite list_lookup_fmap, (over_lookup _ i a Ha), Hb.
    reflexivity.
  - intros a Ha. split; [|split].
    + rewrite fmap_last, (over_last _ a Ha). reflexivity.
    + reflexivity.
    + unfold delta_row. cbn [s_cols]. rewrite Forall_fmap.
      apply Forall_forall. intros vl _. reflexivity.
Qed.

(** ** Tier stitching *)

(** A timestamp inside a range and inside the window makes them overlap. *)
Lemma contains_overlaps (r w : tstzrange) (t : Z) :
  contains r t = true → contains w t = true → overlaps r w = true.
Proof.
  unfold contains, overlaps, isempty.
  destruct r as [rl ru rli rui], w as [wl wu wli wui]; simpl.
  intros H1 H2.
  apply andb_prop in H1 as [H1a H1b]. apply andb_prop in H2 as [H2a H2b].
  destruct rli, rui, wli, wui; simpl;
    repeat match goal with
           | H : (_ <=? _) = true |- _ => apply Z.leb_le in H
           | H : (_ <? _) = true |- _ => apply Z.ltb_lt in H
           end;
    repeat match goal with
           | |- context [?a <? ?b] => destruct (Z.ltb_spec a b)
           | |- context [?a =? ?b] => destruct (Z.eqb_spec a b)
           end; simpl; try reflexivity; lia.
Qed.

Lemma filter_bind_none {A B} (P : B → bool) (mk : A → B) (l : list A) :
  Forall (λ x, P (mk x) = false) l →
  List.filter P (l ≫= λ x, [mk x]) = [].
Proof.
  induction 1 as [|x l Hx _ IH]; [reflexivity|].
  rewrite bind_cons. simpl. rewrite Hx. exact IH.
Qed.

(** A pre-filter that only drops rows contributing nothing to the filtered
    result can be left out. *)
Lemma filter_bind_prefilter {A B} (f f' pre : A → bool) (P : B → bool)
    (g : A → list B) (l : list A) :
  (∀ x, f x = pre x && f' x) →
  Forall (λ x, pre x = false → List.filter P (g x) = []) l →
  List.filter P (List.filter f l ≫= g) = List.filter P (List.filter f' l ≫= g).
Proof.
  intros Hf. induction 1 as [|x l Hx _ IH]; [reflexivity|].
  cbn [List.filter]. rewrite Hf.
  destruct (pre x) eqn:Hpre; destruct (f' x); cbn [andb].
  - rewrite !bind_cons, !List.filter_app, IH. reflexivity.
  - exact IH.
  - rewrite bind_cons, List.filter_app, (Hx eq_refl), IH. reflexivity.
  - exact IH.
Qed.

Lemma tstzrange_closed_Ok (from to : Z) :
  from ≤ to → tstzrange_closed from to = Ok (mkrange from to true true).
Proof.
  intros H. unfold tstzrange_closed.
  destruct (Z.ltb_spec to from); [lia|reflexivity].
Qed.

Lemma contains_closed (from to t : Z) :
  contains (mkrange from to true true) t = true ↔ from ≤ t ≤ to.
Proof. unfold contains. simpl. rewrite andb_true_iff, !Z.leb_le. tauto. Qed.

Lemma detailed_db_h_stored st server w d :
  records_in_range st →
  powa_base_statdata_detailed_db_h st server w d = stored_in_window st server w d.
Proof.
  intros Hinv. unfold powa_base_statdata_detailed_db_h, stored_in_window.
  f_equal.
  apply (filter_bind_prefilter _ _ (λ psh, overlaps (psh_coalesce_range psh) w)).
  - intros psh. rewrite !andb_assoc. reflexivity.
  - eapply Forall_impl; [exact Hinv|].
    intros psh Hpsh Hov. cbn beta in *.
    apply (filter_bind_none _ (Build_detailed_row _ _ _)).
    eapply Forall_impl; [exact Hpsh|].
    intros r Hr. cbn beta in *. cbn [h_record].
    destruct (contains w (ts r)) eqn:Hw; [|reflexivity].
    rewrite (contains_overlaps _ _ _ Hr Hw) in Hov. discriminate.
Qed.

(** C6, as stated, fails on [powa_base_statdata_db]. With three coalesced
    ranges in the window, the records of the inner one (here the snapshot at
    [ts = 15]) are not returned; with a single closed range, which contains
    both [min_ts] and [max_ts], its records are returned twice. *)
Lemma statdata_db_misses_and_repeats :
  (snap 15 2 ∈ (powa_statements_history_db three_ranges ≫= dbh_records)
   ∧ contains (mkrange 0 30 true true) (ts (snap 15 2)) = true
   ∧ powa_base_statdata_db three_ranges 1 0 30
     = Ok [(1, 1, snap 5 1); (1, 1, snap 25 3)]
   ∧ snap 15 2 ∉ powa_base_statdata_db_h three_ranges 1
                    (mkrange 0 30 true true) db1)
  ∧ (powa_base_statdata_db one_range 1 0 30
     = Ok [(1, 1, snap 5 1); (1, 1, snap 5 1)]
     ∧ ¬ NoDup (powa_base_statdata_db_h one_range 1
                  (mkrange 0 30 true true) db1)).
Proof.
  split; [split; [|split; [|split]]|split].
  - by_decide.
  - reflexivity.
  - vm_compute. reflexivity.
  - by_decide.
  - vm_compute. reflexivity.
  - by_decide.
Qed.

(** The records of the ranges selected by a conjunction [p && q], kept
    when they pass [P], are those of the ranges selected by [q], kept when
    both [p] and [P] hold. *)
Lemma filter_bind_cond {A B} (f p q : A → bool) (P : B → bool)
    (g : A → list B) (l : list A) :
  (∀ x, f x = p x && q x) →
  List.filter P (List.filter f l ≫= g)
  = List.filter q l ≫= (λ x, if p x then List.filter P (g x) else []).
Proof.
  intros Hf. induction l as [|x l IH]; [reflexivity|].
  cbn [List.filter]. rewrite Hf.
  destruct (q x); [rewrite (bind_cons _ x (List.filter q l))|];
    destruct (p x); cbn [andb].
  - rewrite bind_cons, List.filter_app, IH. reflexivity.
  - exact IH.
  - exact IH.
  - exact IH.
Qed.

Lemma bind_app_perm {A B} (f g : A → list B) (l : list A) :
  (l ≫= f) ++ (l ≫= g) ≡ₚ l ≫= (λ x, f x ++ g x).
Proof.
  induction l as [|x l IH]; [reflexivity|].
  rewrite !bind_cons, <- IH.
  rewrite <- !app_assoc. apply Permutation_app_head.
  rewrite !app_assoc. apply Permutation_app_tail.
  apply Permutation_app_comm.
Qed.

Lemma count_elem {A} `{EqDecision A} (x : A) (l : list A) :
  x ∈ l → (1 ≤ length (List.filter (λ y, bool_decide (y = x)) l))%nat.
Proof.
  induction l as [|y l IH]; intros Hin; [inversion Hin|].
  cbn [List.filter]. apply elem_of_cons in Hin as [->|Hin].
  - rewrite bool_decide_eq_true_2 by reflexivity. simpl. lia.
  - specialize (IH Hin). destruct (bool_decide (y = x)); simpl; lia.
Qed.

(** A bound below the range, or above it, is not in the range. *)
Lemma contains_outside (r : tstzrange) (t : Z) :
  t < lower r ∨ upper r < t → contains r t = false.
Proof.
  unfold contains. intros H.
  destruct (lower_inc r), (upper_inc r);
    repeat match goal with
           | |- context [?a <=? ?b] => destruct (Z.leb_spec a b)
           | |- context [?a <? ?b] => destruct (Z.ltb_spec a b)
           end; simpl; try reflexivity; lia.
Qed.

Lemma overlaps_nonempty (r w : tstzrange) :
  overlaps r w = true → lower r ≤ upper r.
Proof.
  unfold overlaps, isempty. intros H.
  apply andb_prop in H as [H _]. apply andb_prop in H as [H _].
  apply andb_prop in H as [H _]. apply negb_true_iff in H.
  apply orb_false_elim in H as [H _]. apply Z.ltb_ge in H. exact H.
Qed.

(** What [unnested1] and [unnested2] return. *)
Lemma elem_of_unnested_at st server from to d bound r :
  r ∈ unnested_at st server (mkrange from to true true) d bound ↔
  from ≤ ts r ≤ to
  ∧ ∃ dbh, dbh ∈ powa_statements_history_db st ∧ r ∈ dbh_records dbh
           ∧ dbh_dbid dbh = d_oid d ∧ dbh_srvid dbh = server
           ∧ contains_bound (dbh_coalesce_range dbh) bound = true.
Proof.
  unfold unnested_at.
  rewrite elem_of_filter, list_elem_of_bind, (contains_closed from to).
  split.
  - intros [(dbh & Hr & Hdbh) Hw]. split; [exact Hw|].
    apply elem_of_filter in Hdbh as [Hdbh Hc].
    rewrite !andb_true_iff, !Z.eqb_eq in Hc.
    exists dbh. tauto.
  - intros [Hw (dbh & Hdbh & Hr & H1 & H2 & H3)]. split; [|exact Hw].
    exists dbh. split; [exact Hr|].
    apply elem_of_filter. split; [exact Hdbh|].
    rewrite !andb_true_iff, !Z.eqb_eq. tauto.
Qed.

(** [min_ts] is the lowest lower bound, and [max_ts] the highest upper
    bound, of the coalesced ranges of the database that overlap the
    window. *)
Lemma ranges_bounds st server w d :
  let overlapping dbh :=
    dbh ∈ powa_statements_history_db st
    ∧ overlaps (dbh_coalesce_range dbh) w = true
    ∧ dbh_srvid dbh = server
    ∧ dbh_dbid dbh = d_oid d
    ∧ dbh_srvid dbh = d_srvid d in
  (∀ m, min_ts (ranges st server w d) = Some m ↔
        (∃ dbh, overlapping dbh ∧ lower (dbh_coalesce_range dbh) = m)
        ∧ ∀ dbh, overlapping dbh → m ≤ lower (dbh_coalesce_range dbh))
  ∧ (∀ M, max_ts (ranges st server w d) = Some M ↔
          (∃ dbh, overlapping dbh ∧ upper (dbh_coalesce_range dbh) = M)
          ∧ ∀ dbh, overlapping dbh → upper (dbh_coalesce_range dbh) ≤ M).
Proof.
  intros overlapping.
  assert (Hov : ∀ (f : tstzrange → Z) x,
            Some x ∈ (λ r, Some (f r)) <$> ranges st server w d ↔
            ∃ dbh, overlapping dbh ∧ f (dbh_coalesce_range dbh) = x).
  { intros f x. unfold ranges. rewrite <- list_fmap_compose.
    rewrite list_elem_of_fmap. unfold overlapping. split.
    - intros (dbh & [= ->] & Hin). apply elem_of_filter in Hin as [Hin Hc].
      rewrite !andb_true_iff, !Z.eqb_eq in Hc. exists dbh. tauto.
    - intros (dbh & (Hin & H1 & H2 & H3 & H4) & <-). exists dbh.
      split; [reflexivity|]. apply elem_of_filter. split; [exact Hin|].
      rewrite !andb_true_iff, !Z.eqb_eq. tauto. }
  split.
  - intros m. unfold min_ts. rewrite Pg_min_iff, (Hov lower). split.
    + intros [Hm Hlb]. split; [exact Hm|]. intros dbh Hdbh.
      apply Hlb, (Hov lower). exists dbh. split; [exact Hdbh|reflexivity].
    + intros [Hm Hlb]. split; [exact Hm|]. intros x Hx.
      apply (Hov lower) in Hx as (dbh & Hdbh & <-). apply Hlb, Hdbh.
  - intros M. unfold max_ts. rewrite Pg_max_iff, (Hov upper). split.
    + intros [HM Hub]. split; [exact HM|]. intros dbh Hdbh.
      apply Hub, (Hov upper). exists dbh. split; [exact Hdbh|reflexivity].
    + intros [HM Hub]. split; [exact HM|]. intros x Hx.
      apply (Hov upper) in Hx as (dbh & Hdbh & <-). apply Hub, Hdbh.
Qed.

(** C6, amended. For a window with [from <= to] and a store whose records
    lie inside their coalesced range, [powa_base_statdata_detailed_db]
    returns, for every database, the stored snapshots of the window from
    every coalesced range and from the current tail, one row per stored
    copy. [powa_base_statdata_db] reads the current tail and, of the
    coalesced ranges, only those that contain [min_ts], the lowest lower
    bound of the ranges of the database that overlap the window, or
    [max_ts], the highest upper bound: the records of a range that lie in
    the window are returned once for each of the two bounds the range
    contains. So a snapshot stored only in ranges strictly between the two
    bounds is not returned, and a snapshot of a range that contains both
    bounds, as a closed range that spans all the others does, is returned
    at least twice. *)
Theorem stitching_returns_stored_window
    (st : Store) (server from to : Z) :
  from ≤ to →
  records_in_range st →
  let w := mkrange from to true true in
  let overlapping d dbh :=
    dbh ∈ powa_statements_history_db st
    ∧ overlaps (dbh_coalesce_range dbh) w = true
    ∧ dbh_srvid dbh = server
    ∧ dbh_dbid dbh = d_oid d
    ∧ dbh_srvid dbh = d_srvid d in
  let current_tail d :=
    dbc_record <$>
      List.filter
        (λ dbc, contains w (ts (dbc_record dbc))
                && (dbc_dbid dbc =? d_oid d)
                && (dbc_srvid dbc =? d_srvid d)
                && (dbc_srvid dbc =? server))
        (powa_statements_history_current_db st) in
  (∀ t, contains w t = true ↔ from ≤ t ≤ to)
  ∧ powa_base_statdata_detailed_db st server from to
    = Ok (d ← powa_databases st;
          h ← stored_in_window st server w d;
          [(d, h)])
  ∧ (∀ d, powa_base_statdata_detailed_db_h st server w d
          = stored_in_window st server w d)
  ∧ (∀ d r,
       r ∈ powa_base_statdata_db_h st server w d ↔
       from ≤ ts r ≤ to
       ∧ ((∃ dbh, dbh ∈ powa_statements_history_db st
                  ∧ r ∈ dbh_records dbh
                  ∧ dbh_dbid dbh = d_oid d ∧ dbh_srvid dbh = server
                  ∧ (contains_bound (dbh_coalesce_range dbh)
                       (min_ts (ranges st server w d)) = true
                     ∨ contains_bound (dbh_coalesce_range dbh)
                         (max_ts (ranges st server w d)) = true))
          ∨ (∃ dbc, dbc ∈ powa_statements_history_current_db st
                    ∧ r = dbc_record dbc
                    ∧ dbc_dbid dbc = d_oid d ∧ dbc_srvid dbc = d_srvid d
                    ∧ dbc_srvid dbc = server)))
  ∧ (∀ d,
       (∀ m, min_ts (ranges st server w d) = Some m ↔
             (∃ dbh, overlapping d dbh ∧ lower (dbh_coalesce_range dbh) = m)
             ∧ ∀ dbh, overlapping d dbh → m ≤ lower (dbh_coalesce_range dbh))
       ∧ (∀ M, max_ts (ranges st server w d) = Some M ↔
               (∃ dbh, overlapping d dbh
                       ∧ upper (dbh_coalesce_range dbh) = M)
               ∧ ∀ dbh, overlapping d dbh →
                        upper (dbh_coalesce_range dbh) ≤ M))
  ∧ (∀ d,
       powa_base_statdata_db_h st server w d
       ≡ₚ (dbh ← List.filter
                   (λ dbh, (dbh_dbid dbh =? d_oid d)
                           && (dbh_srvid dbh =? server))
                   (powa_statements_history_db st);
           let in_window :=
             List.filter (λ r, contains w (ts r)) (dbh_records dbh) in
           (if contains_bound (dbh_coalesce_range dbh)
                 (min_ts (ranges st server w d))
            then in_window else [])
           ++ (if contains_bound (dbh_coalesce_range dbh)
                    (max_ts (ranges st server w d))
               then in_window else []))
          ++ current_tail d)
  ∧ (∀ d r m M,
       min_ts (ranges st server w d) = Some m →
       max_ts (ranges st server w d) = Some M →
       (∀ dbh, dbh ∈ powa_statements_history_db st →
               r ∈ dbh_records dbh →
               dbh_dbid dbh = d_oid d → dbh_srvid dbh = server →
               m < lower (dbh_coalesce_range dbh)
               ∧ upper (dbh_coalesce_range dbh) < M) →
       r ∉ current_tail d →
       r ∉ powa_base_statdata_db_h st server w d)
  ∧ (∀ d dbh,
       overlapping d dbh →
       lower_inc (dbh_coalesce_range dbh) = true →
       upper_inc (dbh_coalesce_range dbh) = true →
       (∀ dbh', overlapping d dbh' →
                lower (dbh_coalesce_range dbh)
                ≤ lower (dbh_coalesce_range dbh')
                ∧ upper (dbh_coalesce_range dbh')
                  ≤ upper (dbh_coalesce_range dbh)) →
       contains_bound (dbh_coalesce_range dbh)
         (min_ts (ranges st server w d)) = true
       ∧ contains_bound (dbh_coalesce_range dbh)
           (max_ts (ranges st server w d)) = true)
  ∧ (∀ d dbh r,
       dbh ∈ powa_statements_history_db st →
       dbh_dbid dbh = d_oid d → dbh_srvid dbh = server →
       r ∈ dbh_records dbh → from ≤ ts r ≤ to →
       contains_bound (dbh_coalesce_range dbh)
         (min_ts (ranges st server w d)) = true →
       contains_bound (dbh_coalesce_range dbh)
         (max_ts (ranges st server w d)) = true →
       (2 ≤ length (List.filter (λ x, bool_decide (x = r))
                      (powa_base_statdata_db_h st server w d)))%nat).
Proof.
  intros Hle Hinv w overlapping current_tail. subst w.
  set (w := mkrange from to true true) in *.
  assert (Hmem : ∀ d r,
       r ∈ powa_base_statdata_db_h st server w d ↔
       from ≤ ts r ≤ to
       ∧ ((∃ dbh, dbh ∈ powa_statements_history_db st
                  ∧ r ∈ dbh_records dbh
                  ∧ dbh_dbid dbh = d_oid d ∧ dbh_srvid dbh = server
                  ∧ (contains_bound (dbh_coalesce_range dbh)
                       (min_ts (ranges st server w d)) = true
                     ∨ contains_bound (dbh_coalesce_range dbh)
                         (max_ts (ranges st server w d)) = true))
          ∨ (∃ dbc, dbc ∈ powa_statements_history_current_db st
                    ∧ r = dbc_record dbc
                    ∧ dbc_dbid dbc = d_oid d ∧ dbc_srvid dbc = d_srvid d
                    ∧ dbc_srvid dbc = server))).
  { intros d r. unfold powa_base_statdata_db_h, w.
    rewrite !elem_of_app, !elem_of_unnested_at, list_elem_of_fmap.
    fold w.
    split.
    + intros [[Hw (dbh & H)]|[[Hw (dbh & H)]|(dbc & -> & Hdbc)]].
      * split; [exact Hw|]. left. exists dbh. tauto.
      * split; [exact Hw|]. left. exists dbh. tauto.
      * apply elem_of_filter in Hdbc as [Hdbc Hc].
        rewrite !andb_true_iff, !Z.eqb_eq in Hc.
        destruct Hc as [[[Hw H1] H2] H3].
        unfold w in Hw. apply (contains_closed from to) in Hw.
        split; [exact Hw|]. right. exists dbc. tauto.
    + intros [Hw [(dbh & H1 & H2 & H3 & H4 & [H5|H5])|(dbc & H1 & -> & H2)]].
      * left. split; [exact Hw|]. exists dbh. tauto.
      * right. left. split; [exact Hw|]. exists dbh. tauto.
      * right. right. exists dbc. split; [reflexivity|].
        apply elem_of_filter. split; [exact H1|].
        rewrite !andb_true_iff, !Z.eqb_eq. unfold w.
        apply (contains_closed from to) in Hw. tauto. }
  split; [intros t; apply contains_closed|].
  split; [|split; [|split; [exact Hmem|split; [|split; [|split; [|split]]]]]].
  - unfold powa_base_statdata_detailed_db.
    rewrite (tstzrange_closed_Ok _ _ Hle). cbn [mbind res_bind]. f_equal.
    apply list_bind_ext; [|reflexivity].
    intros d. rewrite (detailed_db_h_stored st server _ d Hinv).
    reflexivity.
  - intros d. apply detailed_db_h_stored, Hinv.
  - intros d. apply (ranges_bounds st server w d).
  - intros d. unfold powa_base_statdata_db_h. fold (current_tail d).
    rewrite app_assoc. apply Permutation_app_tail.
    unfold unnested_at.
    rewrite !(filter_bind_cond _
                (λ dbh, contains_bound (dbh_coalesce_range dbh) _)
                (λ dbh, (dbh_dbid dbh =? d_oid d)
                        && (dbh_srvid dbh =? server)))
      by (intros dbh; rewrite andb_assoc; reflexivity).
    apply bind_app_perm.
  - intros d r m M Hm HM Hinner Hcur Hin.
    apply Hmem in Hin as [Hw [(dbh & H1 & H2 & H3 & H4 & Hb)|Hc]].
    + destruct (Hinner dbh H1 H2 H3 H4) as [Hlo Hup].
      rewrite Hm, HM in Hb. cbn [contains_bound] in Hb.
      rewrite !contains_outside in Hb by lia. destruct Hb; discriminate.
    + destruct Hc as (dbc & H1 & -> & H2 & H3 & H4). apply Hcur.
      unfold current_tail. apply list_elem_of_fmap. exists dbc.
      split; [reflexivity|]. apply elem_of_filter. split; [exact H1|].
      rewrite !andb_true_iff, !Z.eqb_eq. unfold w.
      apply (contains_closed from to) in Hw. tauto.
  - intros d dbh Hov Hli Hui Hspan.
    destruct (ranges_bounds st server w d) as [Hmin Hmax].
    assert (Hne : lower (dbh_coalesce_range dbh)
                  ≤ upper (dbh_coalesce_range dbh)).
    { destruct Hov as (_ & Ho & _). apply (overlaps_nonempty _ _ Ho). }
    rewrite (proj2 (Hmin (lower (dbh_coalesce_range dbh)))).
    2:{ split; [exists dbh; split; [exact Hov|reflexivity]|].
        intros dbh' H'. apply (Hspan dbh' H'). }
    rewrite (proj2 (Hmax (upper (dbh_coalesce_range dbh)))).
    2:{ split; [exists dbh; split; [exact Hov|reflexivity]|].
        intros dbh' H'. apply (Hspan dbh' H'). }
    cbn [contains_bound]. unfold contains. rewrite Hli, Hui.
    rewrite !andb_true_iff, !Z.leb_le. lia.
  - intros d dbh r Hin Hdb Hsrv Hr Hw Hcmin Hcmax.
    unfold powa_base_statdata_db_h.
    rewrite !List.filter_app, !length_app.
    assert (H1 : r ∈ unnested_at st server w d (min_ts (ranges st server w d))).
    { apply elem_of_unnested_at. split; [exact Hw|]. exists dbh. tauto. }
    assert (H2 : r ∈ unnested_at st server w d (max_ts (ranges st server w d))).
    { apply elem_of_unnested_at. split; [exact Hw|]. exists dbh. tauto. }
    pose proof (count_elem r _ H1). pose proof (count_elem r _ H2). lia.
Qed.

(** The three ranges and the single range of the counterexample. *)
Lemma stitching_returns_stored_window_witness :
  0 ≤ 30
  ∧ records_in_range one_query
  ∧ powa_base_statdata_detailed_db one_query 1 0 30
    = Ok (d ← powa_databases one_query;
          h ← stored_in_window one_query 1 (mkrange 0 30 true true) d;
          [(d, h)])
  ∧ records_in_range three_ranges
  ∧ (snap 15 2 ∉ powa_base_statdata_db_h three_ranges 1
                   (mkrange 0 30 true true) db1)
  ∧ records_in_range one_range
  ∧ (2 ≤ length (List.filter (λ x, bool_decide (x = snap 5 1))
                   (powa_base_statdata_db_h one_range 1
                      (mkrange 0 30 true true) db1)))%nat.
Proof.
  assert (Hinv : records_in_range one_query).
  { unfold records_in_range. repeat constructor. }
  assert (Hinv3 : records_in_range three_ranges) by constructor.
  assert (Hinv1 : records_in_range one_range) by constructor.
  split; [lia|]. split; [exact Hinv|].
  split.
  { apply (stitching_returns_stored_window one_query 1 0 30 ltac:(lia) Hinv). }
  split; [exact Hinv3|]. split.
  { destruct (stitching_returns_stored_window three_ranges 1 0 30
                ltac:(lia) Hinv3)
      as (_ & _ & _ & _ & _ & _ & Hmiss & _).
    apply (Hmiss db1 (snap 15 2) 0 30); [reflexivity|reflexivity| |].
    - intros dbh Hdbh Hr _ _.
      repeat (apply elem_of_cons in Hdbh as [->|Hdbh];
              [cbn in Hr |- *;
               try (split; lia);
               exfalso; revert Hr; by_decide|]).
      inversion Hdbh.
    - by_decide. }
  split; [exact Hinv1|].
  destruct (stitching_returns_stored_window one_range 1 0 30
              ltac:(lia) Hinv1)
    as (_ & _ & _ & _ & _ & _ & _ & Hboth & Htwice).
  set (dbh := {| dbh_srvid := 1; dbh_dbid := 1;
                 dbh_coalesce_range := mkrange 0 10 true true;
                 dbh_records := [snap 5 1] |}).
  assert (Hov : dbh ∈ powa_statements_history_db one_range) by (left).
  destruct (Hboth db1 dbh) as [Hmin Hmax].
  - split; [exact Hov|]. repeat split.
  - reflexivity.
  - reflexivity.
  - intros dbh' (Hin' & _). apply list_elem_of_singleton in Hin'.
    subst dbh'. simpl. lia.
  - apply (Htwice db1 dbh (snap 5 1)); try reflexivity; try assumption.
    + left.
    + simpl. lia.
Defined.

(** ** Aggregation with the max-minus-min filter *)

Lemma having_increase_spec (var : string) (g : list Snapshot) :
  having_increase var g = true ↔
  ∃ M m, Pg.max (column var <$> g) = Some M
         ∧ Pg.min (column var <$> g) = Some m
         ∧ 0 < M - m.
Proof.
  unfold having_increase.
  destruct (Pg.max (column var <$> g)) as [M|],
           (Pg.min (column var <$> g)) as [m|]; simpl.
  - rewrite Z.ltb_lt. split.
    + intros H. exists M, m. auto.
    + intros (M' & m' & [= <-] & [= <-] & H). exact H.
  - split; [discriminate|]. intros (M' & m' & _ & E & _). discriminate.
  - split; [discriminate|]. intros (M' & m' & E & _). discriminate.
  - split; [discriminate|]. intros (M' & m' & E & _). discriminate.
Qed.

(** The groups kept by a HAVING filter over a GROUP BY. *)
Lemma having_keys {K A B} `{EqDecision K} (key : A → K)
    (cond : list A → bool) (sel : K * list A → K * B)
    (rows : list A) (k : K) :
  (∀ kg, (sel kg).1 = kg.1) →
  k ∈ (sel <$> List.filter (λ kg, cond kg.2) (group_by key rows)).*1 ↔
  List.filter (λ x, bool_decide (key x = k)) rows ≠ []
  ∧ cond (List.filter (λ x, bool_decide (key x = k)) rows) = true.
Proof.
  intros Hsel. split.
  - intros Hin. apply list_elem_of_fmap in Hin as (kb & -> & Hin).
    apply list_elem_of_fmap in Hin as ([k' g] & -> & Hin).
    apply elem_of_filter in Hin as [Hin Hc]. rewrite Hsel. cbn [fst snd] in *.
    destruct (group_by_rows key rows k' g Hin) as [<- Hne]. auto.
  - intros [Hne Hc].
    destruct (List.filter (λ x, bool_decide (key x = k)) rows) as [|y g] eqn:E;
      [contradiction|].
    assert (Hy : y ∈ List.filter (λ x, bool_decide (key x = k)) rows)
      by (rewrite E; apply elem_of_cons; left; reflexivity).
    apply elem_of_filter in Hy as [Hy Hk]. apply bool_decide_eq_true_1 in Hk.
    pose proof (group_by_complete key rows y Hy) as Hg. rewrite Hk, E in Hg.
    apply list_elem_of_fmap. exists (sel (k, y :: g)).
    split; [rewrite Hsel; reflexivity|].
    apply list_elem_of_fmap. exists (k, y :: g). split; [reflexivity|].
    apply elem_of_filter. split; [exact Hg|exact Hc].
Qed.

(** C8. A partition of the aggregated queries, per (database, query) as
    per database, is in the output exactly when it has rows and [max - min]
    of its counter ([calls] for statement data, [count] for wait events) is
    greater than 0; a partition whose counter shows no overall increase is
    discarded. *)
Theorem idle_partitions_discarded (diff : string → list Snapshot → option Z) :
  (∀ base_query srvid k,
     let partition :=
       (λ r, h_record r.2) <$>
         List.filter (λ r, bool_decide (statdata_key r = k))
           (List.filter (λ r, d_srvid r.1 =? srvid) base_query) in
     (k ∈ (powa_getstatdata_detailed_db diff base_query srvid).*1 ↔
      partition ≠ []
      ∧ ∃ M m, Pg.max (column "calls" <$> partition) = Some M
               ∧ Pg.min (column "calls" <$> partition) = Some m
               ∧ 0 < M - m)
     ∧ ((∀ M m, Pg.max (column "calls" <$> partition) = Some M →
                Pg.min (column "calls" <$> partition) = Some m →
                M - m ≤ 0) →
        k ∉ (powa_getstatdata_detailed_db diff base_query srvid).*1))
  ∧ (∀ base_query srvid k,
       let partition :=
         w_record <$>
           List.filter (λ r, bool_decide (waitdata_key r = k)) base_query in
       (k ∈ (powa_getwaitdata_detailed_db diff base_query srvid).*1 ↔
        partition ≠ []
        ∧ ∃ M m, Pg.max (column "count" <$> partition) = Some M
                 ∧ Pg.min (column "count" <$> partition) = Some m
                 ∧ 0 < M - m)
       ∧ ((∀ M m, Pg.max (column "count" <$> partition) = Some M →
                  Pg.min (column "count" <$> partition) = Some m →
                  M - m ≤ 0) →
          k ∉ (powa_getwaitdata_detailed_db diff base_query srvid).*1))
  ∧ (∀ (base_query : list (Z * Z * Snapshot)) srvid k,
       let partition :=
         (λ r, r.2) <$>
           List.filter (λ r, bool_decide (r.1 = k))
             (List.filter (λ r, r.1.1 =? srvid) base_query) in
       (k ∈ (powa_getstatdata_db diff base_query srvid).*1 ↔
        partition ≠ []
        ∧ ∃ M m, Pg.max (column "calls" <$> partition) = Some M
                 ∧ Pg.min (column "calls" <$> partition) = Some m
                 ∧ 0 < M - m)
       ∧ ((∀ M m, Pg.max (column "calls" <$> partition) = Some M →
                  Pg.min (column "calls" <$> partition) = Some m →
                  M - m ≤ 0) →
          k ∉ (powa_getstatdata_db diff base_query srvid).*1))
  ∧ (∀ base_query srvid k,
       let partition :=
         wd_record <$>
           List.filter (λ r, bool_decide (waitdata_db_key r = k))
             base_query in
       (k ∈ (powa_getwaitdata_db diff base_query srvid).*1 ↔
        partition ≠ []
        ∧ ∃ M m, Pg.max (column "count" <$> partition) = Some M
                 ∧ Pg.min (column "count" <$> partition) = Some m
                 ∧ 0 < M - m)
       ∧ ((∀ M m, Pg.max (column "count" <$> partition) = Some M →
                  Pg.min (column "count" <$> partition) = Some m →
                  M - m ≤ 0) →
          k ∉ (powa_getwaitdata_db diff base_query srvid).*1)).
Proof.
  assert (Hne : ∀ {A B} (f : A → B) (l : list A), f <$> l ≠ [] ↔ l ≠ []).
  { intros A B f l. destruct l; simpl; split; intros H; try contradiction;
      discriminate. }
  assert (Hidle : ∀ (P : Prop) (partition : list Snapshot) (var : string),
    (P ↔ partition ≠ []
         ∧ ∃ M m, Pg.max (column var <$> partition) = Some M
                  ∧ Pg.min (column var <$> partition) = Some m
                  ∧ 0 < M - m) →
    (∀ M m, Pg.max (column var <$> partition) = Some M →
            Pg.min (column var <$> partition) = Some m →
            M - m ≤ 0) →
    ¬ P).
  { intros P partition var Hiff Hno HP.
    apply Hiff in HP as [_ (M & m & HM & Hm & Hlt)].
    specialize (Hno M m HM Hm). lia. }
  split; [|split; [|split]].
  - intros base_query srvid k partition.
    assert (Hiff :
      k ∈ (powa_getstatdata_detailed_db diff base_query srvid).*1 ↔
      partition ≠ []
      ∧ ∃ M m, Pg.max (column "calls" <$> partition) = Some M
               ∧ Pg.min (column "calls" <$> partition) = Some m
               ∧ 0 < M - m).
    { unfold powa_getstatdata_detailed_db.
      rewrite (having_keys statdata_key
                 (λ g, having_increase "calls" ((λ r, h_record r.2) <$> g))
                 (λ kg, (kg.1, get_diffs_forstatdata diff
                                 ((λ r, h_record r.2) <$> kg.2))))
        by reflexivity.
      rewrite having_increase_spec. unfold partition. rewrite Hne.
      reflexivity. }
    split; [exact Hiff|]. apply (Hidle _ _ _ Hiff).
  - intros base_query srvid k partition.
    assert (Hiff :
      k ∈ (powa_getwaitdata_detailed_db diff base_query srvid).*1 ↔
      partition ≠ []
      ∧ ∃ M m, Pg.max (column "count" <$> partition) = Some M
               ∧ Pg.min (column "count" <$> partition) = Some m
               ∧ 0 < M - m).
    { unfold powa_getwaitdata_detailed_db.
      rewrite (having_keys waitdata_key
                 (λ g, having_increase "count" (w_record <$> g))
                 (λ kg, (kg.1, diff "count" (w_record <$> kg.2))))
        by reflexivity.
      rewrite having_increase_spec. unfold partition. rewrite Hne.
      reflexivity. }
    split; [exact Hiff|]. apply (Hidle _ _ _ Hiff).
  - intros base_query srvid k partition.
    assert (Hiff :
      k ∈ (powa_getstatdata_db diff base_query srvid).*1 ↔
      partition ≠ []
      ∧ ∃ M m, Pg.max (column "calls" <$> partition) = Some M
               ∧ Pg.min (column "calls" <$> partition) = Some m
               ∧ 0 < M - m).
    { unfold powa_getstatdata_db.
      rewrite (having_keys (λ r : Z * Z * Snapshot, r.1)
                 (λ g, having_increase "calls" ((λ r, r.2) <$> g))
                 (λ kg, (kg.1, get_diffs_forstatdata diff
                                 ((λ r, r.2) <$> kg.2))))
        by reflexivity.
      rewrite having_increase_spec. unfold partition. rewrite Hne.
      reflexivity. }
    split; [exact Hiff|]. apply (Hidle _ _ _ Hiff).
  - intros base_query srvid k partition.
    assert (Hiff :
      k ∈ (powa_getwaitdata_db diff base_query srvid).*1 ↔
      partition ≠ []
      ∧ ∃ M m, Pg.max (column "count" <$> partition) = Some M
               ∧ Pg.min (column "count" <$> partition) = Some m
               ∧ 0 < M - m).
    { unfold powa_getwaitdata_db.
      rewrite (having_keys waitdata_db_key
                 (λ g, having_increase "count" (wd_record <$> g))
                 (λ kg, (kg.1, diff "count" (wd_record <$> kg.2))))
        by reflexivity.
      rewrite having_increase_spec. unfold partition. rewrite Hne.
      reflexivity. }
    split; [exact Hiff|]. apply (Hidle _ _ _ Hiff).
Qed.

(** Query 8 of [two_queries] made no call in the window and is discarded,
    query 7 is kept; database 2 of [two_databases] made no call and is
    discarded, database 1 is kept. *)
Lemma idle_partitions_discarded_witness :
  ((1, 8, 1, 10, "db1"%string)
     ∉ (powa_getstatdata_detailed_db max_minus_min two_queries 1).*1)
  ∧ ((powa_getstatdata_detailed_db max_minus_min two_queries 1).*1
     = [(1, 7, 1, 10, "db1"%string)])
  ∧ ((1, 2) ∉ (powa_getstatdata_db max_minus_min two_databases 1).*1)
  ∧ ((powa_getstatdata_db max_minus_min two_databases 1).*1 = [(1, 1)]).
Proof.
  split; [|split; [vm_compute; reflexivity|split; [|vm_compute; reflexivity]]].
  - apply (proj2 (proj1 (idle_partitions_discarded max_minus_min)
                    two_queries 1 (1, 8, 1, 10, "db1"%string))).
    intros M m HM Hm. vm_compute in HM, Hm.
    injection HM as <-. injection Hm as <-. lia.
  - apply (proj2 (proj1 (proj2 (proj2
             (idle_partitions_discarded max_minus_min)))
                    two_databases 1 (1, 2))).
    intros M m HM Hm. vm_compute in HM, Hm.
    injection HM as <-. injection Hm as <-. lia.
Defined.

(** ** Rates *)

Lemma greatestq_floor (x : option Q) :
  ∃ d, Utils.greatestq x (Some 1%Q) = Some d ∧ (1 <= d)%Q.
Proof.
  destruct x as [x|]; simpl.
  - destruct (Qle_bool x 1) eqn:E.
    + exists 1%Q. split; [reflexivity|apply Qle_refl].
    + exists x. split; [reflexivity|].
      apply Qlt_le_weak, Qnot_le_lt. intros H.
      apply Qle_bool_iff in H. congruence.
  - exists 1%Q. split; [reflexivity|apply Qle_refl].
Qed.

Lemma epoch_floor (mesure_interval : option Z) :
  ∃ d, extract_epoch (Utils.greatest mesure_interval (Some 1000000)) = Some d
       ∧ (1 <= d)%Q.
Proof.
  destruct mesure_interval as [i|]; simpl.
  - eexists. split; [reflexivity|].
    unfold Qle. simpl. destruct (Z.leb_spec i 1000000); lia.
  - eexists. split; [reflexivity|]. unfold Qle. simpl. lia.
Qed.

Lemma div_by_floor (a : option Q) (d : Q) :
  (1 <= d)%Q → div a (Some d) = Ok ((λ n, (n / d)%Q) <$> a).
Proof.
  intros Hd. destruct a as [n|]; [|reflexivity]. simpl.
  destruct (Qeq_bool d 0) eqn:E; [|reflexivity].
  apply Qeq_bool_iff in E. rewrite E in Hd.
  exfalso. revert Hd. unfold Qle. simpl. lia.
Qed.

(** X8. The rate columns of the overview queries divide by a floored
    divisor, at least 1, and return a value: [calls], [load] and [total_disk_read] by
    [greatest(epoch, 1)], [avg_runtime] by [greatest(sum(calls), 1)],
    [sum_per_sec] and [wps] by the epoch of [greatest(interval, '1 second')];
    for a zero (or NULL) interval and for zero calls the divisor is 1. *)
Theorem rates_divide_by_floor
    (mesure_interval : option Z) (g : list sample_row)
    (col : list (option Z)) (x : option Z) :
  (∃ d, Utils.greatestq (extract_epoch mesure_interval) (Some 1%Q) = Some d
        ∧ (1 <= d)%Q
        ∧ calls mesure_interval g
          = Ok ((λ n, (n / d)%Q) <$> numeric (Pg.sum (c "calls" <$> g)))
        ∧ load mesure_interval g
          = Ok ((λ n, (n / d)%Q) <$> numeric (Pg.sum (c "runtime" <$> g)))
        ∧ total_disk_read mesure_interval col
          = Ok ((λ n, (n / d)%Q) <$> numeric (Pg.sum col)))
  ∧ (∃ d, Utils.greatestq (numeric (Pg.sum (c "calls" <$> g))) (Some 1%Q)
          = Some d
          ∧ (1 <= d)%Q
          ∧ avg_runtime g
            = Ok ((λ n, (n / d)%Q) <$> numeric (Pg.sum (c "runtime" <$> g))))
  ∧ (∃ d, extract_epoch (Utils.greatest mesure_interval (Some 1000000))
          = Some d
          ∧ (1 <= d)%Q
          ∧ sum_per_sec mesure_interval col
            = Ok ((λ n, (n / d)%Q) <$> numeric (Pg.sum col))
          ∧ wps mesure_interval x = Ok ((λ n, (n / d)%Q) <$> numeric x))
  ∧ Utils.greatestq (extract_epoch (Some 0)) (Some 1%Q) = Some 1%Q
  ∧ Utils.greatestq (extract_epoch None) (Some 1%Q) = Some 1%Q
  ∧ Utils.greatestq (numeric (Some 0)) (Some 1%Q) = Some 1%Q
  ∧ extract_epoch (Utils.greatest (Some 0) (Some 1000000))
    = Some (1000000 # 1000000)%Q.
Proof.
  split; [|split; [|split]].
  - destruct (greatestq_floor (extract_epoch mesure_interval)) as (d & E & Hd).
    exists d. split; [exact E|]. split; [exact Hd|].
    unfold calls, load, total_disk_read. rewrite E.
    repeat split; apply div_by_floor, Hd.
  - destruct (greatestq_floor (numeric (Pg.sum (c "calls" <$> g))))
      as (d & E & Hd).
    exists d. split; [exact E|]. split; [exact Hd|].
    unfold avg_runtime. rewrite E. apply div_by_floor, Hd.
  - destruct (epoch_floor mesure_interval) as (d & E & Hd).
    exists d. split; [exact E|]. split; [exact Hd|].
    unfold sum_per_sec, wps. rewrite E. split; apply div_by_floor, Hd.
  - repeat split.
Qed.

(** ** Predicate statistics *)





(** ** Metric schemas and preconditions *)




(** The guard of the two wait overview groups: on a server without
    pg_wait_sampling, [prepare] raises [HTTPError(501)] and the request ends
    with that error, whatever the data method would have returned. *)
Lemma wait_metrics_require_extension {A : Type}
    (has_extension : string → string → bool) (server : string)
    (path_args : list string) (get : unit → py A) :
  has_extension server "pg_wait_sampling" = false →
  prepare has_extension (server :: path_args)
  = Raise (HTTPError 501 "pg_wait_sampling is not installed")
  ∧ execute (prepare has_extension (server :: path_args)) get
    = Raise (HTTPError 501 "pg_wait_sampling is not installed").
Proof.
  intros Hmissing. unfold execute, prepare. simpl. rewrite Hmissing.
  split; reflexivity.
Qed.

(** C9. Of the four wait-event metric groups, the two overview groups
    define the [prepare] that raises [HTTPError(501)] on a server without
    pg_wait_sampling; the two grid groups, [ByQueryWaitSamplingMetricGroup]
    and [ByDatabaseWaitSamplingMetricGroup], define none: once the
    [prepare] they inherit returns, their request returns what the data
    method returns, with or without the extension. *)
Theorem wait_grids_skip_extension_check {A : Type}
    (inherited_prepare : (string → string → bool) → list string → py unit)
    (has_extension : string → string → bool) (server : string)
    (path_args : list string) (get : unit → py A) :
  has_extension server "pg_wait_sampling" = false →
  inherited_prepare has_extension (server :: path_args) = Return () →
  (∀ g, g ∈ wait_datasources →
        request inherited_prepare g has_extension (server :: path_args) get
        = match mg_prepare g with
          | Some _ =>
              Raise (HTTPError 501 "pg_wait_sampling is not installed")
          | None => get ()
          end)
  ∧ request inherited_prepare DatabaseWaitOverviewMetricGroup
      has_extension (server :: path_args) get
    = Raise (HTTPError 501 "pg_wait_sampling is not installed")
  ∧ request inherited_prepare GlobalWaitsMetricGroup
      has_extension (server :: path_args) get
    = Raise (HTTPError 501 "pg_wait_sampling is not installed")
  ∧ request inherited_prepare ByQueryWaitSamplingMetricGroup
      has_extension (server :: path_args) get
    = get ()
  ∧ request inherited_prepare ByDatabaseWaitSamplingMetricGroup
      has_extension (server :: path_args) get
    = get ().
Proof.
  intros Hmissing Hinherited.
  assert (Hguard :
    execute (prepare has_extension (server :: path_args)) get
    = Raise (HTTPError 501 "pg_wait_sampling is not installed")).
  { unfold execute, prepare. simpl. rewrite Hmissing. reflexivity. }
  assert (Hgrid :
    execute (inherited_prepare has_extension (server :: path_args)) get
    = get ()).
  { unfold execute. rewrite Hinherited. reflexivity. }
  split; [|repeat split; assumption].
  intros g Hg. unfold wait_datasources in Hg.
  repeat (apply elem_of_cons in Hg as [->|Hg]; [assumption|]).
  inversion Hg.
Qed.

(** A server without pg_wait_sampling and without wait events: the grid of
    the database page answers with an empty series. *)
Lemma wait_grids_skip_extension_check_witness :
  (λ _ _ : string, false) "1"%string "pg_wait_sampling"%string = false
  ∧ request (λ _ _, Return ()) ByQueryWaitSamplingMetricGroup
      (λ _ _, false) ["1"; "db1"]%string (λ _, Return (@nil Z))
    = Return []
  ∧ request (λ _ _, Return ()) DatabaseWaitOverviewMetricGroup
      (λ _ _, false) ["1"; "db1"]%string (λ _, Return (@nil Z))
    = Raise (HTTPError 501 "pg_wait_sampling is not installed").
Proof.
  split; [reflexivity|].
  destruct (wait_grids_skip_extension_check (λ _ _, Return ())
              (λ _ _, false) "1"%string ["db1"%string]
              (λ _, Return (@nil Z)) eq_refl eq_refl)
    as (_ & Hover & _ & Hgrid & _).
  split; [exact Hgrid|exact Hover].
Defined.


(** ** More on sampling *)

Lemma numbered_length (rows : list Snapshot) :
  length (numbered rows) = length rows.
Proof. unfold numbered. rewrite length_imap. apply length_order_by. Qed.

(** X1. Budgets outside the useful range. With [samples = -1] the stride
    divides by zero, which aborts the query as soon as the partition has a
    row (an empty partition evaluates nothing); with a budget below [-1] the
    quotient is not positive, the stride is 1 and every row is kept; with
    the largest [integer], [:samples+1] overflows and the query is aborted
    whatever the partition. *)
Theorem sample_negative_budget :
  (∀ rows, rows ≠ [] → sample (-1) rows = Err division_by_zero)
  ∧ sample (-1) [] = Ok []
  ∧ (∀ samples rows,
       -2147483648 ≤ samples → samples < -1 →
       stride samples (Z.of_nat (length rows)) = Ok 1
       ∧ sample samples rows = Ok (numbered rows))
  ∧ (∀ rows, sample 2147483647 rows = Err integer_out_of_range).
Proof.
  split; [|split; [|split]].
  - intros rows Hne. unfold sample.
    change (int4pl (-1) 1) with (Ok 0). cbn [mbind res_bind].
    pose proof (numbered_length rows) as Hlen.
    destruct (numbered rows) as [|[[n t] r] l] eqn:E.
    + destruct rows; [contradiction|discriminate].
    + reflexivity.
  - reflexivity.
  - intros samples rows Hmin Hneg.
    assert (Hst : stride samples (Z.of_nat (length rows)) = Ok 1).
    { rewrite stride_Ok by lia. f_equal. unfold int8larger.
      assert (Z.of_nat (length rows) ÷ (samples + 1) ≤ 0).
      { replace (samples + 1) with (- (- (samples + 1))) by lia.
        rewrite Z.quot_opp_r by lia.
        pose proof (Z.quot_pos (Z.of_nat (length rows)) (- (samples + 1))
                      ltac:(lia) ltac:(lia)).
        lia. }
      destruct (Z.ltb_spec 1 (Z.of_nat (length rows) ÷ (samples + 1)));
        [lia|reflexivity]. }
    split; [exact Hst|].
    rewrite (sample_filter _ _ _ Hst).
    f_equal. rewrite <- (filter_true (numbered rows)) at 2.
    apply filter_ext. intros [[n t] r]. simpl. rewrite Z.rem_1_r. reflexivity.
  - intros rows. reflexivity.
Qed.

Lemma sample_negative_budget_witness :
  ramp 2 ≠ []
  ∧ sample (-1) (ramp 2) = Err division_by_zero
  ∧ -2147483648 ≤ -5 ∧ -5 < -1
  ∧ sample (-5) (ramp 2) = Ok (numbered (ramp 2)).
Proof.
  assert (H1 : ramp 2 ≠ []) by discriminate.
  assert (H2 : -5 < -1) by lia.
  assert (H3 : -2147483648 ≤ -5) by lia.
  split; [exact H1|].
  split; [apply (proj1 sample_negative_budget (ramp 2) H1)|].
  split; [exact H3|]. split; [exact H2|].
  apply (proj1 (proj2 (proj2 sample_negative_budget)) (-5) (ramp 2) H3 H2).
Defined.


Lemma elem_of_numbered (rows : list Snapshot) (x : Z * Z * Snapshot) :
  x ∈ numbered rows ↔
  ∃ i, order_by ts rows !! i = Some x.2
       ∧ x.1.1 = Z.of_nat (S i)
       ∧ x.1.2 = Z.of_nat (length rows).
Proof.
  unfold numbered. rewrite elem_of_lookup_imap. split.
  - intros (i & r & -> & Hr). exists i. auto.
  - intros (i & Hr & Hn & Ht). exists i, x.2. split; [|exact Hr].
    destruct x as [[n t] r]. simpl in *. congruence.
Qed.

(** X2. The rows kept by the sampling are the numbered rows whose number is
    a multiple of the stride. In particular the earliest row of the
    partition is kept only when the stride is 1, and the latest row only
    when the stride divides the number of rows. *)
Theorem sample_boundaries (samples : Z) (rows : list Snapshot) (s : Z)
    (earliest latest : Snapshot) :
  stride samples (Z.of_nat (length rows)) = Ok s →
  head (order_by ts rows) = Some earliest →
  last (order_by ts rows) = Some latest →
  ∃ out,
    sample samples rows = Ok out
    ∧ (∀ x, x ∈ out ↔ x ∈ numbered rows ∧ Z.rem x.1.1 s = 0)
    ∧ ((1, Z.of_nat (length rows), earliest) ∈ out ↔ s = 1)
    ∧ ((Z.of_nat (length rows), Z.of_nat (length rows), latest) ∈ out ↔
       Z.rem (Z.of_nat (length rows)) s = 0).
Proof.
  intros Hst Hhead Hlast.
  pose proof (stride_pos _ _ _ Hst) as Hs.
  eexists. split; [apply (sample_filter _ _ _ Hst)|].
  assert (Hmem : ∀ x,
    x ∈ List.filter (λ row : Z * Z * Snapshot, Z.rem row.1.1 s =? 0)
          (numbered rows) ↔
    x ∈ numbered rows ∧ Z.rem x.1.1 s = 0).
  { intros x. rewrite elem_of_filter, Z.eqb_eq. reflexivity. }
  split; [exact Hmem|]. split.
  - rewrite Hmem. cbn [fst snd].
    assert (Hin : (1, Z.of_nat (length rows), earliest) ∈ numbered rows).
    { apply elem_of_numbered. exists 0%nat. cbn [fst snd].
      rewrite <- head_lookup. auto. }
    split.
    + intros [_ Hrem]. destruct (Z.eq_dec s 1) as [|Hne]; [assumption|].
      rewrite Z.rem_small in Hrem by lia. discriminate.
    + intros ->. split; [exact Hin|reflexivity].
  - rewrite Hmem. cbn [fst snd].
    assert (Hin : (Z.of_nat (length rows), Z.of_nat (length rows), latest)
                  ∈ numbered rows).
    { apply elem_of_numbered. exists (pred (length rows)). cbn [fst snd].
      rewrite last_lookup, length_order_by in Hlast.
      split; [exact Hlast|]. split; [|reflexivity].
      apply lookup_lt_Some in Hlast. rewrite length_order_by in Hlast. lia. }
    tauto.
Qed.

Lemma sample_boundaries_witness :
  stride 1 (Z.of_nat (length (ramp 4))) = Ok 2
  ∧ ∃ out,
      sample 1 (ramp 4) = Ok out
      ∧ (∀ x, x ∈ out ↔ x ∈ numbered (ramp 4) ∧ Z.rem x.1.1 2 = 0)
      ∧ ((1, Z.of_nat (length (ramp 4)), snap 1 1) ∈ out ↔ 2 = 1)
      ∧ ((Z.of_nat (length (ramp 4)), Z.of_nat (length (ramp 4)), snap 4 16)
           ∈ out ↔
         Z.rem (Z.of_nat (length (ramp 4))) 2 = 0).
Proof.
  split; [reflexivity|].
  apply (sample_boundaries 1 (ramp 4) 2 (snap 1 1) (snap 4 16));
    vm_compute; reflexivity.
Defined.


(** A WHERE clause whose condition agrees on related rows keeps related
    rows, or raises the same error. *)
Lemma where_related {A} (R : A → A → Prop) (p : A → res bool) (l1 l2 : list A) :
  (∀ x y, R x y → p x = p y) →
  Forall2 R l1 l2 →
  match where_ p l1, where_ p l2 with
  | Ok o1, Ok o2 => Forall2 R o1 o2
  | Err e1, Err e2 => e1 = e2
  | _, _ => False
  end.
Proof.
  intros Hp. induction 1 as [|x y l1 l2 Hxy _ IH]; simpl; [constructor|].
  rewrite (Hp x y Hxy). destruct (p y) as [b|e]; simpl; [|reflexivity].
  destruct (where_ p l1) as [o1|e1], (where_ p l2) as [o2|e2]; simpl;
    try contradiction; try assumption.
  destruct b; [constructor|]; assumption.
Qed.

(** Partitions with the same timestamps in [ts] order are numbered alike. *)
Lemma numbered_same_timestamps (rows1 rows2 : list Snapshot) :
  ts <$> order_by ts rows1 = ts <$> order_by ts rows2 →
  Forall2 (λ x y : Z * Z * Snapshot, x.1 = y.1 ∧ ts x.2 = ts y.2)
          (numbered rows1) (numbered rows2).
Proof.
  intros Hts.
  assert (Hlen : length rows1 = length rows2).
  { rewrite <- (length_order_by ts rows1), <- (length_order_by ts rows2).
    rewrite <- (length_fmap ts (order_by ts rows1)), Hts.
    apply length_fmap. }
  apply Forall2_same_length_lookup. split.
  - rewrite !numbered_length. exact Hlen.
  - intros i x y Hx Hy. unfold numbered in Hx, Hy.
    rewrite list_lookup_imap in Hx, Hy.
    destruct (order_by ts rows1 !! i) as [a|] eqn:Ea; [|discriminate].
    destruct (order_by ts rows2 !! i) as [b|] eqn:Eb; [|discriminate].
    injection Hx as <-. injection Hy as <-. cbn [fst snd].
    rewrite Hlen. split; [reflexivity|].
    assert (E : (ts <$> order_by ts rows1) !! i
                = (ts <$> order_by ts rows2) !! i) by (rewrite Hts; reflexivity).
    rewrite !list_lookup_fmap, Ea, Eb in E. injection E as E. exact E.
Qed.

Lemma sample_cond_number (samples : Z) (x y : Z * Z * Snapshot) :
  x.1 = y.1 ∧ ts x.2 = ts y.2 → sample_cond samples x = sample_cond samples y.
Proof.
  destruct x as [[n1 t1] r1], y as [[n2 t2] r2]. intros [[= -> ->] _].
  reflexivity.
Qed.

Lemma related_timestamps (o1 o2 : list (Z * Z * Snapshot)) :
  Forall2 (λ x y : Z * Z * Snapshot, x.1 = y.1 ∧ ts x.2 = ts y.2) o1 o2 →
  (λ x, (x.1, ts x.2)) <$> o1 = (λ x, (x.1, ts x.2)) <$> o2.
Proof.
  induction 1 as [|x y o1 o2 [Hx1 Hx2] _ IH]; [reflexivity|].
  rewrite !fmap_cons, IH, Hx1, Hx2. reflexivity.
Qed.

(** X3. Which rows are kept depends on the timestamps only: two partitions
    with the same timestamps in [ts] order are sampled at the same numbers
    and timestamps, or fail with the same error, whatever their counters. *)
Theorem sample_depends_on_timestamps (samples : Z)
    (rows1 rows2 : list Snapshot) :
  ts <$> order_by ts rows1 = ts <$> order_by ts rows2 →
  match sample samples rows1, sample samples rows2 with
  | Ok out1, Ok out2 =>
      (λ x, (x.1, ts x.2)) <$> out1 = (λ x, (x.1, ts x.2)) <$> out2
  | Err e1, Err e2 => e1 = e2
  | _, _ => False
  end.
Proof.
  intros Hts.
  pose proof (where_related _ (sample_cond samples) _ _
                (sample_cond_number samples)
                (numbered_same_timestamps _ _ Hts)) as H.
  unfold sample. destruct (int4pl samples 1); [|reflexivity].
  cbn [mbind res_bind].
  destruct (where_ (sample_cond samples) (numbered rows1)) as [o1|e1],
           (where_ (sample_cond samples) (numbered rows2)) as [o2|e2];
    try assumption.
  apply related_timestamps, H.
Qed.

Lemma sample_depends_on_timestamps_witness :
  ts <$> order_by ts [snap 1 5; snap 2 6] = ts <$> order_by ts [snap 2 0; snap 1 9]
  ∧ (λ x : Z * Z * Snapshot, (x.1, ts x.2)) <$> numbered [snap 1 5; snap 2 6]
    = (λ x, (x.1, ts x.2)) <$> numbered [snap 2 0; snap 1 9].
Proof.
  assert (H : ts <$> order_by ts [snap 1 5; snap 2 6]
              = ts <$> order_by ts [snap 2 0; snap 1 9]) by reflexivity.
  split; [exact H|].
  exact (sample_depends_on_timestamps 100 _ _ H).
Defined.


(** ** More on the delta step *)

(** The label of a differenced counter reads that counter's delta. *)
Lemma c_delta_row (var label : string) (a : Snapshot) (b : option Snapshot) :
  (var, label) ∈ stat_columns →
  c label (delta_row a b)
  = greatest (minus (b ≫= column var) (column var a)) (Some 0).
Proof.
  unfold stat_columns. intros Hin.
  repeat (apply elem_of_cons in Hin as [Hin|Hin];
          [injection Hin as -> ->; reflexivity|]).
  inversion Hin.
Qed.




(** X5. The delta step returns one row per distinct timestamp of the
    partition, in strictly increasing [ts] order, and the rows of the
    partition that share a timestamp are aggregated in the same window. *)
Theorem one_row_per_timestamp (rows : list Snapshot) :
  StronglySorted Z.lt (s_ts <$> powa_getstatdata_sample rows)
  ∧ (∀ t, t ∈ s_ts <$> powa_getstatdata_sample rows ↔ t ∈ ts <$> rows)
  ∧ (∀ w, w ∈ windows rows →
          w.1.2 = List.filter (λ r, bool_decide (ts r = w.1.1)) rows
          ∧ w.1.2 ≠ []).
Proof.
  assert (Hts : s_ts <$> powa_getstatdata_sample rows
                = fst <$> order_by fst (group_by ts rows)).
  { unfold powa_getstatdata_sample, windows.
    rewrite <- list_fmap_compose.
    rewrite <- (over_fst (order_by fst (group_by ts rows))) at 2.
    rewrite <- list_fmap_compose. reflexivity. }
  split; [|split].
  - rewrite Hts.
    apply (StronglySorted_fmap _ (λ a b : Z * list Snapshot, a.1 < b.1)).
    + intros a b Hab. exact Hab.
    + apply order_by_strict, group_by_NoDup.
  - intros t. rewrite Hts, order_by_perm. apply group_by_keys_iff.
  - intros w Hw. unfold windows in Hw.
    assert (Hin : w.1 ∈ group_by ts rows).
    { rewrite <- (order_by_perm fst (group_by ts rows)).
      rewrite <- (over_fst (order_by fst (group_by ts rows))).
      apply list_elem_of_fmap. exists w. split; [reflexivity|exact Hw]. }
    destruct w as [[t g] nxt]. cbn [fst snd] in *.
    apply (group_by_rows ts rows t g Hin).
Qed.


(** ** From snapshots to rates *)

Lemma greatestq_epoch (d : Z) :
  Utils.greatestq (extract_epoch (Some d)) (Some 1%Q)
  = Some (if d <=? 1000000 then 1%Q else (d # 1000000)%Q).
Proof.
  unfold Utils.greatestq, greatestq, greatest_by, extract_epoch.
  cbn [fmap option_fmap option_map]. f_equal.
  unfold Qle_bool. cbn [Qnum Qden]. rewrite Z.mul_1_r.
  change (1 * Z.pos 1000000) with 1000000. reflexivity.
Qed.

(** X6. For two consecutive points of a partition whose [calls] counter does
    not decrease, the [calls] rate of the first point is the increase of the
    counter divided by the elapsed seconds when more than one second
    elapsed, and the increase itself (a divisor of 1) otherwise. *)
Theorem calls_rate_of_interval (a b : Snapshot) (x y : Z) :
  column "calls" a = Some x →
  column "calls" b = Some y →
  x ≤ y →
  ts a < ts b →
  let r := delta_row a (Some b) in
  calls (s_mesure_interval r) [r]
  = Ok (Some (inject_Z (y - x)
              / (if ts b - ts a <=? 1000000 then 1
                 else (ts b - ts a) # 1000000))%Q).
Proof.
  intros Hx Hy Hle Hlt r. unfold calls.
  assert (Hc : c "calls" r = Some (y - x)).
  { unfold r. rewrite (c_delta_row "calls" "calls") by by_decide.
    cbn [mbind option_bind]. rewrite Hx, Hy.
    unfold greatest, greatest_by, minus. cbn [mbind option_bind]. f_equal.
    destruct (Z.leb_spec (y - x) 0); lia. }
  assert (Hi : s_mesure_interval r = Some (ts b - ts a)).
  { unfold r, delta_row, greatest, greatest_by, minus.
    cbn [s_mesure_interval fmap option_fmap option_map mbind option_bind].
    f_equal. destruct (Z.leb_spec (ts b - ts a) 0); lia. }
  rewrite Hi, greatestq_epoch.
  cbn [fmap list_fmap]. rewrite Hc. cbn [Pg.sum numeric fmap option_fmap option_map].
  apply div_by_floor.
  destruct (Z.leb_spec (ts b - ts a) 1000000); [apply Qle_refl|].
  unfold Qle. cbn [Qnum Qden]. lia.
Qed.

(** Scenario A of the spec, with timestamps in microseconds: 10 calls in
    10 seconds. *)
Lemma calls_rate_of_interval_witness :
  calls (s_mesure_interval (delta_row (snap 0 10) (Some (snap 10000000 20))))
        [delta_row (snap 0 10) (Some (snap 10000000 20))]
  = Ok (Some (inject_Z (20 - 10) / (10000000 # 1000000))%Q).
Proof.
  apply (calls_rate_of_interval (snap 0 10) (snap 10000000 20) 10 20);
    [reflexivity|reflexivity|lia|reflexivity].
Defined.


(** ** The by-database aggregates *)

(** [max] and [min] only see which values occur, not how often. *)
Lemma Pg_max_same_elements (l1 l2 : list (option Z)) :
  (∀ v, v ∈ l1 ↔ v ∈ l2) → Pg.max l1 = Pg.max l2.
Proof.
  intros Heq.
  destruct (Pg.max l1) as [M1|] eqn:E1, (Pg.max l2) as [M2|] eqn:E2.
  - apply Pg_max_Some in E1 as [H1 U1], E2 as [H2 U2]. f_equal.
    apply Z.le_antisymm; [apply U2, Heq, H1|apply U1, Heq, H2].
  - apply Pg_max_Some in E1 as [H1 _].
    exfalso. exact (proj1 (Pg_max_None l2) E2 M1 (proj1 (Heq _) H1)).
  - apply Pg_max_Some in E2 as [H2 _].
    exfalso. exact (proj1 (Pg_max_None l1) E1 M2 (proj2 (Heq _) H2)).
  - reflexivity.
Qed.

Lemma Pg_min_same_elements (l1 l2 : list (option Z)) :
  (∀ v, v ∈ l1 ↔ v ∈ l2) → Pg.min l1 = Pg.min l2.
Proof.
  intros Heq.
  destruct (Pg.min l1) as [M1|] eqn:E1, (Pg.min l2) as [M2|] eqn:E2.
  - apply Pg_min_Some in E1 as [H1 U1], E2 as [H2 U2]. f_equal.
    apply Z.le_antisymm; [apply U1, Heq, H2|apply U2, Heq, H1].
  - apply Pg_min_Some in E1 as [H1 _].
    exfalso. exact (proj1 (Pg_min_None l2) E2 M1 (proj1 (Heq _) H1)).
  - apply Pg_min_Some in E2 as [H2 _].
    exfalso. exact (proj1 (Pg_min_None l1) E1 M2 (proj2 (Heq _) H2)).
  - reflexivity.
Qed.

Lemma having_increase_same_elements (var : string) (g1 g2 : list Snapshot) :
  (∀ r, r ∈ g1 ↔ r ∈ g2) →
  having_increase var g1 = having_increase var g2.
Proof.
  intros Heq. unfold having_increase.
  assert (H : ∀ v, v ∈ column var <$> g1 ↔ v ∈ column var <$> g2).
  { intros v. rewrite !list_elem_of_fmap.
    split; intros (r & -> & Hr); exists r; (split; [reflexivity|]);
      apply Heq, Hr. }
  rewrite (Pg_max_same_elements _ _ H), (Pg_min_same_elements _ _ H).
  reflexivity.
Qed.

Lemma nonempty_elem {A} (l : list A) : l ≠ [] ↔ ∃ x, x ∈ l.
Proof.
  destruct l as [|x l]; split.
  - contradiction.
  - intros [x H]. inversion H.
  - intros _. exists x. left.
  - discriminate.
Qed.

(** The keys kept by GROUP BY and HAVING on [max - min] depend on the set of
    rows only. *)
Lemma having_keys_same_elements {K A B} `{EqDecision K} (key : A → K)
    (rec : A → Snapshot) (var : string) (sel : K * list A → K * B)
    (rows1 rows2 : list A) (k : K) :
  (∀ kg, (sel kg).1 = kg.1) →
  (∀ x, x ∈ rows1 ↔ x ∈ rows2) →
  k ∈ (sel <$> List.filter (λ kg, having_increase var (rec <$> kg.2))
                 (group_by key rows1)).*1 ↔
  k ∈ (sel <$> List.filter (λ kg, having_increase var (rec <$> kg.2))
                 (group_by key rows2)).*1.
Proof.
  intros Hsel Heq.
  rewrite !(having_keys key (λ g, having_increase var (rec <$> g)) sel)
    by exact Hsel.
  assert (Hf : ∀ x, x ∈ List.filter (λ x, bool_decide (key x = k)) rows1 ↔
                    x ∈ List.filter (λ x, bool_decide (key x = k)) rows2).
  { intros x. rewrite !elem_of_filter, Heq. reflexivity. }
  rewrite !nonempty_elem.
  rewrite (having_increase_same_elements var
             (rec <$> List.filter (λ x, bool_decide (key x = k)) rows1)
             (rec <$> List.filter (λ x, bool_decide (key x = k)) rows2)).
  - split; intros [[x Hx] Hc]; (split; [exists x; apply Hf, Hx|exact Hc]).
  - intros r. rewrite !list_elem_of_fmap.
    split; intros (x & -> & Hx); exists x; (split; [reflexivity|]);
      apply Hf, Hx.
Qed.

(** X7. Which databases [powa_getstatdata_db] lists, and which wait events
    [powa_getwaitdata_db] lists, depends only on which rows the base query
    returns, not on how many times it returns them: duplicate rows, such as
    those of a coalesced range read twice, change nothing. *)
Theorem db_aggregates_ignore_duplicates
    (diff : string → list Snapshot → option Z)
    (stat1 stat2 : list (Z * Z * Snapshot)) (wait1 wait2 : list wait_db_row)
    (srvid : Z)
    (Hstat : ∀ x, x ∈ stat1 ↔ x ∈ stat2)
    (Hwait : ∀ x, x ∈ wait1 ↔ x ∈ wait2) :
  (∀ k, k ∈ (powa_getstatdata_db diff stat1 srvid).*1 ↔
        k ∈ (powa_getstatdata_db diff stat2 srvid).*1)
  ∧ (∀ k, k ∈ (powa_getwaitdata_db diff wait1 srvid).*1 ↔
          k ∈ (powa_getwaitdata_db diff wait2 srvid).*1).
Proof.
  split; intros k.
  - unfold powa_getstatdata_db.
    apply (having_keys_same_elements (λ r : Z * Z * Snapshot, r.1)
             (λ r, r.2) "calls"
             (λ kg, (kg.1, get_diffs_forstatdata diff ((λ r, r.2) <$> kg.2)))).
    + reflexivity.
    + intros x. rewrite !elem_of_filter, Hstat. reflexivity.
  - unfold powa_getwaitdata_db.
    apply (having_keys_same_elements waitdata_db_key wd_record "count"
             (λ kg, (kg.1, diff "count" (wd_record <$> kg.2)))).
    + reflexivity.
    + exact Hwait.
Qed.

(** A range read twice: the rows of database 1 and of one wait event, once
    and twice. *)
Lemma db_aggregates_ignore_duplicates_witness :
  (∀ k, k ∈ (powa_getstatdata_db max_minus_min
               [(1, 1, snap 0 1); (1, 1, snap 10 4);
                (1, 1, snap 0 1); (1, 1, snap 10 4)] 1).*1 ↔
        k ∈ (powa_getstatdata_db max_minus_min
               [(1, 1, snap 0 1); (1, 1, snap 10 4)] 1).*1)
  ∧ (∀ k, k ∈ (powa_getwaitdata_db max_minus_min
                 [Build_wait_db_row 1 1 "IO" "DataFileRead"
                    (mkSnapshot 0 {["count" := 2]});
                  Build_wait_db_row 1 1 "IO" "DataFileRead"
                    (mkSnapshot 10 {["count" := 5]});
                  Build_wait_db_row 1 1 "IO" "DataFileRead"
                    (mkSnapshot 10 {["count" := 5]})] 1).*1 ↔
          k ∈ (powa_getwaitdata_db max_minus_min
                 [Build_wait_db_row 1 1 "IO" "DataFileRead"
                    (mkSnapshot 0 {["count" := 2]});
                  Build_wait_db_row 1 1 "IO" "DataFileRead"
                    (mkSnapshot 10 {["count" := 5]})] 1).*1).
Proof.
  apply (db_aggregates_ignore_duplicates max_minus_min).
  - intros x. rewrite !elem_of_cons. pose proof (not_elem_of_nil x). tauto.
  - intros x. rewrite !elem_of_cons. pose proof (not_elem_of_nil x). tauto.
Defined.


(** ** Configuration changes *)

Lemma lagged_lookup_0 {A} (prev : option A) (l : list A) (r : A) :
  l !! 0%nat = Some r → lagged prev l !! 0%nat = Some (prev, r).
Proof. destruct l; [discriminate|]. intros [= ->]. reflexivity. Qed.

Lemma lagged_lookup_S {A} (prev : option A) (l : list A) (i : nat) (p r : A) :
  l !! i = Some p → l !! S i = Some r →
  lagged prev l !! S i = Some (Some p, r).
Proof.
  revert prev i. induction l as [|x l IH]; intros prev i Hp Hr; [discriminate|].
  destruct i as [|i]; cbn in *.
  - injection Hp as ->. apply lagged_lookup_0, Hr.
  - apply IH; assumption.
Qed.

Lemma lagged_snd {A} (prev : option A) (l : list A) :
  (λ w, w.2) <$> lagged prev l = l.
Proof.
  revert prev. induction l as [|x l IH]; intros prev; [reflexivity|].
  cbn [lagged]. rewrite fmap_cons, IH. reflexivity.
Qed.

(** The rows of the windows are the rows of the relation. *)
Lemma lag_windows_rows {K A} `{EqDecision K} (key : A → K) (ts : A → Z)
    (rows : list A) (w : option A * A) :
  w ∈ lag_windows key ts rows → w.2 ∈ rows.
Proof.
  unfold lag_windows. intros Hw.
  apply list_elem_of_bind in Hw as ([k g] & Hw & Hg).
  destruct (group_by_rows key rows k g Hg) as [-> _]. cbn [snd] in Hw.
  assert (H2 : w.2 ∈ (λ w, w.2) <$> lagged None
                 (order_by ts (List.filter (λ x, bool_decide (key x = k)) rows)))
    by (apply list_elem_of_fmap; exists w; auto).
  rewrite lagged_snd, order_by_perm in H2.
  apply elem_of_filter in H2 as [H2 _]. exact H2.
Qed.

(** A row of a partition in window order, with the row before it. *)
Lemma lag_windows_lookup {K A} `{EqDecision K} (key : A → K) (ts : A → Z)
    (rows : list A) (k : K) (i : nat) (w : option A * A) :
  lagged None
    (order_by ts (List.filter (λ x, bool_decide (key x = k)) rows)) !! i
  = Some w →
  w ∈ lag_windows key ts rows.
Proof.
  intros Hw. unfold lag_windows.
  set (g := List.filter (λ x, bool_decide (key x = k)) rows) in *.
  assert (Hin : w.2 ∈ g).
  { rewrite <- (order_by_perm ts g), <- (lagged_snd None (order_by ts g)).
    apply list_elem_of_fmap. exists w. split; [reflexivity|].
    eapply list_elem_of_lookup_2, Hw. }
  apply elem_of_filter in Hin as [Hin Hk]. apply bool_decide_eq_true_1 in Hk.
  apply list_elem_of_bind. exists (k, g). split.
  - cbn [snd]. eapply list_elem_of_lookup_2, Hw.
  - pose proof (group_by_complete key rows w.2 Hin) as Hg.
    rewrite Hk in Hg. exact Hg.
Qed.

(** X9. Every row returned by [get_config_changes] lies in the window
    [from .. to], and the rows come in [ts] order. *)
Theorem config_changes_in_window (restrict_database : bool)
    (settings : list pg_track_settings_history_row)
    (role_settings : list pg_track_db_role_settings_history_row)
    (pg_reboot : list pg_reboot_row)
    (databases : list powa_databases_row)
    (server from to : Z) (database : string) :
  let changes :=
    get_config_changes restrict_database settings role_settings pg_reboot
      databases server from to database in
  Forall (λ ch, from ≤ ch_ts ch ≤ to) changes
  ∧ StronglySorted (λ a b, ch_ts a ≤ ch_ts b) changes.
Proof.
  cbn zeta. split; [|apply order_by_sorted].
  unfold get_config_changes. rewrite order_by_perm.
  rewrite !Forall_app. split; [|split].
  - unfold global_changes. rewrite Forall_fmap. apply Forall_forall.
    intros w Hw. apply elem_of_filter in Hw as [_ Hw]. simpl.
    apply andb_prop in Hw as [H1 H2].
    apply Z.leb_le in H1. apply Z.leb_le in H2. lia.
  - unfold rds_changes. rewrite Forall_fmap. apply Forall_forall.
    intros w Hw. apply elem_of_filter in Hw as [_ Hw]. simpl.
    apply andb_prop in Hw as [H1 H2].
    apply Z.leb_le in H1. apply Z.leb_le in H2. lia.
  - unfold reboots. rewrite Forall_fmap. apply Forall_forall.
    intros r Hr. apply elem_of_filter in Hr as [_ Hr]. simpl.
    apply andb_prop in Hr as [Hr H2]. apply andb_prop in Hr as [_ H1].
    apply Z.leb_le in H1. apply Z.leb_le in H2. lia.
Qed.

(** X10. When the records of a setting have distinct timestamps, a change
    of that global setting inside the window is reported against
    the record that precedes it among the records of that setting up to
    [to], also when that record is older than [from]; the first record of a
    setting is reported with no previous value and as previously
    dropped. *)
Theorem config_changes_previous_value (restrict_database : bool)
    (settings : list pg_track_settings_history_row)
    (role_settings : list pg_track_db_role_settings_history_row)
    (pg_reboot : list pg_reboot_row)
    (databases : list powa_databases_row)
    (server from to : Z) (database : string) (name : string) :
  let records :=
    order_by sh_ts
      (List.filter (λ h, bool_decide (sh_name h = name))
         (List.filter (λ h, (sh_srvid h =? server) && (sh_ts h <=? to))
            settings)) in
  let changes :=
    get_config_changes restrict_database settings role_settings pg_reboot
      databases server from to database in
  NoDup (sh_ts <$> records) →
  (∀ i p r,
     records !! i = Some p → records !! S i = Some r → from ≤ sh_ts r →
     {| ch_ts := sh_ts r;
        ch_kind := "global";
        ch_data := Some (global_data name (sh_setting_pretty p)
                           (sh_setting_pretty r)
                           (sh_is_dropped p) (sh_is_dropped r)) |}
     ∈ changes)
  ∧ (∀ r,
       records !! 0%nat = Some r → from ≤ sh_ts r →
       {| ch_ts := sh_ts r;
          ch_kind := "global";
          ch_data := Some (global_data name None (sh_setting_pretty r)
                             true (sh_is_dropped r)) |}
       ∈ changes).
Proof.
  cbn zeta. intros _.
  set (base := List.filter (λ h, (sh_srvid h =? server) && (sh_ts h <=? to))
                 settings).
  set (records := order_by sh_ts
                    (List.filter (λ h, bool_decide (sh_name h = name)) base)).
  assert (Hrow : ∀ (w : option pg_track_settings_history_row
                        * pg_track_settings_history_row) i,
    lagged None records !! i = Some w → from ≤ sh_ts w.2 →
    {| ch_ts := sh_ts w.2;
       ch_kind := "global";
       ch_data := Some (global_data name (w.1 ≫= sh_setting_pretty)
                          (sh_setting_pretty w.2)
                          (default true (sh_is_dropped <$> w.1))
                          (sh_is_dropped w.2)) |}
    ∈ get_config_changes restrict_database settings role_settings pg_reboot
        databases server from to database).
  { intros w i Hw Hfrom. unfold get_config_changes.
    rewrite order_by_perm. apply elem_of_app. left.
    unfold global_changes. fold base.
    pose proof (lag_windows_lookup sh_name sh_ts base name i w Hw) as Hin.
    pose proof (lag_windows_rows _ _ _ _ Hin) as Hbase.
    assert (Hname : sh_name w.2 = name).
    { assert (H2 : w.2 ∈ records).
      { unfold records.
        rewrite <- (lagged_snd None (order_by sh_ts _)).
        apply list_elem_of_fmap. exists w. split; [reflexivity|].
        eapply list_elem_of_lookup_2, Hw. }
      unfold records in H2. rewrite order_by_perm in H2.
      apply elem_of_filter in H2 as [_ H2].
      apply bool_decide_eq_true_1 in H2. exact H2. }
    apply elem_of_filter in Hbase as [_ Hbase].
    apply andb_prop in Hbase as [_ Hto]. apply Z.leb_le in Hto.
    apply list_elem_of_fmap. exists w. split.
    - rewrite Hname. reflexivity.
    - apply elem_of_filter. split; [exact Hin|].
      apply andb_true_intro. split; apply Z.leb_le; assumption. }
  split.
  - intros i p r Hp Hr Hfrom.
    apply (Hrow (Some p, r) (S i)); [|exact Hfrom].
    apply lagged_lookup_S; assumption.
  - intros r Hr Hfrom.
    apply (Hrow (None, r) 0%nat); [|exact Hfrom].
    apply lagged_lookup_0, Hr.
Qed.

Lemma config_changes_previous_value_witness :
  NoDup (sh_ts <$> work_mem_history)
  ∧ {| ch_ts := 20;
       ch_kind := "global";
       ch_data := Some (global_data "work_mem" (Some "4MB") (Some "8MB")
                          false false) |}
    ∈ get_config_changes false work_mem_history [] [] [] 1 10 30 "".
Proof.
  assert (Hnd : NoDup (sh_ts <$> work_mem_history)) by by_decide.
  split; [exact Hnd|].
  apply (proj1 (config_changes_previous_value false work_mem_history [] [] []
                  1 10 30 "" "work_mem" Hnd) 0%nat
           (Build_pg_track_settings_history_row 1 5 "work_mem" (Some "4MB") false)
           (Build_pg_track_settings_history_row 1 20 "work_mem" (Some "8MB")
              false));
    [reflexivity|reflexivity|cbn; lia].
Defined.


(** ** pg_stat_kcache samples *)

Lemma lookup_summed (f : string → option Z) (cols : list string) (col : string) :
  NoDup cols → col ∈ cols →
  (list_to_map (omap (λ c, pair c <$> f c) cols) : gmap string Z) !! col
  = f col.
Proof.
  assert (Hkeys : ∀ cols' k,
    k ∈ (omap (λ c, pair c <$> f c) cols').*1 → k ∈ cols').
  { intros cols' k. induction cols' as [|c' cols' IH]; cbn; [intros H; exact H|].
    destruct (f c') as [v|]; cbn.
    - intros H. apply elem_of_cons in H as [->|H]; [left|right; auto].
    - intros H. right. auto. }
  induction cols as [|c cols IH]; intros Hnd Hin; [inversion Hin|].
  apply NoDup_cons in Hnd as [Hc Hnd]. cbn [omap list_omap].
  destruct (decide (col = c)) as [->|Hne].
  - destruct (f c) as [v|] eqn:E; cbn.
    + apply lookup_insert_eq.
    + apply not_elem_of_list_to_map_1. intros H. apply Hc, Hkeys, H.
  - apply elem_of_cons in Hin as [?|Hin]; [contradiction|].
    destruct (f c) as [v|]; cbn.
    + rewrite lookup_insert_ne by congruence. apply IH; assumption.
    + apply IH; assumption.
Qed.

(** A summed row reads, for each kcache counter, the sum over its group. *)
Lemma column_kmbq_row (col : string) (g : grouped) :
  col ∈ kcache_columns → column col (kmbq_row g) = sum_column col g.
Proof.
  intros Hin. unfold column, kmbq_row. cbn [ts counters].
  assert (Hts : String.eqb col "ts" = false).
  { unfold kcache_columns in Hin.
    repeat (apply elem_of_cons in Hin as [->|Hin]; [reflexivity|]).
    inversion Hin. }
  rewrite Hts. apply lookup_summed; [by_decide|exact Hin].
Qed.

Lemma kmbq_ts (km : list Snapshot) : ts <$> kmbq km = (group_by ts km).*1.
Proof. unfold kmbq. rewrite <- list_fmap_compose. reflexivity. Qed.

Lemma kmbq_NoDup (km : list Snapshot) : NoDup (ts <$> kmbq km).
Proof. rewrite kmbq_ts. apply group_by_NoDup. Qed.

(** The timestamps of the rows of a delta step, for any row constructor. *)
Lemma windows_ts (base_query : list Snapshot) :
  NoDup (ts <$> base_query) →
  (λ w : grouped * option grouped, w.1.1) <$> windows base_query
  = ts <$> order_by ts base_query.
Proof.
  intros Hnd. rewrite (windows_distinct base_query Hnd).
  rewrite (list_fmap_compose (λ w : grouped * option grouped, w.1) fst).
  rewrite over_fst, <- list_fmap_compose. reflexivity.
Qed.

(** X11. Whatever the stored metrics, the rows of
    [BASE_QUERY_KCACHE_SAMPLE_DB] for a database come at strictly increasing,
    hence pairwise distinct, timestamps; each counter of a row is the sum of
    that counter over the metrics stored at its timestamp; there are at most
    [2 * samples + 1] rows, and [kcache_getstatdata_sample] returns one row
    for each of them. *)
Theorem kcache_sample_rows
    (history : list powa_kcache_metrics_db_row)
    (current : list powa_kcache_metrics_current_db_row)
    (from to samples : Z) (d : powa_databases_row) :
  from ≤ to → 0 ≤ samples → samples < 2147483647 →
  let stored := km history current (mkrange from to true true) d in
  ∃ kcache,
    BASE_QUERY_KCACHE_SAMPLE_DB history current from to samples d = Ok kcache
    ∧ StronglySorted (λ a b, ts a < ts b) ((λ x, x.2) <$> kcache)
    ∧ Z.of_nat (length kcache) ≤ 2 * samples + 1
    ∧ (∀ x col,
         x ∈ kcache → col ∈ kcache_columns →
         column col x.2
         = Pg.sum (column col
                   <$> List.filter (λ r, bool_decide (ts r = ts x.2)) stored))
    ∧ k_ts <$> kcache_getstatdata_sample ((λ x, x.2) <$> kcache)
      = (λ x, ts x.2) <$> kcache.
Proof.
  intros Hle HK Hmax stored. unfold BASE_QUERY_KCACHE_SAMPLE_DB.
  rewrite (tstzrange_closed_Ok _ _ Hle). cbn [mbind res_bind]. fold stored.
  pose proof (stride_Ok samples (Z.of_nat (length (kmbq stored)))
                ltac:(lia) ltac:(lia)) as Hst.
  destruct (sample_length _ _ _ Hst) as (out & Hout & Hlen).
  exists out. split; [exact Hout|].
  pose proof (sample_sorted _ _ _ (kmbq_NoDup stored) Hout) as Hsorted.
  split; [exact Hsorted|]. split; [|split].
  - rewrite Hlen. apply kept_rows_bound; lia.
  - intros x col Hx Hcol.
    assert (Hin : x.2 ∈ kmbq stored).
    { rewrite <- (order_by_perm ts (kmbq stored)), <- numbered_rows.
      apply list_elem_of_fmap. exists x. split; [reflexivity|].
      eapply elem_of_sublist; [exact Hx|].
      apply (where_sublist _ _ _ (sample_inv _ _ _ Hout)). }
    unfold kmbq in Hin. apply list_elem_of_fmap in Hin as ([t g] & -> & Hg).
    rewrite (column_kmbq_row col (t, g) Hcol).
    destruct (group_by_rows ts stored t g Hg) as [-> _]. reflexivity.
  - unfold kcache_getstatdata_sample. rewrite <- list_fmap_compose.
    change (k_ts ∘ _) with (λ w : grouped * option grouped, w.1.1).
    rewrite windows_ts by (apply strict_sorted_NoDup, Hsorted).
    rewrite order_by_id by (apply strict_sorted_weak, Hsorted).
    rewrite <- list_fmap_compose. reflexivity.
Qed.


Lemma kcache_sample_rows_witness :
  0 ≤ 30 ∧ 0 ≤ 100 ∧ 100 < 2147483647
  ∧ ∃ kcache,
      BASE_QUERY_KCACHE_SAMPLE_DB kcache_history [] 0 30 100 db1 = Ok kcache
      ∧ StronglySorted (λ a b, ts a < ts b) ((λ x, x.2) <$> kcache)
      ∧ Z.of_nat (length kcache) ≤ 2 * 100 + 1.
Proof.
  split; [lia|]. split; [lia|]. split; [lia|].
  destruct (kcache_sample_rows kcache_history [] 0 30 100 db1
              ltac:(lia) ltac:(lia) ltac:(lia))
    as (kcache & H1 & H2 & H3 & _).
  exists kcache. auto.
Defined.

(** Strictly increasing lists with the same elements are equal. *)
Lemma strict_sorted_same_elements (l1 l2 : list Z) :
  StronglySorted Z.lt l1 → StronglySorted Z.lt l2 →
  (∀ t, t ∈ l1 ↔ t ∈ l2) → l1 = l2.
Proof.
  intros H1 H2 Heq.
  apply (StronglySorted_unique_strong Z.lt); [intros; lia|assumption..|].
  apply NoDup_Permutation; [| |exact Heq].
  - pose proof (strict_sorted_NoDup id l1 H1) as N.
    rewrite list_fmap_id in N. exact N.
  - pose proof (strict_sorted_NoDup id l2 H2) as N.
    rewrite list_fmap_id in N. exact N.
Qed.

Lemma order_by_ts_strict (rows : list Snapshot) :
  NoDup (ts <$> rows) → StronglySorted Z.lt (ts <$> order_by ts rows).
Proof.
  intros Hnd.
  apply (StronglySorted_fmap _ (λ a b : Snapshot, ts a < ts b));
    [auto|apply order_by_strict, Hnd].
Qed.

(** A key that occurs once selects one row. *)
Lemma filter_unique {A} (f : A → Z) (l : list A) (t : Z) :
  NoDup (f <$> l) → t ∈ f <$> l →
  ∃ b, List.filter (λ x, f x =? t) l = [b].
Proof.
  induction l as [|x l IH]; intros Hnd Hin; [inversion Hin|].
  rewrite fmap_cons in Hnd, Hin. apply NoDup_cons in Hnd as [Hx Hnd].
  cbn [List.filter]. destruct (Z.eqb_spec (f x) t) as [E|Hne].
  - exists x. f_equal. apply filter_none, Forall_forall.
    intros y Hy. apply Z.eqb_neq. intros Ey. apply Hx. rewrite E, <- Ey.
    apply list_elem_of_fmap. exists y. auto.
  - apply elem_of_cons in Hin as [->|Hin]; [contradiction|].
    apply IH; assumption.
Qed.

(** Joining on [ts] rows that come at the same distinct timestamps keeps
    every row of the left side, once. *)
Lemma join_kcache_aligned (c : list sample_row) (kc : list kcache_sample_row) :
  s_ts <$> c = k_ts <$> kc → NoDup (k_ts <$> kc) →
  (λ p, p.1) <$> join_kcache c kc = c.
Proof.
  intros Hts Hnd. unfold join_kcache.
  assert (Hall : ∀ r, r ∈ c → s_ts r ∈ k_ts <$> kc).
  { intros r Hr. rewrite <- Hts. apply list_elem_of_fmap. exists r. auto. }
  clear Hts. induction c as [|r c IH]; [reflexivity|].
  rewrite bind_cons, fmap_app, IH by (intros r' Hr'; apply Hall; right; exact Hr').
  destruct (filter_unique k_ts kc (s_ts r) Hnd (Hall r ltac:(left)))
    as (b & ->).
  reflexivity.
Qed.

Lemma getstatdata_sample_ts (base_query : list Snapshot) :
  NoDup (ts <$> base_query) →
  s_ts <$> powa_getstatdata_sample base_query = ts <$> order_by ts base_query.
Proof.
  intros Hnd. rewrite <- (windows_ts base_query Hnd).
  unfold powa_getstatdata_sample. rewrite <- list_fmap_compose. reflexivity.
Qed.

Lemma kcache_getstatdata_sample_ts (base_query : list Snapshot) :
  NoDup (ts <$> base_query) →
  k_ts <$> kcache_getstatdata_sample base_query = ts <$> order_by ts base_query.
Proof.
  intros Hnd. rewrite <- (windows_ts base_query Hnd).
  unfold kcache_getstatdata_sample. rewrite <- list_fmap_compose. reflexivity.
Qed.

(** X12. When the statement snapshots of a partition are taken at pairwise
    distinct timestamps and the kcache metrics at the same timestamps, both
    samples keep the same numbers and timestamps, and joining the two delta
    series on [ts] keeps every row of the statement series, once. *)
Theorem kcache_join_keeps_rows (samples : Z)
    (statements_history kcache_metrics : list Snapshot)
    (by_db : list (Z * Z * Snapshot)) :
  NoDup (ts <$> statements_history) →
  (∀ t, t ∈ ts <$> statements_history ↔ t ∈ ts <$> kcache_metrics) →
  sample samples statements_history = Ok by_db →
  ∃ kcache,
    sample samples (kmbq kcache_metrics) = Ok kcache
    ∧ (λ x, (x.1, ts x.2)) <$> by_db = (λ x, (x.1, ts x.2)) <$> kcache
    ∧ (λ p, p.1)
      <$> join_kcache (powa_getstatdata_sample ((λ x, x.2) <$> by_db))
            (kcache_getstatdata_sample ((λ x, x.2) <$> kcache))
      = powa_getstatdata_sample ((λ x, x.2) <$> by_db).
Proof.
  intros Hnd Hsame Hs.
  assert (Hts : ts <$> order_by ts statements_history
                = ts <$> order_by ts (kmbq kcache_metrics)).
  { apply strict_sorted_same_elements.
    - apply order_by_ts_strict, Hnd.
    - apply order_by_ts_strict, kmbq_NoDup.
    - intros t. rewrite !order_by_perm, Hsame, kmbq_ts.
      symmetry. apply group_by_keys_iff. }
  pose proof (where_related _ (sample_cond samples) _ _
                (sample_cond_number samples)
                (numbered_same_timestamps _ _ Hts)) as H.
  rewrite (sample_inv _ _ _ Hs) in H.
  destruct (where_ (sample_cond samples) (numbered (kmbq kcache_metrics)))
    as [kcache|e] eqn:Hk0; [|contradiction].
  assert (Hk : sample samples (kmbq kcache_metrics) = Ok kcache).
  { unfold sample in Hs |- *.
    destruct (int4pl samples 1); [exact Hk0|discriminate]. }
  exists kcache. split; [exact Hk|].
  pose proof (related_timestamps _ _ H) as Hrel.
  split; [exact Hrel|].
  pose proof (sample_sorted _ _ _ Hnd Hs) as S1.
  pose proof (sample_sorted _ _ _ (kmbq_NoDup kcache_metrics) Hk) as S2.
  assert (Hts2 : ts <$> ((λ x, x.2) <$> by_db)
                 = ts <$> ((λ x, x.2) <$> kcache)).
  { rewrite <- !list_fmap_compose.
    apply (f_equal (fmap snd)) in Hrel.
    rewrite <- !list_fmap_compose in Hrel. exact Hrel. }
  apply join_kcache_aligned.
  - rewrite getstatdata_sample_ts by (apply strict_sorted_NoDup, S1).
    rewrite kcache_getstatdata_sample_ts by (apply strict_sorted_NoDup, S2).
    rewrite !order_by_id by (apply strict_sorted_weak; assumption).
    exact Hts2.
  - rewrite kcache_getstatdata_sample_ts by (apply strict_sorted_NoDup, S2).
    rewrite order_by_id by (apply strict_sorted_weak, S2).
    apply strict_sorted_NoDup, S2.
Qed.

Lemma kcache_join_keeps_rows_witness :
  NoDup (ts <$> ramp 4)
  ∧ sample 1 (ramp 4) = Ok [(2, 4, snap 2 4); (4, 4, snap 4 16)]
  ∧ ∃ kcache,
      sample 1 (kmbq (ramp 4)) = Ok kcache
      ∧ (λ x : Z * Z * Snapshot, (x.1, ts x.2))
        <$> [(2, 4, snap 2 4); (4, 4, snap 4 16)]
        = (λ x, (x.1, ts x.2)) <$> kcache.
Proof.
  assert (Hnd : NoDup (ts <$> ramp 4)) by by_decide.
  assert (Hs : sample 1 (ramp 4) = Ok [(2, 4, snap 2 4); (4, 4, snap 4 16)])
    by (vm_compute; reflexivity).
  split; [exact Hnd|]. split; [exact Hs|].
  destruct (kcache_join_keeps_rows 1 (ramp 4) (ramp 4) _ Hnd
              ltac:(intros t; reflexivity) Hs) as (kcache & H1 & H2 & _).
  exists kcache. auto.
Defined.


(** ** Dashboards and wait graphs *)

Lemma pop_present (key : string) (base : gmap string MetricDef) :
  key ∈ dom base → pop key base = Return (delete key base).
Proof.
  intros Hin. apply elem_of_dom in Hin as [v Hv]. unfold pop. rewrite Hv.
  reflexivity.
Qed.

(** Popping distinct keys that are present removes them and nothing else. *)
Lemma pop_each_dom (keys : list string) (base : gmap string MetricDef) :
  NoDup keys → (∀ k, k ∈ keys → k ∈ dom base) →
  ∃ base', pop_each keys base = Return base'
           ∧ dom base' = dom base ∖ list_to_set keys.
Proof.
  revert base. induction keys as [|k keys IH]; intros base Hnd Hin.
  - exists base. split; [reflexivity|]. cbn [list_to_set foldr].
    symmetry. apply difference_empty_L.
  - apply NoDup_cons in Hnd as [Hk Hnd]. cbn [pop_each].
    rewrite pop_present by (apply Hin; left). cbn [mbind py_bind].
    destruct (IH (delete k base) Hnd) as (base' & Hpop & Hdom).
    { intros k' Hk'. rewrite dom_delete_L. apply elem_of_difference. split.
      - apply Hin. right. exact Hk'.
      - intros E. apply elem_of_singleton in E. subst k'. contradiction. }
    exists base'. split; [exact Hpop|].
    rewrite Hdom, dom_delete_L. cbn [list_to_set foldr].
    apply difference_difference_l_L.
Qed.

(** The fields of the schema returned by [_get_metrics], for a class with
    the metrics [names]. *)
Lemma get_metrics_fields (cls_metrics : gmap string MetricDef)
    (names : list string) (has_extension : string → string → bool)
    (server : string) :
  dom cls_metrics = list_to_set names →
  (∀ k, k ∈ ["total_sys_hit"; "total_disk_read"; "minflts"; "majflts";
             "nvcsws"; "nivcsws"; "total_blks_read"] → k ∈ names) →
  ∃ schema,
    _get_metrics cls_metrics has_extension server = Return schema
    ∧ ∀ m, m ∈ dom schema ↔
           m ∈ names
           ∧ m ∉ (if has_extension server "pg_stat_kcache"
                  then ["total_blks_read"]
                  else ["total_sys_hit"; "total_disk_read"; "minflts";
                        "majflts"; "nvcsws"; "nivcsws"]).
Proof.
  intros Hdom Hnames. unfold _get_metrics.
  assert (Hin : ∀ k, k ∈ ["total_sys_hit"; "total_disk_read"; "minflts";
                          "majflts"; "nvcsws"; "nivcsws"; "total_blks_read"] →
                     k ∈ dom cls_metrics).
  { intros k Hk. rewrite Hdom. apply elem_of_list_to_set, Hnames, Hk. }
  destruct (has_extension server "pg_stat_kcache"); cbn [negb].
  - exists (delete "total_blks_read" cls_metrics). split.
    + apply pop_present, Hin. by_decide.
    + intros m. rewrite dom_delete_L, Hdom, elem_of_difference,
        elem_of_list_to_set, elem_of_singleton, list_elem_of_singleton.
      reflexivity.
  - destruct (pop_each_dom ["total_sys_hit"; "total_disk_read"; "minflts";
                            "majflts"; "nvcsws"; "nivcsws"] cls_metrics)
      as (schema & Hpop & Hd).
    + by_decide.
    + intros k Hk. apply Hin. revert k Hk. apply Forall_forall. by_decide.
    + exists schema. split; [exact Hpop|].
      intros m. rewrite Hd, Hdom, elem_of_difference, !elem_of_list_to_set.
      reflexivity.
Qed.

Lemma database_overview_names :
  dom DatabaseOverviewMetricGroup.metrics
  = list_to_set ["avg_runtime"; "calls"; "load"; "total_blks_hit";
                 "total_blks_read"; "total_sys_hit"; "total_disk_read";
                 "minflts"; "majflts"; "nvcsws"; "nivcsws"].
Proof.
  unfold DatabaseOverviewMetricGroup.metrics. rewrite dom_list_to_map_L.
  reflexivity.
Qed.

Lemma global_databases_names :
  dom GlobalDatabasesMetricGroup.metrics
  = list_to_set ["avg_runtime"; "calls"; "load"; "total_blks_hit";
                 "total_blks_read"; "total_sys_hit"; "total_disk_read";
                 "minflts"; "majflts"; "nvcsws"; "nivcsws"].
Proof.
  unfold GlobalDatabasesMetricGroup.metrics. rewrite dom_list_to_map_L.
  reflexivity.
Qed.

(** Checks the metrics of the graphs of a dashboard once the extensions and
    the version are fixed. *)
Ltac check_graphs Hschema :=
  cbv [dashboard_graphs widget_graphs d_widgets mbind list_bind
       app fmap list_fmap snd set_color_scheme insert_metric
       g_title g_url g_metrics g_color_scheme
       database_wait_metrics global_wait_metrics
       database_wait_columns global_wait_columns orb];
  try match goal with
      | |- context [?v <? 100000] => destruct (v <? 100000)
      end;
  cbv beta iota;
  repeat (apply List.Forall_cons); try apply List.Forall_nil;
  cbv beta iota delta [g_metrics g_color_scheme];
  (split; [|intros colors Hc; try discriminate;
            injection Hc as <-; reflexivity]);
  repeat (apply List.Forall_cons); try apply List.Forall_nil;
  cbv beta iota delta [fst snd];
  first [ intros Hgrp; discriminate Hgrp
        | intros _; apply Hschema; by_decide ].

(** X13. For every set of extensions and every version, each metric that the
    graphs of [DatabaseOverview.dashboard] plot from
    [DatabaseOverviewMetricGroup] is a field of the schema that
    [_get_metrics] returns for the same server, and a graph with a colour
    scheme has one colour per metric; the same holds for
    [ServerOverview.dashboard] and [GlobalDatabasesMetricGroup]. *)
Theorem dashboards_plot_schema_fields
    (has_extension : string → string → bool) (server : string) :
  (∀ pg_version_num, ∃ schema,
     DatabaseOverviewMetricGroup._get_metrics has_extension server
     = Return schema
     ∧ Forall
         (λ g,
            Forall (λ m : metric,
                      m.1 = "DatabaseOverviewMetricGroup" → m.2 ∈ dom schema)
                   (g_metrics g)
            ∧ ∀ colors, g_color_scheme g = Some colors →
                        length colors = length (g_metrics g))
         (dashboard_graphs
            (database_dashboard has_extension server pg_version_num)))
  ∧ (∀ pg_version_num, ∃ schema,
       GlobalDatabasesMetricGroup._get_metrics has_extension server
       = Return schema
       ∧ Forall
           (λ g,
              Forall (λ m : metric,
                        m.1 = "GlobalDatabasesMetricGroup" → m.2 ∈ dom schema)
                     (g_metrics g)
              ∧ ∀ colors, g_color_scheme g = Some colors →
                          length colors = length (g_metrics g))
           (dashboard_graphs
              (server_dashboard has_extension server pg_version_num))).
Proof.
  split; intros version.
  - destruct (get_metrics_fields DatabaseOverviewMetricGroup.metrics _
                has_extension server database_overview_names
                ltac:(intros k Hk; revert k Hk; apply Forall_forall; by_decide))
      as (schema & Hget & Hschema).
    exists schema. split; [exact Hget|].
    unfold database_dashboard.
    destruct (has_extension server "pg_stat_kcache"),
             (has_extension server "pg_wait_sampling");
      check_graphs Hschema.
  - destruct (get_metrics_fields GlobalDatabasesMetricGroup.metrics _
                has_extension server global_databases_names
                ltac:(intros k Hk; revert k Hk; apply Forall_forall; by_decide))
      as (schema & Hget & Hschema).
    exists schema. split; [exact Hget|].
    unfold server_dashboard.
    destruct (has_extension server "pg_stat_kcache"),
             (has_extension server "pg_wait_sampling");
      destruct version as [v|];
      check_graphs Hschema.
Qed.




